(** * AASLD guideline pipeline: extraction and cleaning, verified

    A shallow embedding of the two programs of the repository,
    [Data_Extraction.py] (fetching, link discovery, HTML and PDF structural
    extraction) and [clean_data.py] (text cleaning and clinical entity
    extraction), and the properties their specification states about them.

    Modelling conventions.
    - A Python [str] is a list of Unicode code points ([Py.text]).  The
      interpreter's character tables are transcribed where the programs use
      them: white space ([str.strip], [\s]) and decimal digits ([\d]) in
      full; lower-casing for Basic Latin and Latin-1 and for the code
      points beyond that lower onto ASCII letters.  The programs compare
      lower-cased text with ASCII text only, which other code points
      cannot affect.
    - [re] is a backtracking matcher with Python's priorities (leftmost
      match, ordered alternation, greedy and lazy quantifiers); each
      pattern of the programs is written as a term of [Re.regex], with the
      source pattern quoted next to it, its flags folded into the term.
    - A parsed document (the value of [BeautifulSoup(html, "html.parser")])
      is a tree of tags and strings ([Dom.node]); parsing itself belongs to
      the library.
    - The PDF reader, the HTTP client and [urlparse] are collaborators; the
      first two are inputs of the functions that use them, the third is
      modelled after the library's algorithm, the errors it raises
      included. *)

From Stdlib Require Import String Ascii List NArith Bool Lia Arith Sorted.
Import ListNotations.

Set Implicit Arguments.

(* ===================================================================== *)
(** * Python strings *)
(* ===================================================================== *)

Module Py.

Definition char := N.
Definition text := list char.

Definition ch (a : ascii) : char := N_of_ascii a.

Fixpoint u (s : string) : text :=
  match s with
  | EmptyString => []
  | String a s' => ch a :: u s'
  end.

Definition between (lo hi c : char) : bool := ((lo <=? c) && (c <=? hi))%N.
Arguments between (lo hi c)%_N.

(** [str.isspace] on one code point; also the class [\s] of [re]. *)
Definition is_space (c : char) : bool :=
  (between 9 13 c || between 28 32 c || (c =? 133) || (c =? 160)
   || (c =? 5760) || between 8192 8202 c || (c =? 8232) || (c =? 8233)
   || (c =? 8239) || (c =? 8287) || (c =? 12288))%N.

(** The class [\d]: the decimal digits (category Nd) of Unicode 14. *)
Definition digit_ranges : list (N * N) :=
  [ (48, 57); (1632, 1641); (1776, 1785); (1984, 1993); (2406, 2415);
    (2534, 2543); (2662, 2671); (2790, 2799); (2918, 2927); (3046, 3055);
    (3174, 3183); (3302, 3311); (3430, 3439); (3558, 3567); (3664, 3673);
    (3792, 3801); (3872, 3881); (4160, 4169); (4240, 4249); (6112, 6121);
    (6160, 6169); (6470, 6479); (6608, 6617); (6784, 6793); (6800, 6809);
    (6992, 7001); (7088, 7097); (7232, 7241); (7248, 7257); (42528, 42537);
    (43216, 43225); (43264, 43273); (43472, 43481); (43504, 43513);
    (43600, 43609); (44016, 44025); (65296, 65305); (66720, 66729);
    (68912, 68921); (69734, 69743); (69872, 69881); (69942, 69951);
    (70096, 70105); (70384, 70393); (70736, 70745); (70864, 70873);
    (71248, 71257); (71360, 71369); (71472, 71481); (71904, 71913);
    (72016, 72025); (72784, 72793); (73040, 73049); (73120, 73129);
    (92768, 92777); (92864, 92873); (93008, 93017); (120782, 120831);
    (123200, 123209); (123632, 123641); (125264, 125273);
    (130032, 130041) ]%N.

Definition is_digit (c : char) : bool :=
  existsb (fun r => between (fst r) (snd r) c) digit_ranges.

(** The classes [[a-z]] and [[A-Z]]. *)
Definition is_lower_az (c : char) : bool := between 97 122 c.
Definition is_upper_AZ (c : char) : bool := between 65 90 c.

(** Simple (one to one) lower-casing of a code point. *)
Definition lower1 (c : char) : char :=
  if is_upper_AZ c then (c + 32)%N
  else if between 192 222 c && negb (c =? 215)%N then (c + 32)%N
  else if (c =? 304)%N then 105%N        (* U+0130 *)
  else if (c =? 8490)%N then 107%N       (* U+212A KELVIN SIGN *)
  else if (c =? 8491)%N then 229%N       (* U+212B ANGSTROM SIGN *)
  else c.

(** [str.lower]: U+0130 lowers to two code points. *)
Definition lower (s : text) : text :=
  flat_map (fun c => if (c =? 304)%N then [105%N; 775%N] else [lower1 c]) s.

Fixpoint eqb (a b : text) : bool :=
  match a, b with
  | [], [] => true
  | x :: a', y :: b' => (x =? y)%N && eqb a' b'
  | _, _ => false
  end.

(** [s.startswith(pre)] *)
Fixpoint startswith (pre s : text) : bool :=
  match pre, s with
  | [], _ => true
  | x :: pre', y :: s' => (x =? y)%N && startswith pre' s'
  | _ :: _, [] => false
  end.

(** [s.endswith(suf)] *)
Definition endswith (suf s : text) : bool := startswith (rev suf) (rev s).

(** [pat in s] *)
Fixpoint contains (pat s : text) : bool :=
  startswith pat s ||
  match s with
  | [] => false
  | _ :: s' => contains pat s'
  end.

Fixpoint drop_while (p : char -> bool) (s : text) : text :=
  match s with
  | [] => []
  | c :: s' => if p c then drop_while p s' else s
  end.

Definition lstrip_by (p : char -> bool) (s : text) : text := drop_while p s.
Definition rstrip_by (p : char -> bool) (s : text) : text :=
  rev (drop_while p (rev s)).

(** [s.strip()], [s.rstrip(chars)] for a one-character [chars]. *)
Definition strip (s : text) : text := rstrip_by is_space (lstrip_by is_space s).
Definition rstrip_char (c : char) (s : text) : text :=
  rstrip_by (fun x => (x =? c)%N) s.

(** [s.split(sep)] for a one-character separator: never empty. *)
Fixpoint split_on (sep : char) (s : text) : list text :=
  match s with
  | [] => [[]]
  | c :: s' =>
      match split_on sep s' with
      | [] => [[c]]
      | p :: ps => if (c =? sep)%N then [] :: p :: ps else (c :: p) :: ps
      end
  end.

(** [s.split()]: maximal runs of non-space characters. *)
Fixpoint split_ws_aux (cur : text) (s : text) : list text :=
  match s with
  | [] => match cur with [] => [] | _ => [rev cur] end
  | c :: s' =>
      if is_space c
      then match cur with
           | [] => split_ws_aux [] s'
           | _ => rev cur :: split_ws_aux [] s'
           end
      else split_ws_aux (c :: cur) s'
  end.
Definition split_ws (s : text) : list text := split_ws_aux [] s.

(** [sep.join(parts)] *)
Fixpoint join (sep : text) (parts : list text) : text :=
  match parts with
  | [] => []
  | [p] => p
  | p :: ps => p ++ sep ++ join sep ps
  end.

(** Truthiness of a string. *)
Definition truthy (s : text) : bool :=
  match s with [] => false | _ => true end.

End Py.

Arguments Py.ch a%_char.
Arguments Py.u s%_string.

(* ===================================================================== *)
(** * Regular expressions, as [re] runs them *)
(* ===================================================================== *)

Module Re.
Import Py.

Inductive regex : Type :=
| Eps : regex
| Chr : (char -> bool) -> regex                 (* one character of a class *)
| Seq : regex -> regex -> regex
| Alt : regex -> regex -> regex                 (* ordered: left first *)
| Rep : bool -> (char -> bool) -> nat -> option nat -> regex
      (* a quantified class; [true] is greedy; bounds [lo], [hi] *)
| Grp : nat -> regex -> regex                   (* capturing group n *)
| Ahead : regex -> regex                        (* (?=r) *)
| Behind : (char -> bool) -> regex              (* (?<=[class]) *)
| Eol : bool -> regex.                          (* $; [true] under MULTILINE *)

Declare Scope re_scope.
Delimit Scope re_scope with re.
Infix ";;" := Seq (at level 40, left associativity) : re_scope.
Infix "|||" := Alt (at level 50, left associativity) : re_scope.

(** Character classes. *)
Definition any : char -> bool := fun _ => true.            (* . under DOTALL *)
Definition dot : char -> bool := fun c => negb (c =? 10)%N. (* . otherwise *)
Definition just (a : ascii) : char -> bool := fun c => (c =? ch a)%N.
Definition other_than (a : ascii) : char -> bool := fun c => negb (c =? ch a)%N.
Definition either (p q : char -> bool) : char -> bool := fun c => p c || q c.
Arguments just a%_char.
Arguments other_than a%_char.

(** A literal character under IGNORECASE: equal after lower-casing, with
    the two extra pairs the compiler adds for ASCII letters (dotless i,
    long s). *)
Definition is_ci (l : char) : char -> bool :=
  fun c => let c' := lower1 c in
    ((c' =? lower1 l)
     || ((lower1 l =? 105) && (c' =? 305))
     || ((lower1 l =? 115) && (c' =? 383)))%N.

(** Literal text, case sensitive and under IGNORECASE. *)
Fixpoint lit (s : text) : regex :=
  match s with
  | [] => Eps
  | c :: s' => Seq (Chr (fun x => (x =? c)%N)) (lit s')
  end.

Fixpoint lit_i (s : text) : regex :=
  match s with
  | [] => Eps
  | c :: s' => Seq (Chr (is_ci c)) (lit_i s')
  end.

Definition star p := Rep true p 0 None.        (* p* *)
Definition plus p := Rep true p 1 None.        (* p+ *)
Definition lazy_star p := Rep false p 0 None.  (* p*? *)
Definition opt_chr p := Rep true p 0 (Some 1). (* p? *)
Definition opt r := Alt r Eps.                 (* (?:r)? *)

(** The state of a match attempt: the character before the position, the
    text from the position on, the groups captured so far. *)
Record mstate : Type := MState {
  prev : option char;
  rest : text;
  caps : list (nat * text)
}.

Definition or_else {R : Type} (a : option R) (b : unit -> option R) : option R :=
  match a with Some x => Some x | None => b tt end.

Definition can_more (hi : option nat) : bool :=
  match hi with Some 0 => false | _ => true end.

Fixpoint rep {R : Type} (greedy : bool) (p : char -> bool) (lo : nat)
    (hi : option nat) (pv : option char) (s : text) (cs : list (nat * text))
    (k : mstate -> option R) {struct s} : option R :=
  let stop (_ : unit) :=
    match lo with 0 => k (MState pv s cs) | S _ => None end in
  let more (_ : unit) :=
    match s with
    | c :: s' =>
        if p c && can_more hi
        then rep greedy p (Nat.pred lo) (option_map Nat.pred hi) (Some c) s' cs k
        else None
    | [] => None
    end in
  if greedy then or_else (more tt) stop else or_else (stop tt) more.

Fixpoint exec (r : regex) : forall R : Type, mstate -> (mstate -> option R) -> option R :=
  fun R st k =>
  match r with
  | Eps => k st
  | Chr p =>
      match rest st with
      | c :: s' => if p c then k (MState (Some c) s' (caps st)) else None
      | [] => None
      end
  | Seq a b => exec a st (fun st' => exec b st' k)
  | Alt a b => or_else (exec a st k) (fun _ => exec b st k)
  | Rep g p lo hi => rep g p lo hi (prev st) (rest st) (caps st) k
  | Grp n a =>
      exec a st (fun st' =>
        let taken := firstn (length (rest st) - length (rest st')) (rest st) in
        k (MState (prev st') (rest st') ((n, taken) :: caps st')))
  | Ahead a =>
      match exec a st (fun st' => Some (caps st')) with
      | Some cs => k (MState (prev st) (rest st) cs)
      | None => None
      end
  | Behind p =>
      match prev st with
      | Some c => if p c then k st else None
      | None => None
      end
  | Eol multiline =>
      match rest st with
      | [] => k st
      | c :: s' =>
          if (c =? 10)%N && (multiline || negb (truthy s')) then k st else None
      end
  end.

(** A match object: [group(0)], the groups, and what follows the match. *)
Record rmatch : Type := RMatch {
  m_text : text;
  m_caps : list (nat * text);
  m_prev : option char;
  m_rest : text
}.

(** [m.group(n)]: the last capture of group [n], [None] when unset. *)
Fixpoint group (n : nat) (cs : list (nat * text)) : option text :=
  match cs with
  | [] => None
  | (i, t) :: cs' => if Nat.eqb i n then Some t else group n cs'
  end.

(** One attempt at a position; [must_advance] refuses the empty match. *)
Definition match_here (r : regex) (must_advance : bool) (pv : option char)
    (s : text) : option rmatch :=
  exec r (MState pv s [])
    (fun st' =>
       if must_advance && Nat.eqb (length (rest st')) (length s) then None
       else Some (RMatch (firstn (length s - length (rest st')) s)
                         (caps st') (prev st') (rest st'))).

(** The scan all of [finditer], [sub] and [split] share: literal
    characters between matches, and the matches.  After an empty match the
    same position is tried again for a non-empty one. *)
Inductive piece : Type :=
| Lit : char -> piece
| Hit : rmatch -> piece.

Fixpoint scan (fuel : nat) (r : regex) (must_advance : bool)
    (pv : option char) (s : text) : list piece :=
  match fuel with
  | 0 => []
  | S fuel' =>
      match match_here r must_advance pv s with
      | Some m =>
          match m_text m with
          | [] => Hit m :: scan fuel' r true pv s
          | _ :: _ => Hit m :: scan fuel' r false (m_prev m) (m_rest m)
          end
      | None =>
          match s with
          | [] => []
          | c :: s' => Lit c :: scan fuel' r false (Some c) s'
          end
      end
  end.

(** Each turn of the scan passes a character or, after an empty match,
    forbids the next one to be empty: twice the length of the text, and
    two, is fuel enough. *)
Definition pieces (r : regex) (s : text) : list piece :=
  scan (2 * length s + 2) r false None s.

(** [re.finditer(r, s)] *)
Fixpoint hits (ps : list piece) : list rmatch :=
  match ps with
  | [] => []
  | Lit _ :: ps' => hits ps'
  | Hit m :: ps' => m :: hits ps'
  end.
Definition finditer (r : regex) (s : text) : list rmatch := hits (pieces r s).

(** [re.search(r, s)] *)
Definition search (r : regex) (s : text) : option rmatch :=
  hd_error (finditer r s).

(** Replacement templates: literal characters and group references. *)
Inductive ritem : Type :=
| RChr : char -> ritem
| RGrp : nat -> ritem.

Definition expand (repl : list ritem) (m : rmatch) : text :=
  flat_map (fun i =>
    match i with
    | RChr c => [c]
    | RGrp n => match group n (m_caps m) with Some t => t | None => [] end
    end) repl.

Definition rlit (s : text) : list ritem := map RChr s.

Fixpoint render (repl : list ritem) (ps : list piece) : text :=
  match ps with
  | [] => []
  | Lit c :: ps' => c :: render repl ps'
  | Hit m :: ps' => expand repl m ++ render repl ps'
  end.

(** [re.sub(r, repl, s)] *)
Definition sub (r : regex) (repl : list ritem) (s : text) : text :=
  render repl (pieces r s).

(** [re.split(r, s)] for a pattern without groups. *)
Fixpoint split_aux (cur : text) (ps : list piece) : list text :=
  match ps with
  | [] => [rev cur]
  | Lit c :: ps' => split_aux (c :: cur) ps'
  | Hit _ :: ps' => rev cur :: split_aux [] ps'
  end.
Definition split (r : regex) (s : text) : list text := split_aux [] (pieces r s).

End Re.

(* ===================================================================== *)
(** * clean_data.py: the text cleaner and the clinical entity extractor *)
(* ===================================================================== *)

Module CleanData.
Import Py Re.
Local Open Scope re_scope.

Definition nl : char := 10%N.
Definition tab : char := 9%N.
Definition GE : char := 8805%N.   (* U+2265, greater-than or equal to *)
Definition LE : char := 8804%N.   (* U+2264, less-than or equal to *)

(** [NAVIGATION_PATTERNS], each compiled with [re.IGNORECASE] (the flag
    [clean_text] passes); [.] excludes the newline. *)
Definition NAVIGATION_PATTERNS : list regex :=
  [ lit_i (u "AASLD PublicationsHepatologyLiver TransplantationHepatology CommunicationsClinical Liver Disease");
    lit_i (u "Visit our other sites");
    lit_i (u "Log inorRegister");
    lit_i (u "Subscribe to journal");
    lit_i (u "Get new issue alerts");
    lit_i (u "AASLD Member? Login here");            (* AASLD Member\? Login here *)
    lit_i (u "Subscribe to eTOC");
    lit_i (u "Enter your Email address:");
    lit_i (u "Privacy Policy");
    lit_i (u "Journal Logo");
    lit_i (u "ArticlesArticlesAdvanced Search");
    lit_i (u "Toggle navigation");
    lit_i (u "BrowsingHistory");
    lit_i (u "Back to Top");
    lit_i (u "Never Miss an Issue");
    lit_i (u "Get new journal Tables of Contents");
    lit_i (u "Customer Service");
    lit_i (u "Contact us at:");
    lit_i (u "Submit a Service Request");
    lit_i (u "Manage Cookie Preferences");
    lit_i (u "Copyright") ;; star dot ;;
      lit_i (u "American Association for the Study of Liver Diseases");
    lit_i (u "Content use for text and data mining and artificial intelligence training is not permitted");
    lit_i (u "Your PrivacyTo give you the best possible experience");
    lit_i (u "Accept All Cookies");
    lit_i (u "Privacy Preference Center");
    lit_i (u "Strictly Necessary Cookies");
    lit_i (u "Functional Cookies");
    lit_i (u "Performance Cookies");
    lit_i (u "Advertising Cookies");
    lit_i (u "Flash Player") ;; star dot ;; lit_i (u "required");
    lit_i (u "Get Adobe Flash Player");
    lit_i (u "Email to Colleague");
    lit_i (u "Colleague's E-mail is Invalid");
    lit_i (u "Your message has been successfully sent");
    lit_i (u "Some error has occurred while processing your request");
    lit_i (u "Export toEnd Note");
    lit_i (u "ProciteReference Manager");
    lit_i (u "Save my selection");
    lit_i (u "DownloadPDF");
    lit_i (u "CiteCopy");
    lit_i (u "ShareEmailFacebookXLinkedIn");
    lit_i (u "FavoritesPermissions");
    lit_i (u "Related Articles");
    lit_i (u "Readers Of this Article Also Read");
    lit_i (u "Most Popular") ].

(** The patterns of [clean_text], in the order it applies them. *)
Definition re_spaces : regex := plus is_space.                  (* \s+ *)
Definition re_blank_lines : regex :=                            (* \n\s*\n+ *)
  Chr (fun c => (c =? nl)%N) ;; star is_space ;; plus (fun c => (c =? nl)%N).
Definition re_blanks : regex :=                                 (* [ \t]+ *)
  plus (either (just " ") (fun c => (c =? tab)%N)).
Definition re_camel : regex :=                                  (* ([a-z])([A-Z]) *)
  Grp 1 (Chr is_lower_az) ;; Grp 2 (Chr is_upper_AZ).
Definition is_stop : char -> bool :=                            (* [\.!?] *)
  either (just ".") (either (just "!") (just "?")).
Definition re_sentence : regex :=                               (* ([\.!?])([A-Z]) *)
  Grp 1 (Chr is_stop) ;; Grp 2 (Chr is_upper_AZ).
Definition re_dots : regex := Rep true (just ".") 3 None.       (* \.{3,} *)
Definition re_dashes : regex := Rep true (just "-") 3 None.     (* -{3,} *)
Definition re_copyright : regex :=        (* Copyright.*$ with MULTILINE | DOTALL *)
  lit (u "Copyright") ;; star any ;; Eol true.

Definition spaced : list ritem := [RGrp 1; RChr (ch " "); RGrp 2].   (* \1 \2 *)

Definition strip_navigation (t : text) : text :=
  fold_left (fun t p => sub p [] t) NAVIGATION_PATTERNS t.

Definition clean_text (t : text) : text :=
  if negb (truthy t) then []
  else
    let t := strip_navigation t in
    let t := sub re_spaces (rlit (u " ")) t in
    let t := sub re_blank_lines (rlit [nl; nl]) t in
    let t := sub re_blanks (rlit (u " ")) t in
    let t := sub re_camel spaced t in
    let t := sub re_sentence spaced t in
    let t := sub re_dots (rlit (u "...")) t in
    let t := sub re_dashes (rlit (u "---")) t in
    let t := sub re_copyright [] t in
    strip t.

(** A recommendation, as the dictionary [extract_recommendations] builds. *)
Record recommendation : Type := Recommendation {
  number : text;
  rec_text : text;
  grade : option text;
  certainty : option text;
  raw_text : text
}.

(** Recommendation\s+(\d+)[:\s]+(.*?)(?=Recommendation\s+\d+|Case\s+\d+|$|Summary)
    with IGNORECASE | DOTALL *)
Definition rec_pattern : regex :=
  lit_i (u "Recommendation") ;; plus is_space ;; Grp 1 (plus is_digit) ;;
  plus (either (just ":") is_space) ;; Grp 2 (lazy_star any) ;;
  Ahead (lit_i (u "Recommendation") ;; plus is_space ;; plus is_digit
         ||| lit_i (u "Case") ;; plus is_space ;; plus is_digit
         ||| Eol false
         ||| lit_i (u "Summary")).

(** \((Strong|Conditional|Weak)\s+recommendation[^)]+\) *)
Definition grade_pattern : regex :=
  lit (u "(") ;;
  Grp 1 (lit (u "Strong") ||| lit (u "Conditional") ||| lit (u "Weak")) ;;
  plus is_space ;; lit (u "recommendation") ;; plus (other_than ")") ;;
  lit (u ")").

(** \((?:high|moderate|low|very low)\s+certainty\) with IGNORECASE *)
Definition certainty_pattern : regex :=
  lit_i (u "(") ;;
  (lit_i (u "high") ||| lit_i (u "moderate") ||| lit_i (u "low")
   ||| lit_i (u "very low")) ;;
  plus is_space ;; lit_i (u "certainty") ;; lit_i (u ")").

Definition group_or_empty (n : nat) (m : rmatch) : text :=
  match group n (m_caps m) with Some t => t | None => [] end.

Definition recommendation_of (m : rmatch) : list recommendation :=
  let rec_num := group_or_empty 1 m in
  let rec_text := strip (group_or_empty 2 m) in
  let grade := option_map (group_or_empty 1) (search grade_pattern rec_text) in
  let certainty := option_map m_text (search certainty_pattern rec_text) in
  let rec_text := clean_text rec_text in
  if truthy rec_text
  then [Recommendation rec_num rec_text grade certainty (m_text m)]
  else [].

Definition extract_recommendations (t : text) : list recommendation :=
  flat_map recommendation_of (finditer rec_pattern t).

(** A clinical value: the two shapes of dictionary
    [extract_clinical_values] appends, told apart by their ['type']. *)
Inductive clinical_value : Type :=
| Dosage (value number unit : text)
| Threshold (value operator number unit : text).

Definition one_of (names : list text) : regex :=
  match map lit_i names with
  | [] => Eps
  | r :: rs => fold_left Alt rs r
  end.

(** (\d+(?:\.\d+)?)\s*(mg|mcg|IU/mL|U/L|IU|mL|kg)\s*(?:orally|subcutaneously|daily|weekly|monthly)?
    with IGNORECASE *)
Definition dosage_pattern : regex :=
  Grp 1 (plus is_digit ;; opt (lit_i (u ".") ;; plus is_digit)) ;;
  star is_space ;;
  Grp 2 (one_of [u "mg"; u "mcg"; u "IU/mL"; u "U/L"; u "IU"; u "mL"; u "kg"]) ;;
  star is_space ;;
  opt (one_of [u "orally"; u "subcutaneously"; u "daily"; u "weekly"; u "monthly"]).

(** (≥|≤|<|>|>=|<=)\s*(\d+(?:,\d+)?)\s*(IU/mL|U/L|IU|mg/dL|years?|months?|weeks?|days?)
    with IGNORECASE *)
Definition threshold_pattern : regex :=
  Grp 1 (one_of [[GE]; [LE]; u "<"; u ">"; u ">="; u "<="]) ;;
  star is_space ;;
  Grp 2 (plus is_digit ;; opt (lit_i (u ",") ;; plus is_digit)) ;;
  star is_space ;;
  Grp 3 (lit_i (u "IU/mL") ||| lit_i (u "U/L") ||| lit_i (u "IU")
         ||| lit_i (u "mg/dL")
         ||| lit_i (u "year") ;; opt_chr (is_ci (ch "s"))
         ||| lit_i (u "month") ;; opt_chr (is_ci (ch "s"))
         ||| lit_i (u "week") ;; opt_chr (is_ci (ch "s"))
         ||| lit_i (u "day") ;; opt_chr (is_ci (ch "s"))).

Definition dosage_of (m : rmatch) : clinical_value :=
  Dosage (m_text m) (group_or_empty 1 m) (group_or_empty 2 m).

Definition threshold_of (m : rmatch) : clinical_value :=
  Threshold (m_text m) (group_or_empty 1 m) (group_or_empty 2 m)
            (group_or_empty 3 m).

Definition extract_clinical_values (t : text) : list clinical_value :=
  map dosage_of (finditer dosage_pattern t)
  ++ map threshold_of (finditer threshold_pattern t).

(** ** JSON values, as [json.load] gives them

    A float is kept as what the code can see of it: whether it is zero,
    and how [str] shows it.  A dictionary lists its entries in insertion
    order; a key is looked up at its first entry. *)

#[local] Set Warnings "-register-all".

Inductive json : Type :=
| JNull
| JBool (b : bool)
| JInt (n : Z)
| JFloat (zero : bool) (shown : text)
| JStr (s : text)
| JList (l : list json)
| JDict (d : list (text * json)).

Inductive error : Type := TypeError | AttributeError.

Inductive result (A : Type) : Type :=
| Returns (a : A)
| Raises (e : error).
Arguments Returns {A} a.
Arguments Raises {A} e.

Definition and_then {A B} (x : result A) (f : A -> result B) : result B :=
  match x with Returns a => f a | Raises e => Raises e end.
Notation "'let+' x ':=' c 'in' k" := (and_then c (fun x => k))
  (at level 10, x name, c at level 100, k at level 200).

Fixpoint lookup (d : list (text * json)) (key : text) : option json :=
  match d with
  | [] => None
  | (k, v) :: d' => if eqb k key then Some v else lookup d' key
  end.

(** [d.get(key, default)] on a dictionary *)
Definition get (d : list (text * json)) (key : string) (default : json) : json :=
  match lookup d (u key) with Some v => v | None => default end.

(** The list to loop on after
    [if key in d and isinstance(d[key], list)]: none when the test fails. *)
Definition list_at (d : list (text * json)) (key : string) : list json :=
  match lookup d (u key) with Some (JList l) => l | _ => [] end.

(** The keys of a dictionary, in order. *)
Fixpoint keys (d : list (text * json)) : list text :=
  match d with
  | [] => []
  | (k, _) :: d' => k :: filter (fun k' => negb (eqb k' k)) (keys d')
  end.

Definition json_truthy (v : json) : bool :=
  match v with
  | JNull => false
  | JBool b => b
  | JInt n => match n with Z0 => false | _ => true end
  | JFloat zero _ => negb zero
  | JStr s => truthy s
  | JList l => match l with [] => false | _ => true end
  | JDict d => match d with [] => false | _ => true end
  end.

(** [v == s] for a string [s] *)
Definition is_str (v : json) (s : string) : bool :=
  match v with JStr t => eqb t (u s) | _ => false end.

(** [self.clean_text(v)] for any value: what is false gives [""], and
    [re.sub] raises [TypeError] on what is not a string. *)
Definition clean_text_of (v : json) : result text :=
  match v with
  | JStr s => Returns (clean_text s)
  | _ => if json_truthy v then Raises TypeError else Returns []
  end.

(** [for x in v]: the items of a list, the characters of a string, the
    keys of a dictionary; nothing else can be looped on. *)
Definition iterate (v : json) : result (list json) :=
  match v with
  | JList l => Returns l
  | JStr s => Returns (map (fun c => JStr [c]) s)
  | JDict d => Returns (map JStr (keys d))
  | _ => Raises TypeError
  end.

(** ** Cleaning the content of a file *)

Record section : Type := Section {
  heading : text;
  level : json;
  content : list text
}.

Record table : Type := Table {
  caption : text;
  headers : list text;
  rows : list (list text)
}.

Record html_content : Type := HtmlContent {
  full_text : text;
  sections : list section;
  tables : list table;
  links : json;
  recommendations : list recommendation;
  clinical_values : list clinical_value;
  word_count : json;
  paragraph_count : json;
  section_count : nat;
  table_count : nat
}.

Record pdf_content : Type := PdfContent {
  pdf_full_text : text;
  paragraphs : list text;
  pdf_recommendations : list recommendation;
  pdf_clinical_values : list clinical_value;
  pdf_word_count : json;
  pdf_paragraph_count : nat;
  page_count : json
}.

(** The ['content'] of a cleaned file: [{}], what [clean_html_content] or
    [clean_pdf_content] returns, or the one key ['full_text']. *)
Inductive file_content : Type :=
| NoContent
| Html (c : html_content)
| Pdf (c : pdf_content)
| FullText (t : text).

Record cleaned_file : Type := CleanedFile {
  file_id : text;
  page_url : json;
  page_title : text;
  content_type : json;
  crawled_at : json;
  accessible : json;
  cleaned_content : file_content;
  cleaned_at : text
}.

Definition SKIPPED_HEADINGS : list text :=
  [u "logo"; u "navigation"; u "cookie"; u "privacy"].

Section Cleaning.

(** [str(v)] of a value that is not a string is left to Python. *)
Variable str_of : json -> text.

Definition py_str (v : json) : text :=
  match v with JStr s => s | _ => str_of v end.

Definition clean_item (v : json) : text := clean_text (py_str v).

(** One turn of the loop on the sections: the section to append, if any. *)
Definition clean_section (sec : json) : result (option section) :=
  match sec with
  | JDict s =>
      let+ heading := clean_text_of (get s "heading" (JStr [])) in
      if existsb (fun nav => contains nav (lower heading)) SKIPPED_HEADINGS
      then Returns None
      else
        match get s "content" (JList []) with
        | JList items =>
            let cleaned_content :=
              filter (fun c => 10 <? length c) (map clean_item items) in
            if truthy heading
               || match cleaned_content with [] => false | _ => true end
            then Returns (Some (Section heading (get s "level" (JInt (Zpos 1%positive)))
                                  cleaned_content))
            else Returns None
        | _ => Returns None
        end
  | _ => Returns None
  end.

(** A loop that appends what each turn gives, and stops at the first
    exception. *)
Fixpoint collect {A} (turn : json -> result (option A)) (l : list json)
  : result (list A) :=
  match l with
  | [] => Returns []
  | x :: l' =>
      let+ a := turn x in
      let+ rest := collect turn l' in
      Returns (match a with Some y => y :: rest | None => rest end)
  end.

Definition clean_row (row : json) : list (list text) :=
  match row with
  | JList cells => [map clean_item cells]
  | _ => []
  end.

Definition clean_table (t : json) : result (option table) :=
  match t with
  | JDict d =>
      let+ caption := clean_text_of (get d "caption" (JStr [])) in
      let+ hs := iterate (get d "headers" (JList [])) in
      let+ rs := iterate (get d "rows" (JList [])) in
      Returns (Some (Table caption (map clean_item hs) (flat_map clean_row rs)))
  | _ => Returns None
  end.

Definition clean_html_content (content : json) : result html_content :=
  match content with
  | JDict d =>
      let+ full_text := clean_text_of (get d "full_text" (JStr [])) in
      let+ sections := collect clean_section (list_at d "sections") in
      let+ tables := collect clean_table (list_at d "tables") in
      Returns
        (HtmlContent full_text sections tables (get d "links" (JList []))
           (extract_recommendations full_text)
           (extract_clinical_values full_text)
           (get d "word_count" (JInt Z0))
           (get d "paragraph_count" (JInt Z0))
           (length sections) (length tables))
  | _ => Raises AttributeError
  end.

Definition clean_pdf_content (content : json) : result pdf_content :=
  match content with
  | JDict d =>
      let+ full_text := clean_text_of (get d "full_text" (JStr [])) in
      let paragraphs :=
        filter (fun p => 10 <? length p)
          (map clean_item (list_at d "paragraphs")) in
      Returns
        (PdfContent full_text paragraphs
           (extract_recommendations full_text)
           (extract_clinical_values full_text)
           (get d "word_count" (JInt Z0))
           (length paragraphs)
           (get d "page_count" (JInt Z0)))
  | _ => Raises AttributeError
  end.

(** [clean_file]: [stem] is the name of the file without its suffix,
    [loaded] what opening and parsing it gives (nothing when that raises)
    and [now] the time of the call.  Every exception ends in [None]. *)
Definition clean_file (stem : text) (loaded : option json) (now : text)
  : option cleaned_file :=
  match loaded with
  | Some (JDict data) =>
      let content_type := get data "content_type" (JStr []) in
      let cleaned :=
        let+ page_title := clean_text_of (get data "page_title" (JStr [])) in
        let+ content :=
          match lookup data (u "content") with
          | Some c =>
              if is_str content_type "html"
              then let+ h := clean_html_content c in Returns (Html h)
              else if is_str content_type "pdf"
              then let+ p := clean_pdf_content c in Returns (Pdf p)
              else
                match c with
                | JDict d =>
                    let+ t := clean_text_of (get d "full_text" (JStr [])) in
                    Returns (FullText t)
                | _ => Raises AttributeError
                end
          | None => Returns NoContent
          end in
        Returns
          (CleanedFile stem (get data "page_url" (JStr [])) page_title
             content_type (get data "crawled_at" (JStr []))
             (get data "accessible" (JBool false)) content now) in
      match cleaned with
      | Returns r => Some r
      | Raises _ => None
      end
  | _ => None
  end.

End Cleaning.

End CleanData.

(* ===================================================================== *)
(** * Parsed documents *)
(* ===================================================================== *)

Module Dom.
Import Py.

(** The classes of the strings of a tree, as Beautiful Soup (4.11 and
    later) has them: the parser gives a string the class of the innermost
    [script], [style], [template], [rt] or [rp] element it is in, if any. *)
Inductive string_class : Type :=
| NavigableString
| CData
| Comment
| Declaration
| Doctype
| ProcessingInstruction
| Script
| Stylesheet
| TemplateString
| RubyTextString
| RubyParenthesisString.

(** A node of the tree [BeautifulSoup] builds: a string with its class,
    or a tag with its children.  Tag names are lower case, as the parser
    leaves them. *)
#[local] Set Warnings "-register-all".
Inductive node : Type :=
| Str : string_class -> text -> node
| Tag : string -> list node -> node.

(** The document itself, the value of [BeautifulSoup(html, "html.parser")]. *)
Definition document (children : list node) : node :=
  Tag "[document]" children.

Definition name (n : node) : string :=
  match n with Str _ _ => EmptyString | Tag nm _ => nm end.

Definition named (names : list string) (nm : string) : bool :=
  existsb (String.eqb nm) names.

(** The tags below a node in document order, each with the names of its
    ancestors (nearest first). *)
Fixpoint descendants (anc : list string) (n : node) : list (list string * node) :=
  match n with
  | Str _ _ => []
  | Tag nm ch =>
      flat_map (fun c =>
        match c with
        | Str _ _ => []
        | Tag _ _ => (nm :: anc, c) :: descendants (nm :: anc) c
        end) ch
  end.

(** [n.find_all(names)] and [n.find(name)] *)
Definition find_all_anc (names : list string) (n : node) : list (list string * node) :=
  filter (fun e => named names (name (snd e))) (descendants [] n).
Definition find_all (names : list string) (n : node) : list node :=
  map snd (find_all_anc names n).
Definition find (nm : string) (n : node) : option node :=
  hd_error (find_all [nm] n).

(** [e.find_parent(names)], as a test. *)
Definition has_parent (names : list string) (anc : list string) : bool :=
  existsb (named names) anc.

(** The strings below a node, in document order, each with its class. *)
Fixpoint strings (n : node) : list (string_class * text) :=
  match n with
  | Str k s => [(k, s)]
  | Tag _ ch => flat_map strings ch
  end.

(** The classes of strings that [get_text] reads below a tag of a given
    name: [tag.interesting_string_types]. *)
Definition interesting_string_types (nm : string) (k : string_class) : bool :=
  if String.eqb nm "rt" then
    match k with RubyTextString => true | _ => false end
  else if String.eqb nm "rp" then
    match k with RubyParenthesisString => true | _ => false end
  else if String.eqb nm "style" then
    match k with Stylesheet => true | _ => false end
  else if String.eqb nm "script" then
    match k with Script => true | _ => false end
  else if String.eqb nm "template" then
    match k with TemplateString => true | _ => false end
  else
    match k with NavigableString | CData => true | _ => false end.

(** [n.get_text(strip=True)]: the strings below [n] of the classes that
    are interesting for it, each stripped, the empty ones left out, joined
    without a separator.  Comments, and inside an ordinary element the
    strings of script, style, template and ruby elements, are no part of
    it. *)
Definition get_text_strip (n : node) : text :=
  let interesting :=
    match n with
    | Tag nm _ => interesting_string_types nm
    | Str _ _ => interesting_string_types EmptyString
    end in
  concat
    (filter truthy
       (map (fun ks => strip (snd ks))
          (filter (fun ks => interesting (fst ks)) (strings n)))).

(** [for tag in soup(names): tag.decompose()] *)
Fixpoint decompose (names : list string) (n : node) : node :=
  match n with
  | Str k s => Str k s
  | Tag nm ch =>
      Tag nm (flat_map (fun c =>
        match c with
        | Str k s => [Str k s]
        | Tag cn _ => if named names cn then [] else [decompose names c]
        end) ch)
  end.

End Dom.

(* ===================================================================== *)
(** * Data_Extraction.py *)
(* ===================================================================== *)

Module DataExtraction.
Import Py Re Dom.
Local Open Scope re_scope.

(** ** Helper functions *)

(** [u.split("#")[0].rstrip("/")] *)
Definition clean_url (url : text) : text :=
  rstrip_char (ch "/") (hd [] (split_on (ch "#") url)).

(** ** Heading levels *)

(** [int(c)] for one character: the value of a decimal digit; every
    range of [digit_ranges] starts at a zero and counts up by tens. *)
Definition digit_value (c : char) : option nat :=
  match List.find (fun r => between (fst r) (snd r) c) digit_ranges with
  | Some r => Some (N.to_nat ((c - fst r) mod 10))
  | None => None
  end.

(** [heading_level]: the name may be [None].  Indexing a one-character
    name raises [IndexError] and [int] raises [ValueError] on a digit that
    is not decimal; both are caught and give 7.  Every decimal digit
    passes [isdigit]. *)
Definition heading_level (tag_name : option text) : nat :=
  match tag_name with
  | None => 7
  | Some tag_name =>
      if truthy tag_name && startswith (u "h") (lower tag_name)
      then
        match nth_error tag_name 1 with
        | None => 7
        | Some c =>
            match digit_value c with
            | Some d => d
            | None => 7
            end
        end
      else 7
  end.

Definition HEADING_TAGS : list text :=
  [u "h1"; u "h2"; u "h3"; u "h4"; u "h5"; u "h6"].

(** ** Exceptions *)

(** What a call into a collaborator can do: return, or raise. *)
Inductive outcome (A : Type) : Type :=
| Ok : A -> outcome A
| Raise : text -> outcome A.
Arguments Raise {A} _.

Definition bind {A B} (x : outcome A) (f : A -> outcome B) : outcome B :=
  match x with Ok a => f a | Raise e => Raise e end.
Notation "'let*' x ':=' c 'in' k" := (bind c (fun x => k))
  (at level 10, x name, c at level 100, k at level 200).

(** [try: body except Exception as e: handler(str(e))] *)
Definition try_except {A} (body : outcome A) (handler : text -> A) : A :=
  match body with Ok a => a | Raise e => handler e end.

(** ** [urllib.parse.urlparse]

    The library's algorithm ([urlsplit], then the parameters of the last
    path segment), with the [ValueError] it raises on a malformed host.
    Two parts of its validation are the library's own and are given: the
    check of a host in brackets, which tells the message of the error it
    raises, if any (before Python 3.11.4 there is no such check), and the
    normal form NFKC of [unicodedata]. *)

Record url_library : Type := UrlLibrary {
  check_bracketed_netloc : text -> option text;
  normalize_NFKC : text -> text
}.

Record parse_result : Type := ParseResult {
  scheme : text;
  netloc : text;
  path : text;
  params : text;
  query : text;
  fragment : text
}.

Fixpoint take_until (p : char -> bool) (s : text) : text :=
  match s with
  | [] => []
  | c :: s' => if p c then [] else c :: take_until p s'
  end.

(** [s.partition(c)]: the text before the first [c], and the text after it
    when there is one. *)
Definition partition (c : char) (s : text) : text * option text :=
  let isc := fun x => (x =? c)%N in
  (take_until isc s,
   match drop_while (fun x => negb (isc x)) s with
   | [] => None
   | _ :: after => Some after
   end).

Definition scheme_char (c : char) : bool :=
  is_lower_az c || is_upper_AZ c || between 48 57 c
  || (c =? ch "+")%N || (c =? ch "-")%N || (c =? ch ".")%N.

Definition uses_params : list text :=
  [ []; u "ftp"; u "hdl"; u "prospero"; u "http"; u "imap"; u "https";
    u "shttp"; u "rtsp"; u "rtspu"; u "sip"; u "sips"; u "mms"; u "sftp";
    u "tel" ].

Definition split_scheme (url : text) : text * text :=
  match partition (ch ":") url with
  | (c :: head, Some after) =>
      if (is_lower_az c || is_upper_AZ c) && forallb scheme_char (c :: head)
      then (lower (c :: head), after)
      else ([], url)
  | _ => ([], url)
  end.

Definition split_netloc (url : text) : text * text :=
  let delim := fun c =>
    ((c =? ch "/") || (c =? ch "?") || (c =? ch "#"))%N in
  if startswith (u "//") url
  then (take_until delim (skipn 2 url),
        drop_while (fun c => negb (delim c)) (skipn 2 url))
  else ([], url).

Definition or_empty (o : option text) : text :=
  match o with Some t => t | None => [] end.

(** [_splitparams]: the parameters follow the first [;] of the last path
    segment. *)
Definition split_params (url : text) : text * text :=
  let last_segment := rev (take_until (fun c => (c =? ch "/")%N) (rev url)) in
  let before := firstn (length url - length last_segment) url in
  if contains (u "/") url
  then (* the search starts at the last slash, which is not a semicolon *)
    match partition (ch ";") last_segment with
    | (seg, Some ps) => (before ++ seg, ps)
    | (_, None) => (url, [])
    end
  else
    match partition (ch ";") url with
    | (seg, ps) => (seg, or_empty ps)
    end.

Definition isascii (s : text) : bool := forallb (fun c => (c <? 128)%N) s.

(** [_checknetloc]: whether it raises. *)
Definition checknetloc_raises (lib : url_library) (netloc : text) : bool :=
  if negb (truthy netloc) || isascii netloc then false
  else
    let n :=
      filter (fun c => negb ((c =? ch "@") || (c =? ch ":")
                             || (c =? ch "#") || (c =? ch "?"))%N) netloc in
    let netloc2 := normalize_NFKC lib n in
    if eqb n netloc2 then false
    else existsb (fun c => existsb (N.eqb c) netloc2) (u "/?#@:").

Definition urlparse (lib : url_library) (url : text) : outcome parse_result :=
  let url := drop_while (fun c => (c <=? 32)%N) url in
  let url := filter (fun c => negb ((c =? 9) || (c =? 13) || (c =? 10))%N) url in
  let (scheme, url) := split_scheme url in
  let (netloc, url) := split_netloc url in
  let opened := contains (u "[") netloc in
  let closed := contains (u "]") netloc in
  if (opened && negb closed) || (closed && negb opened)
  then Raise (u "Invalid IPv6 URL")
  else
    match
      (if opened && closed then check_bracketed_netloc lib netloc else None)
    with
    | Some message => Raise message
    | None =>
        let (url, fragment) := partition (ch "#") url in
        let (url, query) := partition (ch "?") url in
        if checknetloc_raises lib netloc
        then Raise (u "netloc '" ++ netloc
                    ++ u "' contains invalid characters under NFKC normalization")
        else
          let (url, params) :=
            if existsb (eqb scheme) uses_params && contains (u ";") url
            then split_params url else (url, []) in
          Ok (ParseResult scheme netloc url params
                (or_empty query) (or_empty fragment))
    end.

(** ** Link filter *)

Definition REJECT_PATTERNS : list text :=
  [ u "/forums"; u "/home"; u "/about"; u "/contact"; u "/subscribe";
    u "facebook.com"; u "twitter.com"; u "linkedin.com"; u "youtube.com" ].

Definition is_valid_content_link (lib : url_library) (url base_url : text)
  : outcome bool :=
  if negb (truthy url) || eqb url base_url then Ok false
  else if existsb (fun pattern => contains pattern (lower url)) REJECT_PATTERNS
  then Ok false
  else
    let* parsed := urlparse lib url in
    if existsb (fun domain => contains domain (netloc parsed))
         [u "journals.lww.com"; u "doi.org"; u "pubmed"]
    then Ok true
    else if endswith (u ".pdf") url || contains (u "/sites/default/files/") url
    then Ok true
    else if contains (u "aasld.org") (netloc parsed)
            && contains (u "/practice-guidelines/") url
    then
      let* base := urlparse lib base_url in
      let base_path := rstrip_char (ch "/") (path base) in
      let url_path := rstrip_char (ch "/") (path parsed) in
      if negb (eqb url_path base_path) && startswith base_path url_path
      then Ok true else Ok false
    else Ok false.

(** ** PDF processing *)

(** (?<=[.!?])\s+(?=[A-Z]) *)
Definition re_sentence_break : regex :=
  Behind CleanData.is_stop ;; plus is_space ;; Ahead (Chr is_upper_AZ).

(** The loop of [parse_pdf_into_paragraphs]: its state is the list of
    paragraphs and the sentences of the current one. *)
Definition add_sentence (st : list text * list text) (sentence : text)
  : list text * list text :=
  let (paragraphs, current_para) := st in
  let sentence := strip sentence in
  if 20 <? length sentence
  then
    let current_para := current_para ++ [sentence] in
    if 3 <=? length current_para
    then (paragraphs ++ [join (u " ") current_para], [])
    else (paragraphs, current_para)
  else (paragraphs, current_para).

Definition parse_pdf_into_paragraphs (full_text : text) : list text :=
  let t := sub CleanData.re_spaces (rlit (u " ")) full_text in
  let sentences := split re_sentence_break t in
  let (paragraphs, current_para) := fold_left add_sentence sentences ([], []) in
  match current_para with
  | [] => paragraphs
  | _ => paragraphs ++ [join (u " ") current_para]
  end.

(** Values and dictionaries, as far as the PDF records use them. *)
Inductive pyval : Type :=
| VStr : text -> pyval
| VInt : nat -> pyval
| VList : list text -> pyval.

Definition pydict := list (string * pyval).

Fixpoint get (d : pydict) (key : string) : option pyval :=
  match d with
  | [] => None
  | (k, v) :: d' => if String.eqb k key then Some v else get d' key
  end.

Definition has_key (d : pydict) (key : string) : bool :=
  match get d key with Some _ => true | None => false end.

(** [d[key]]: raises [KeyError] on a missing key. *)
Definition item (d : pydict) (key : string) : outcome pyval :=
  match get d key with
  | Some v => Ok v
  | None => Raise (u key)
  end.

(** [d.get(key, default)] *)
Definition get_default (d : pydict) (key : string) (default : pyval) : pyval :=
  match get d key with Some v => v | None => default end.

Definition val_truthy (v : pyval) : bool :=
  match v with
  | VStr t => truthy t
  | VInt n => negb (Nat.eqb n 0)
  | VList l => match l with [] => false | _ => true end
  end.

(** The PDF collaborator: whether the library could be imported, and, for
    a path, what opening and reading the file gives, an exception or the
    pages, each of which raises or returns its text when asked for it. *)
Record pdf_library : Type := PdfLibrary {
  PDF_SUPPORT : bool;
  PdfReader : text -> outcome (list (outcome text))
}.

Definition extract_text_from_pdf (lib : pdf_library) (pdf_path : text) : pydict :=
  if negb (PDF_SUPPORT lib)
  then [ ("full_text", VStr []); ("page_count", VInt 0);
         ("error", VStr (u "PyPDF2 not installed")) ]%string
  else
    try_except
      (let* pages := PdfReader lib pdf_path in
       let page_count := length pages in
       let text_pages :=
         flat_map (fun page =>
           match page with
           | Ok t => if truthy t then [t] else []
           | Raise _ => []
           end) pages in
       let full_text := join [10; 10]%N text_pages in
       let full_text_clean := sub CleanData.re_spaces (rlit (u " ")) full_text in
       let paragraphs := parse_pdf_into_paragraphs full_text_clean in
       Ok [ ("full_text", VStr full_text_clean);
            ("page_count", VInt page_count);
            ("word_count", VInt (length (split_ws full_text_clean)));
            ("char_count", VInt (length full_text_clean));
            ("paragraphs", VList paragraphs);
            ("paragraph_count", VInt (length paragraphs)) ]%string)
      (fun e =>
         [ ("full_text", VStr []); ("page_count", VInt 0);
           ("error", VStr e) ]%string).

(** [s.replace(old, new)] for a non-empty [old]; [skip] counts the
    characters of a replaced occurrence still to pass over. *)
Fixpoint replace_from (old new : text) (skip : nat) (s : text) : text :=
  match s with
  | [] => []
  | c :: s' =>
      match skip with
      | S k => replace_from old new k s'
      | 0 =>
          if startswith old s
          then new ++ replace_from old new (length old - 1) s'
          else c :: replace_from old new 0 s'
      end
  end.
Definition replace (old new s : text) : text := replace_from old new 0 s.

(** [process_pdf]; [download_pdf] is the HTTP collaborator, which gives
    the path of the saved file or nothing. *)
Definition process_pdf (lib : pdf_library) (download_pdf : text -> option text)
    (url : text) : outcome (option pydict) :=
  match download_pdf url with
  | None => Ok None
  | Some pdf_path =>
      let extracted_data := extract_text_from_pdf lib pdf_path in
      let* full_text := item extracted_data "full_text" in
      if negb (val_truthy full_text) then Ok None
      else
        let title :=
          replace (u "-") (u " ")
            (replace (u "_") (u " ")
               (replace (u ".pdf") [] (last (split_on (ch "/") url) []))) in
        let* char_count := item extracted_data "char_count" in
        let* word_count := item extracted_data "word_count" in
        let* page_count := item extracted_data "page_count" in
        Ok (Some
          [ ("title", VStr title);
            ("full_text", full_text);
            ("full_text_length", char_count);
            ("word_count", word_count);
            ("page_count", page_count);
            ("paragraphs", get_default extracted_data "paragraphs" (VList []));
            ("paragraph_count", get_default extracted_data "paragraph_count" (VInt 0));
            ("pdf_path", VStr pdf_path) ]%string)
  end.

(** ** HTML data extraction *)

Record table : Type := Table {
  table_index : nat;
  headers : list text;
  rows : list (list text);
  row_count : nat;
  column_count : nat
}.

Fixpoint cells_eqb (a b : list text) : bool :=
  match a, b with
  | [], [] => true
  | x :: a', y :: b' => eqb x y && cells_eqb a' b'
  | _, _ => false
  end.

Definition nonempty {A} (l : list A) : bool :=
  match l with [] => false | _ => true end.

(** [[c.get_text(strip=True) for c in tr.find_all(['td', 'th'])]] *)
Definition cells_of (tr : node) : list text :=
  map get_text_strip (find_all ["td"; "th"]%string tr).

(** The header cells: those of the first row of [thead] that has any. *)
Definition header_cells_of (thead : node) : list text :=
  hd [] (filter nonempty (map cells_of (find_all ["tr"]%string thead))).

Definition table_of (table_idx : nat) (tbl : node) : list table :=
  let headers :=
    match find "thead" tbl with
    | Some thead => header_cells_of thead
    | None => []
    end in
  let table_body :=
    match find "tbody" tbl with Some tbody => tbody | None => tbl end in
  let rows :=
    filter (fun cells => nonempty cells && negb (cells_eqb cells headers))
      (map cells_of (find_all ["tr"]%string table_body)) in
  if nonempty rows || nonempty headers
  then [ Table (table_idx + 1) headers rows (length rows)
           (if nonempty headers then length headers
            else match rows with r :: _ => length r | [] => 0 end) ]
  else [].

Definition enumerate {A} (l : list A) : list (nat * A) :=
  combine (seq 0 (length l)) l.

Definition extract_all_tables (soup : node) : list table :=
  flat_map (fun it => table_of (fst it) (snd it))
    (enumerate (find_all ["table"]%string soup)).

Record section : Type := Section {
  heading : text;
  level : nat;
  content : list text
}.

(** [int(element.name[1])] *)
Definition int_of_name_digit (nm : string) : nat :=
  match nm with
  | String _ (String d _) => nat_of_ascii d - 48
  | _ => 0
  end.

(** One turn of the loop over the block elements; the state is the list
    of closed sections and the open one. *)
Definition visit (st : list section * option section)
    (element : list string * node) : list section * option section :=
  let (sections, current_section) := st in
  if has_parent ["script"; "style"]%string (fst element) then st
  else
    let t := get_text_strip (snd element) in
    if negb (truthy t) || (length t <? 5) then st
    else if named ["h1"; "h2"; "h3"]%string (name (snd element))
    then
      (match current_section with
       | Some c => sections ++ [c]
       | None => sections
       end,
       Some (Section t (int_of_name_digit (name (snd element))) []))
    else
      match current_section with
      | Some c => (sections, Some (Section (heading c) (level c) (content c ++ [t])))
      | None => st
      end.

Definition sections_of (elements : list (list string * node)) : list section :=
  let (sections, current_section) := fold_left visit elements ([], None) in
  match current_section with
  | Some c => sections ++ [c]
  | None => sections
  end.

Definition BLOCK_TAGS : list string :=
  ["h1"; "h2"; "h3"; "h4"; "h5"; "h6"; "p"; "div"; "section"]%string.

(** The block elements the section loop walks: those of the document
    once its script, style and noscript subtrees are removed. *)
Definition block_elements (soup : node) : list (list string * node) :=
  find_all_anc BLOCK_TAGS
    (decompose ["script"; "style"; "noscript"]%string soup).

(** The record [extract_all_text_with_structure] returns, without its
    title and links (they read attributes, which [Dom.node] leaves out).
    [soup] is the parsed markup; the tables are read from a second,
    untouched parse of it. *)
Record html_content : Type := HtmlContent {
  full_text : text;
  full_text_length : nat;
  paragraph_count : nat;
  sections : list section;
  section_count : nat;
  tables : list table;
  table_count : nat;
  word_count : nat;
  char_count : nat
}.

Definition extract_all_text_with_structure (soup : node) : html_content :=
  let pruned := decompose ["script"; "style"; "noscript"]%string soup in
  let sections := sections_of (block_elements soup) in
  let all_paragraphs :=
    filter (fun t => truthy t && (10 <? length t))
      (map get_text_strip (find_all ["p"; "li"; "div"]%string pruned)) in
  let tables := extract_all_tables soup in
  let full_text := join [10; 10]%N all_paragraphs in
  HtmlContent full_text (length full_text) (length all_paragraphs)
    sections (length sections) tables (length tables)
    (length (split_ws full_text)) (length full_text).

(** ** Helper functions: the challenge test *)

Definition is_cloudflare_challenge (html : text) : bool :=
  contains (u "Just a moment") html
  || contains (u "Verify you are human") html
  || contains (u "Checking your browser") html.

(** ** Fetch functions

    The browser and the web server are collaborators.  What they answer
    may depend on everything that happened before, so each answer is a
    function of the number of events so far.  The state of the program is
    the global [DRIVER] (set or not) and the log of the events, sleeps
    included, in the order they happen.  Durations are in milliseconds. *)

Inductive event : Type :=
| Sleep (ms : N)              (* time.sleep *)
| CreateDriver                (* webdriver.Chrome(...) and its set-up *)
| QuitDriver                  (* DRIVER.quit() *)
| DriverGet (url : text)      (* driver.get(url) *)
| PageSource                  (* driver.page_source *)
| WaitForBody                 (* WebDriverWait(driver, 15).until(...) *)
| SessionGet (url : text).    (* session.get(url, ...) *)

Record world : Type := World {
  driver_starts : nat -> bool;                  (* or the set-up raises *)
  driver_loads : nat -> text -> bool;           (* or driver.get raises *)
  driver_shows : nat -> outcome text;           (* page_source *)
  server_answers : nat -> text -> outcome (nat * text)   (* status, body *)
}.

Record state : Type := State {
  DRIVER : bool;
  log : list event
}.

Definition io (A : Type) : Type := state -> outcome A * state.

Definition ret {A} (a : A) : io A := fun s => (Ok a, s).

Definition io_bind {A B} (m : io A) (f : A -> io B) : io B :=
  fun s =>
    match m s with
    | (Ok a, s') => f a s'
    | (Raise e, s') => (Raise e, s')
    end.

(** [try: body except Exception: handler] *)
Definition io_try {A} (body : io A) (handler : text -> io A) : io A :=
  fun s =>
    match body s with
    | (Ok a, s') => (Ok a, s')
    | (Raise e, s') => handler e s'
    end.

Notation "'let!' x ':=' m 'in' k" := (io_bind m (fun x => k))
  (at level 10, x name, m at level 100, k at level 200).

Definition emit (e : event) : io unit :=
  fun s => (Ok tt, State (DRIVER s) (log s ++ [e])).

Definition set_driver (b : bool) : io unit :=
  fun s => (Ok tt, State b (log s)).

Definition sleep (ms : N) : io unit := emit (Sleep ms).

Definition RATE_LIMIT_REQUESTS : N := 1500%N.
Definition RATE_LIMIT_SELENIUM : N := 5000%N.
Definition CLOUDFLARE_WAIT : N := 15000%N.

Section Fetch.

Variable w : world.

Definition init_selenium_driver : io unit :=
  fun s =>
    if DRIVER s then (Ok tt, s)
    else
      let now := length (log s) in
      if driver_starts w now
      then (Ok tt, State true (log s ++ [CreateDriver]))
      else (Raise (u "driver"), State false (log s ++ [CreateDriver])).

(** [DRIVER.quit()] may raise; the exception is passed over. *)
Definition close_selenium_driver : io unit :=
  fun s =>
    if DRIVER s then (Ok tt, State false (log s ++ [QuitDriver]))
    else (Ok tt, s).

Definition reset_selenium_driver : io unit :=
  let! _ := close_selenium_driver in
  let! _ := sleep 2000%N in
  init_selenium_driver.

Definition driver_get (url : text) : io unit :=
  fun s =>
    let s' := State (DRIVER s) (log s ++ [DriverGet url]) in
    if driver_loads w (length (log s)) url then (Ok tt, s')
    else (Raise (u "get"), s').

Definition page_source : io text :=
  fun s => (driver_shows w (length (log s)), State (DRIVER s) (log s ++ [PageSource])).

(** The wait for the body element may raise; the exception is passed
    over. *)
Definition wait_for_body : io unit := emit WaitForBody.

Definition session_get (url : text) : io (nat * text) :=
  fun s =>
    (server_answers w (length (log s)) url,
     State (DRIVER s) (log s ++ [SessionGet url])).

(** The body of [fetch_with_selenium]; [again] is the call of itself. *)
Definition selenium_attempt (url : text) (retry_count : nat)
    (again : io (option text)) : io (option text) :=
  let finish : io (option text) :=
    let! _ := wait_for_body in
    let! html := page_source in
    if is_cloudflare_challenge html then ret None else ret (Some html) in
  io_try
    (let! _ := init_selenium_driver in
     let! _ := sleep RATE_LIMIT_SELENIUM in
     let! _ := driver_get url in
     let! _ := sleep 3000%N in
     let! first := page_source in
     if is_cloudflare_challenge first
     then
       let! _ := sleep CLOUDFLARE_WAIT in
       let! second := page_source in
       if is_cloudflare_challenge second
       then
         if retry_count <? 1
         then let! _ := sleep 10000%N in again
         else ret None
       else finish
     else finish)
    (fun _ => let! _ := reset_selenium_driver in ret None).

(** [fetch_with_selenium] calls itself when [retry_count < 1], with
    [retry_count + 1]: the depth of the calls is [1 - retry_count]. *)
Fixpoint fetch_with_selenium_depth (depth : nat) (url : text) (retry_count : nat)
  : io (option text) :=
  selenium_attempt url retry_count
    (match depth with
     | S d => fetch_with_selenium_depth d url (retry_count + 1)
     | 0 => ret None
     end).

Definition fetch_with_selenium (url : text) (retry_count : nat) : io (option text) :=
  fetch_with_selenium_depth (1 - retry_count) url retry_count.

Definition fetch_with_requests (url : text) : io (option text) :=
  io_try
    (let! _ := sleep RATE_LIMIT_REQUESTS in
     let! resp := session_get url in
     ret (if Nat.eqb (fst resp) 200 then Some (snd resp) else None))
    (fun _ => ret None).

Definition fetch (url : text) (force_selenium : bool) : io (option text) :=
  if contains (u "journals.lww.com") url || force_selenium
  then fetch_with_selenium url 0
  else
    let! html := fetch_with_requests url in
    match html with
    | Some h =>
        if truthy h && negb (is_cloudflare_challenge h) then ret (Some h)
        else fetch_with_selenium url 0
    | None => fetch_with_selenium url 0
    end.

End Fetch.

(** ** The records written to disk

    [save_pdf_data] and [save_complete_data] build a [json_record] and
    write it with [json.dumps]; the record is what is modelled here, as
    the value that [json.load] gives back from the file. *)

Definition json_of_nat (n : nat) : CleanData.json :=
  CleanData.JInt (BinInt.Z.of_nat n).

Definition json_of_texts (l : list text) : CleanData.json :=
  CleanData.JList (map CleanData.JStr l).

Definition json_of_pyval (v : pyval) : CleanData.json :=
  match v with
  | VStr t => CleanData.JStr t
  | VInt n => json_of_nat n
  | VList l => json_of_texts l
  end.

(** The [json_record] of [save_pdf_data]: [extracted_data] is what
    [process_pdf] returned, [crawled_at] the time of the call. *)
Definition pdf_record (url crawled_at : text) (extracted_data : pydict)
  : outcome CleanData.json :=
  let* title := item extracted_data "title" in
  let* full_text := item extracted_data "full_text" in
  let* full_text_length := item extracted_data "full_text_length" in
  let* word_count := item extracted_data "word_count" in
  let* page_count := item extracted_data "page_count" in
  let* paragraph_count := item extracted_data "paragraph_count" in
  let* paragraphs := item extracted_data "paragraphs" in
  let* pdf_path := item extracted_data "pdf_path" in
  Ok (CleanData.JDict
        [ (u "page_url", CleanData.JStr url);
          (u "page_title", json_of_pyval title);
          (u "content_type", CleanData.JStr (u "pdf"));
          (u "crawled_at", CleanData.JStr crawled_at);
          (u "content",
           CleanData.JDict
             [ (u "full_text", json_of_pyval full_text);
               (u "full_text_length", json_of_pyval full_text_length);
               (u "word_count", json_of_pyval word_count);
               (u "page_count", json_of_pyval page_count);
               (u "paragraph_count", json_of_pyval paragraph_count);
               (u "paragraphs", json_of_pyval paragraphs);
               (u "pdf_path", json_of_pyval pdf_path) ]);
          (u "accessible", CleanData.JBool true) ]).

Definition json_of_section (s : section) : CleanData.json :=
  CleanData.JDict
    [ (u "heading", CleanData.JStr (heading s));
      (u "level", json_of_nat (level s));
      (u "content", json_of_texts (content s)) ].

Definition json_of_table (t : table) : CleanData.json :=
  CleanData.JDict
    [ (u "table_index", json_of_nat (table_index t));
      (u "headers", json_of_texts (headers t));
      (u "rows", CleanData.JList (map json_of_texts (rows t)));
      (u "row_count", json_of_nat (row_count t));
      (u "column_count", json_of_nat (column_count t)) ].

(** The [json_record] of [save_complete_data].  The title (a string, or
    [None] when the title element has no single string) and the links of
    the page are read from attributes, which [Dom.node] leaves out: they
    are given. *)
Definition complete_record (url crawled_at : text) (title : option text)
    (links : CleanData.json) (extracted_data : html_content)
  : CleanData.json :=
  CleanData.JDict
    [ (u "page_url", CleanData.JStr url);
      (u "page_title",
       match title with
       | Some t => CleanData.JStr t
       | None => CleanData.JNull
       end);
      (u "content_type", CleanData.JStr (u "html"));
      (u "crawled_at", CleanData.JStr crawled_at);
      (u "content",
       CleanData.JDict
         [ (u "full_text", CleanData.JStr (full_text extracted_data));
           (u "full_text_length",
            json_of_nat (full_text_length extracted_data));
           (u "paragraph_count",
            json_of_nat (paragraph_count extracted_data));
           (u "word_count", json_of_nat (word_count extracted_data));
           (u "section_count", json_of_nat (section_count extracted_data));
           (u "table_count", json_of_nat (table_count extracted_data));
           (u "sections",
            CleanData.JList
              (map json_of_section (sections extracted_data)));
           (u "tables",
            CleanData.JList (map json_of_table (tables extracted_data)));
           (u "links", links) ]);
      (u "accessible", CleanData.JBool true) ].

(** ** Target headings *)

(** [re.sub(r"\s+", " ", s).strip().lower()] *)
Definition normalize_text (s : text) : text :=
  lower (strip (sub CleanData.re_spaces (rlit (u " ")) s)).

Definition match_target_heading (txt : text) : bool :=
  let t := normalize_text txt in
  (contains (u "practice") t && contains (u "guid") t)
  || (contains (u "supplement") t && contains (u "material") t).

End DataExtraction.

(* ===================================================================== *)
(** * Vocabulary of the properties *)
(* ===================================================================== *)

Import Py Re Dom.

(** [pat] occurs in [s]. *)
Definition occurs (pat s : text) : Prop := exists a b, s = a ++ pat ++ b.

(** The ['type'] of a clinical value. *)
Definition is_dosage (v : CleanData.clinical_value) : bool :=
  match v with CleanData.Dosage _ _ _ => true | _ => false end.
Definition is_threshold (v : CleanData.clinical_value) : bool :=
  match v with CleanData.Threshold _ _ _ _ => true | _ => false end.

(** The sample texts of the specification. *)
Definition sample_recommendations : text :=
  u "Recommendation 1: Use drug X (Strong recommendation, moderate certainty). Recommendation 2: ...".
Definition sample_dosage : text := u "administer 400 mg orally".
Definition sample_threshold : text := u "ALT " ++ [CleanData.GE] ++ u " 1,000 U/L".

(** Sample documents: a page whose first heading follows some text, and a
    page with three tables. *)
Definition sample_page : node :=
  Tag "[document]"
    [ Tag "div"
        [ Str NavigableString (u "intro text here");
          Tag "h1" [Str NavigableString (u " Title here ")];
          Tag "p" [Str NavigableString (u "body text")];
          Tag "script" [Tag "p" [Str Script (u "hidden text")]];
          Tag "h4" [Str NavigableString (u "minor heading")];
          Tag "h2" [Str NavigableString (u "Hi")];
          Tag "p" [Str NavigableString (u "after short")] ] ].

Definition sample_tables : node :=
  Tag "[document]"
    [ Tag "table"
        [ Tag "thead" [Tag "tr" [Tag "th" [Str NavigableString (u "A")]; Tag "th" [Str NavigableString (u "B")]]];
          Tag "tbody"
            [ Tag "tr" [Tag "td" [Str NavigableString (u "A")]; Tag "td" [Str NavigableString (u "B")]];
              Tag "tr" [Tag "td" [Str NavigableString (u "1")]; Tag "td" [Str NavigableString (u "2")]] ] ];
      Tag "table" [];
      Tag "table" [Tag "tr" [Tag "td" [Str NavigableString (u "x")]]] ].

(** A heading that can open a section. *)
Definition is_section_heading (element : list string * node) : bool :=
  named ["h1"; "h2"; "h3"]%string (name (snd element)).

Definition level_ok (s : DataExtraction.section) : Prop :=
  1 <= DataExtraction.level s <= 3.

(** What the section loop keeps true: levels between 1 and 3, and content
    drawn from the elements walked so far. *)
Definition visit_ok (seen : list (list string * node))
    (st : list DataExtraction.section * option DataExtraction.section) : Prop :=
  forall s, (In s (fst st) \/ snd st = Some s) ->
    level_ok s
    /\ forall c, In c (DataExtraction.content s) ->
         exists e, In e seen /\ is_section_heading e = false
                   /\ c = get_text_strip (snd e).

(** A text of seven sentences, each longer than 20 characters. *)
Definition sample_seven_sentences : text :=
  u "The first sentence is long enough.  The second sentence is long enough. The third sentence is long enough. The fourth sentence is long enough. The fifth sentence is long enough. The sixth sentence is long enough. The seventh sentence is long enough.".

(** The sentences [parse_pdf_into_paragraphs] keeps: those longer than 20
    characters once stripped. *)
Definition qualifying_sentences (full_text : text) : list text :=
  filter (fun s => 20 <? length s)
    (map strip
       (split DataExtraction.re_sentence_break
          (sub CleanData.re_spaces (rlit (u " ")) full_text))).

(** Appending a kept sentence to the state of the paragraph loop. *)
Definition keep_sentence (st : list text * list text) (sentence : text)
  : list text * list text :=
  let (paragraphs, current_para) := st in
  if 3 <=? length (current_para ++ [sentence])
  then (paragraphs ++ [join (u " ") (current_para ++ [sentence])], [])
  else (paragraphs, current_para ++ [sentence]).

(** A page that gives no text: reading it raises, or returns nothing. *)
Definition unusable (page : DataExtraction.outcome text) : Prop :=
  match page with
  | DataExtraction.Ok t => t = []
  | DataExtraction.Raise _ => True
  end.

(** No text can be extracted: the library is missing, the file cannot be
    opened or parsed, or no page gives text. *)
Definition no_text (lib : DataExtraction.pdf_library) (pdf_path : text) : Prop :=
  DataExtraction.PDF_SUPPORT lib = false
  \/ (exists e, DataExtraction.PdfReader lib pdf_path = DataExtraction.Raise e)
  \/ (exists pages, DataExtraction.PdfReader lib pdf_path = DataExtraction.Ok pages
                     /\ Forall unusable pages).

(** A library that opens every file as one page without text. *)
Definition blank_page_library : DataExtraction.pdf_library :=
  DataExtraction.PdfLibrary true (fun _ => DataExtraction.Ok [DataExtraction.Ok []]).

(** A category page and a link whose path continues the page's last
    segment instead of descending from it. *)
Definition sample_base_url : text :=
  u "https://www.aasld.org/practice-guidelines/hep".
Definition sample_sibling_url : text :=
  u "https://www.aasld.org/practice-guidelines/hepatitis-b".

(** A library without a check of hosts in brackets, as before Python
    3.11.4, that normalisation leaves every host it is asked about as it
    is.  The sample links have ASCII hosts without brackets, for which the
    library is not consulted. *)
Definition plain_url_library : DataExtraction.url_library :=
  DataExtraction.UrlLibrary (fun _ => None) (fun t => t).

(** The three conditions under which [is_valid_content_link] keeps a link
    that is not rejected; [parsed] and [base] are what [urlparse] returns
    for the link and for the page. *)
Definition journal_host (parsed : DataExtraction.parse_result) : Prop :=
  exists domain,
    In domain [u "journals.lww.com"; u "doi.org"; u "pubmed"]
    /\ occurs domain (DataExtraction.netloc parsed).

Definition pdf_or_file_storage (url : text) : Prop :=
  (exists front, url = front ++ u ".pdf")
  \/ occurs (u "/sites/default/files/") url.

Definition below_page (url : text)
    (parsed base : DataExtraction.parse_result) : Prop :=
  occurs (u "aasld.org") (DataExtraction.netloc parsed)
  /\ occurs (u "/practice-guidelines/") url
  /\ let base_path := rstrip_char (ch "/") (DataExtraction.path base) in
     let url_path := rstrip_char (ch "/") (DataExtraction.path parsed) in
     url_path <> base_path /\ exists more, url_path = base_path ++ more.

(** [urlparse] raises on a URL. *)
Definition malformed (lib : DataExtraction.url_library) (url : text) : Prop :=
  exists message, DataExtraction.urlparse lib url = DataExtraction.Raise message.

(** *** The text cleaner, step by step

    What each substitution of [clean_text] does to a text, as a function
    on the text alone; the properties section proves each equal to the
    substitution it describes. *)

Definition blank : char := 32%N.

(** Length of the run of [p] a text starts with, and the character before
    the position at its end. *)
Fixpoint run_len (p : char -> bool) (s : text) : nat :=
  match s with
  | c :: s' => if p c then S (run_len p s') else 0
  | [] => 0
  end.

Fixpoint run_prev (p : char -> bool) (pv : option char) (s : text) : option char :=
  match s with
  | c :: s' => if p c then run_prev p (Some c) s' else pv
  | [] => pv
  end.

(** Every run of [p] becomes one blank; [inside] tells that the position
    is inside a run. *)
Fixpoint collapse (p : char -> bool) (inside : bool) (s : text) : text :=
  match s with
  | [] => []
  | c :: s' =>
      if p c
      then if inside then collapse p true s' else blank :: collapse p true s'
      else c :: collapse p false s'
  end.

(** A blank goes between a character of [p] and a following one of [q]. *)
Fixpoint space_between (p q : char -> bool) (s : text) : text :=
  match s with
  | [] => []
  | a :: s' =>
      match s' with
      | b :: _ =>
          if p a && q b then a :: blank :: space_between p q s'
          else a :: space_between p q s'
      | [] => [a]
      end
  end.

(** Runs of [c] longer than three are cut to three; [k] counts the [c]s
    just before the position. *)
Fixpoint squeeze (c : char) (k : nat) (s : text) : text :=
  match s with
  | [] => []
  | x :: s' =>
      if (x =? c)%N
      then if k <? 3 then x :: squeeze c (S k) s' else squeeze c (S k) s'
      else x :: squeeze c 0 s'
  end.

(** The text before the first occurrence of [pat]. *)
Fixpoint cut_at (pat : text) (s : text) : text :=
  match s with
  | [] => []
  | c :: s' => if startswith pat s then [] else c :: cut_at pat s'
  end.

(** The substitutions after the navigation patterns, and the final strip. *)
Definition finish (t : text) : text :=
  let t := collapse is_space false t in
  let t := collapse (either (Re.just " ") (fun c => (c =? CleanData.tab)%N)) false t in
  let t := space_between is_lower_az is_upper_AZ t in
  let t := space_between CleanData.is_stop is_upper_AZ t in
  let t := squeeze (ch ".") 0 t in
  let t := squeeze (ch "-") 0 t in
  let t := cut_at (u "Copyright") t in
  strip t.

(** *** The shape of a cleaned text *)

(** No two neighbours [a], [b] with [bad a b]; [pv] is the character
    before the text. *)
Fixpoint adj_ok (bad : char -> char -> bool) (pv : option char) (s : text) : bool :=
  match s with
  | [] => true
  | c :: s' =>
      match pv with Some x => negb (bad x c) | None => true end
      && adj_ok bad (Some c) s'
  end.

(** No run of four [c]; [k] counts the [c]s just before the text. *)
Fixpoint runs_ok (c : char) (k : nat) (s : text) : bool :=
  match s with
  | [] => true
  | x :: s' =>
      if (x =? c)%N then (S k <? 4) && runs_ok c (S k) s' else runs_ok c 0 s'
  end.

(** No occurrence of [pat]. *)
Definition no_occ (pat s : text) : bool := negb (contains pat s).

Definition pair_of (p q : char -> bool) : char -> char -> bool :=
  fun a b => p a && q b.

Record tidy (y : text) : Prop := Tidy {
  tidy_blank : forallb (fun c => negb (is_space c) || (c =? blank)%N) y = true;
  tidy_single : adj_ok (pair_of is_space is_space) None y = true;
  tidy_camel : adj_ok (pair_of is_lower_az is_upper_AZ) None y = true;
  tidy_sentence : adj_ok (pair_of CleanData.is_stop is_upper_AZ) None y = true;
  tidy_dots : runs_ok (ch ".") 0 y = true;
  tidy_dashes : runs_ok (ch "-") 0 y = true;
  tidy_copyright : no_occ (u "Copyright") y = true;
  tidy_ends : strip y = y
}.

(** Some navigation pattern matches somewhere in the text. *)
Definition contains_boilerplate (t : text) : bool :=
  existsb (fun p => match search p t with Some _ => true | None => false end)
    CleanData.NAVIGATION_PATTERNS.

(** [y] is a stretch of [s]. *)
Definition part_of (y s : text) : Prop := exists l r, s = l ++ y ++ r.

(** The class [[ \t]]. *)
Definition is_blank : char -> bool :=
  either (Re.just " ") (fun c => (c =? CleanData.tab)%N).

(** *** The link filter in the specification's words

    What the specification says [is_valid_content_link] decides: the link
    differs from the page, matches no reject pattern, and (a) its host is a
    journal or identifier-resolver host, or (b) its path ends in the PDF
    extension or contains the file-storage segment, or (c) its host is the
    site's and its path is a strict descendant of the page's path, an
    extension of it by whole segments. *)
Definition segments (p : text) : list text :=
  filter truthy (split_on (ch "/") p).

Fixpoint proper_prefix (a b : list text) : bool :=
  match a, b with
  | [], _ :: _ => true
  | x :: a', y :: b' => eqb x y && proper_prefix a' b'
  | _, _ => false
  end.

(** The host and the path of a URL, empty when it does not parse. *)
Definition host_of (lib : DataExtraction.url_library) (url : text) : text :=
  match DataExtraction.urlparse lib url with
  | DataExtraction.Ok parsed => DataExtraction.netloc parsed
  | DataExtraction.Raise _ => []
  end.

Definition path_of (lib : DataExtraction.url_library) (url : text) : text :=
  match DataExtraction.urlparse lib url with
  | DataExtraction.Ok parsed => DataExtraction.path parsed
  | DataExtraction.Raise _ => []
  end.

Definition spec_valid_content_link (lib : DataExtraction.url_library)
    (url base_url : text) : bool :=
  truthy url && negb (eqb url base_url)
  && negb (existsb (fun pattern => contains pattern (lower url)) DataExtraction.REJECT_PATTERNS)
  && (existsb (fun domain => contains domain (host_of lib url))
        [u "journals.lww.com"; u "doi.org"; u "pubmed"]
      || endswith (u ".pdf") (path_of lib url)
      || contains (u "/sites/default/files/") (path_of lib url)
      || (contains (u "aasld.org") (host_of lib url)
          && proper_prefix (segments (path_of lib base_url))
                           (segments (path_of lib url)))).

(** *** Shapes of text, in words *)

(** [a] is directly followed by [b] somewhere in [s]. *)
Definition adjacent (a b : char) (s : text) : Prop :=
  exists l r, s = l ++ a :: b :: r.

(** The sentences of a paragraph: three at a time, the rest at the end. *)
Fixpoint groups_of_three (l : list text) : list (list text) :=
  match l with
  | a :: b :: c :: l' => [a; b; c] :: groups_of_three l'
  | [] => []
  | _ => [l]
  end.

(** A page that gives text. *)
Definition usable (page : DataExtraction.outcome text) : Prop :=
  exists t, page = DataExtraction.Ok t /\ t <> [].

(** *** Block elements, as the section loop sees them *)

Definition element_text (e : list string * node) : text :=
  get_text_strip (snd e).

(** An element the loop does not skip: outside script and style, with at
    least five characters of text. *)
Definition visible (e : list string * node) : bool :=
  negb (has_parent ["script"; "style"]%string (fst e))
  && negb (negb (truthy (element_text e)) || (length (element_text e) <? 5)).

Definition opens_section (e : list string * node) : bool :=
  visible e && is_section_heading e.

Definition section_body (e : list string * node) : bool :=
  visible e && negb (is_section_heading e).

(** The elements from the first that opens a section on. *)
Fixpoint from_first_heading (els : list (list string * node))
  : list (list string * node) :=
  match els with
  | [] => []
  | e :: els' => if opens_section e then els else from_first_heading els'
  end.

(** The sections of a state of the loop, were it to end there. *)
Definition close_sections
    (st : list DataExtraction.section * option DataExtraction.section)
  : list DataExtraction.section :=
  match snd st with
  | Some c => fst st ++ [c]
  | None => fst st
  end.

(** *** What a pattern can match *)

(** The texts a pattern can consume, the conditions of its look-arounds
    and anchors left aside. *)
Inductive den : regex -> text -> Prop :=
| den_eps : den Eps []
| den_chr p c : p c = true -> den (Chr p) [c]
| den_seq a b s t : den a s -> den b t -> den (Seq a b) (s ++ t)
| den_alt_l a b s : den a s -> den (Alt a b) s
| den_alt_r a b s : den b s -> den (Alt a b) s
| den_rep g p lo hi s :
    forallb p s = true -> lo <= length s ->
    (forall h, hi = Some h -> length s <= h) ->
    den (Rep g p lo hi) s
| den_grp n a s : den a s -> den (Grp n a) s
| den_ahead a : den (Ahead a) []
| den_behind p : den (Behind p) []
| den_eol m : den (Eol m) [].

(** The capturing groups of a pattern, and those every match sets. *)
Fixpoint groups_in (r : regex) : list (nat * regex) :=
  match r with
  | Seq a b | Alt a b => groups_in a ++ groups_in b
  | Grp n a => (n, a) :: groups_in a
  | Ahead a => groups_in a
  | _ => []
  end.

Fixpoint groups_set (r : regex) : list nat :=
  match r with
  | Seq a b => groups_set a ++ groups_set b
  | Grp n a => n :: groups_set a
  | _ => []
  end.

(** A capture comes from a group of the pattern and holds a text the
    group's body can match. *)
Definition capture_of (r : regex) (c : nat * text) : Prop :=
  exists a, In (fst c, a) (groups_in r) /\ den a (snd c).

(** A non-empty string of decimal digits. *)
Definition digits (t : text) : Prop := t <> [] /\ forallb is_digit t = true.

(** [t] is [name] up to the case of its letters, as IGNORECASE compares. *)
Definition same_ci (name t : text) : Prop :=
  Forall2 (fun l c => is_ci l c = true) name t.

(** *** Event logs of the fetch functions *)

Definition is_navigation (e : DataExtraction.event) : bool :=
  match e with DataExtraction.DriverGet _ => true | _ => false end.

Definition is_request (e : DataExtraction.event) : bool :=
  match e with DataExtraction.SessionGet _ => true | _ => false end.

Definition is_browser (e : DataExtraction.event) : bool :=
  match e with
  | DataExtraction.Sleep _ | DataExtraction.SessionGet _ => false
  | _ => true
  end.

Definition navigations (l : list DataExtraction.event) : nat :=
  length (filter is_navigation l).

Definition requests (l : list DataExtraction.event) : nat :=
  length (filter is_request l).

(** The time slept, in milliseconds. *)
Definition slept (l : list DataExtraction.event) : N :=
  fold_right
    (fun e t => match e with DataExtraction.Sleep ms => (ms + t)%N | _ => t end)
    0%N l.

Definition just_slept (ms : N) (prev : option DataExtraction.event) : bool :=
  match prev with
  | Some (DataExtraction.Sleep t) => N.eqb t ms
  | _ => false
  end.

(** Every [driver.get] comes right after a sleep of [RATE_LIMIT_SELENIUM],
    every [session.get] right after a sleep of [RATE_LIMIT_REQUESTS];
    [prev] is the event before the log. *)
Fixpoint paced (prev : option DataExtraction.event)
    (l : list DataExtraction.event) : bool :=
  match l with
  | [] => true
  | e :: l' =>
      match e with
      | DataExtraction.DriverGet _ =>
          just_slept DataExtraction.RATE_LIMIT_SELENIUM prev
      | DataExtraction.SessionGet _ =>
          just_slept DataExtraction.RATE_LIMIT_REQUESTS prev
      | _ => true
      end && paced (Some e) l'
  end.

(** Every address asked for is [url]. *)
Definition only_asks (url : text) (l : list DataExtraction.event) : Prop :=
  forall e, In e l ->
    match e with
    | DataExtraction.DriverGet a | DataExtraction.SessionGet a => a = url
    | _ => True
    end.

(** The call ended in an exception. *)
Definition raised {A} (r : DataExtraction.outcome A) : bool :=
  match r with DataExtraction.Raise _ => true | DataExtraction.Ok _ => false end.

(** A world in which the server answers every request with [page] and
    status 200, and the browser, which always starts and loads, shows
    [page]. *)
Definition serving (page : text) : DataExtraction.world :=
  DataExtraction.World
    (fun _ => true) (fun _ _ => true)
    (fun _ => DataExtraction.Ok page)
    (fun _ _ => DataExtraction.Ok (200, page)).


Definition fresh : DataExtraction.state := DataExtraction.State false [].

(** *** Runs of the fetch functions *)

(** [m], run from [s], ends with a result and a state that satisfy [Q]. *)
Definition ends {A} (m : DataExtraction.io A) (s : DataExtraction.state)
    (Q : DataExtraction.outcome A -> DataExtraction.state -> Prop) : Prop :=
  Q (fst (m s)) (snd (m s)).

(** What a call of [fetch_with_selenium] from [s] leaves. *)
Definition selenium_run (w : DataExtraction.world) (url : text)
    (s : DataExtraction.state) (r : DataExtraction.outcome (option text))
    (s' : DataExtraction.state) : Prop :=
  (exists d,
     DataExtraction.log s' = DataExtraction.log s ++ d
     /\ paced None d = true
     /\ Nat.leb (navigations d) 2 = true
     /\ requests d = 0
     /\ N.leb 2000 (slept d) = true
     /\ N.leb (slept d) 60000 = true
     /\ existsb is_browser d = true
     /\ only_asks url d)
  /\ match r with
     | DataExtraction.Ok (Some h) =>
         DataExtraction.is_cloudflare_challenge h = false
         /\ DataExtraction.DRIVER s' = true
         /\ exists l,
              DataExtraction.log s' = l ++ [DataExtraction.PageSource]
              /\ DataExtraction.driver_shows w (length l) = DataExtraction.Ok h
     | DataExtraction.Ok None => DataExtraction.DRIVER s' = true
     | DataExtraction.Raise _ =>
         DataExtraction.DRIVER s' = false
         /\ exists l,
              DataExtraction.log s' = l ++ [DataExtraction.CreateDriver]
              /\ DataExtraction.driver_starts w (length l) = false
     end.

(** What a call of [fetch] from [s] leaves: the events [d] it adds to the
    log and, by whether the browser was used, its result. *)
Definition fetch_run (w : DataExtraction.world) (url : text)
    (force_selenium : bool) (s : DataExtraction.state)
    (r : DataExtraction.outcome (option text)) (s' : DataExtraction.state)
    (d : list DataExtraction.event) : Prop :=
  DataExtraction.log s' = DataExtraction.log s ++ d
  /\ paced None d = true
  /\ navigations d <= 2
  /\ requests d <= 1
  /\ (1500 <= slept d <= 61500)%N
  /\ only_asks url d
  /\ (contains (u "journals.lww.com") url || force_selenium = true ->
      requests d = 0 /\ existsb is_browser d = true)
  /\ (existsb is_browser d = false ->
      exists body,
        DataExtraction.server_answers w
          (S (length (DataExtraction.log s))) url
        = DataExtraction.Ok (200, body)
        /\ body <> []
        /\ DataExtraction.is_cloudflare_challenge body = false
        /\ r = DataExtraction.Ok (Some body)
        /\ d = [DataExtraction.Sleep DataExtraction.RATE_LIMIT_REQUESTS;
                DataExtraction.SessionGet url]
        /\ DataExtraction.DRIVER s' = DataExtraction.DRIVER s)
  /\ (existsb is_browser d = true ->
      match r with
      | DataExtraction.Ok (Some h) =>
          DataExtraction.is_cloudflare_challenge h = false
          /\ DataExtraction.DRIVER s' = true
          /\ exists l,
               DataExtraction.log s' = l ++ [DataExtraction.PageSource]
               /\ DataExtraction.driver_shows w (length l) = DataExtraction.Ok h
      | DataExtraction.Ok None => DataExtraction.DRIVER s' = true
      | DataExtraction.Raise _ =>
          DataExtraction.DRIVER s' = false
          /\ exists l,
               DataExtraction.log s' = l ++ [DataExtraction.CreateDriver]
               /\ DataExtraction.driver_starts w (length l) = false
      end).

(** *** Cleaned content *)

(** A text that the cleaner keeps in a list: cleaned, and longer than ten
    characters. *)
Definition kept_text (t : text) : Prop := tidy t /\ 10 < length t.

Definition kept_section (s : CleanData.section) : Prop :=
  tidy (CleanData.heading s)
  /\ Forall (fun nav => contains nav (lower (CleanData.heading s)) = false)
       CleanData.SKIPPED_HEADINGS
  /\ Forall kept_text (CleanData.content s)
  /\ (CleanData.heading s <> [] \/ CleanData.content s <> []).

Definition kept_table (t : CleanData.table) : Prop :=
  tidy (CleanData.caption t)
  /\ Forall tidy (CleanData.headers t)
  /\ Forall (Forall tidy) (CleanData.rows t).

(** What [clean_text] takes without raising: a string, or a value that is
    false. *)
Definition cleanable (v : CleanData.json) : Prop :=
  match v with
  | CleanData.JStr _ => True
  | _ => CleanData.json_truthy v = false
  end.

(** A content with two sections, the first of which is navigation, and
    a table. *)
Definition sample_content : CleanData.json :=
  CleanData.JDict
    [ (u "full_text", CleanData.JStr (u "Treat with 400 mg daily."));
      (u "sections",
       CleanData.JList
         [ CleanData.JDict
             [ (u "heading", CleanData.JStr (u "Cookie settings"));
               (u "content", CleanData.JList []) ];
           CleanData.JDict
             [ (u "heading", CleanData.JStr (u "Treatment"));
               (u "content",
                CleanData.JList
                  [ CleanData.JStr (u "Treat all adults.");
                    CleanData.JStr (u "See above.") ]) ] ]);
      (u "tables",
       CleanData.JList
         [ CleanData.JDict
             [ (u "headers", CleanData.JList [CleanData.JStr (u "Drug")]);
               (u "rows",
                CleanData.JList
                  [ CleanData.JList [CleanData.JStr (u "Entecavir")] ]) ] ]) ].

(** A library that opens every file as one page of text. *)
Definition one_page_library : DataExtraction.pdf_library :=
  DataExtraction.PdfLibrary true
    (fun _ =>
       DataExtraction.Ok
         [DataExtraction.Ok (u "Treat all adults with chronic hepatitis B.")]).

(** A table of the extractor, as the cleaner leaves it. *)
Definition cleaned_table (t : DataExtraction.table) : CleanData.table :=
  CleanData.Table []
    (map CleanData.clean_text (DataExtraction.headers t))
    (map (map CleanData.clean_text) (DataExtraction.rows t)).

(** *** Words *)

(** No character of [s] is white space. *)
Definition spaceless (s : text) : bool :=
  forallb (fun c => negb (is_space c)) s.

(** *** The elements of a page, before anything is removed *)

Definition HIDDEN : list string := ["script"; "style"; "noscript"]%string.

(** An element that is not inside a script, style or noscript element. *)
Definition shown (e : list string * node) : bool :=
  negb (has_parent HIDDEN (fst e)).

(** The text of an element, the script, style and noscript elements
    inside it left out. *)
Definition shown_text (e : list string * node) : text :=
  get_text_strip (decompose HIDDEN (snd e)).

(** The level a heading stands for, by its name. *)
Definition level_of_name (nm : string) : nat :=
  if String.eqb nm "h1" then 1
  else if String.eqb nm "h2" then 2
  else if String.eqb nm "h3" then 3
  else 0.

(** The elements that open a section, and those that go into one. *)
Definition page_heading (e : list string * node) : bool :=
  shown e && is_section_heading e && (5 <=? length (shown_text e)).

Definition page_body (e : list string * node) : bool :=
  shown e && negb (is_section_heading e) && (5 <=? length (shown_text e)).

(** The elements from the first of [p] on. *)
Fixpoint from_first {A} (p : A -> bool) (l : list A) : list A :=
  match l with
  | [] => []
  | x :: l' => if p x then l else from_first p l'
  end.

(* ===================================================================== *)
(** * Properties *)
(* ===================================================================== *)

(** ** Strings *)

Section StringFacts.

Lemma eqb_refl (a : text) : Py.eqb a a = true.
Proof.
  induction a as [|x a IH]; simpl; [reflexivity|].
  now rewrite N.eqb_refl, IH.
Qed.

Lemma eqb_eq (a b : text) : Py.eqb a b = true <-> a = b.
Proof.
  split; [|intros ->; apply eqb_refl].
  revert b; induction a as [|x a IH]; intros [|y b]; simpl; try discriminate; auto.
  rewrite andb_true_iff, N.eqb_eq. intros [-> H]. f_equal. now apply IH.
Qed.

Lemma eqb_neq (a b : text) : Py.eqb a b = false <-> a <> b.
Proof.
  rewrite <- eqb_eq. destruct (Py.eqb a b); split; congruence.
Qed.

Lemma truthy_iff (a : text) : truthy a = true <-> a <> [].
Proof. destruct a; simpl; split; congruence. Qed.

Lemma startswith_iff (pre s : text) :
  startswith pre s = true <-> exists rest, s = pre ++ rest.
Proof.
  revert s; induction pre as [|x pre IH]; intros s; simpl.
  - split; [eauto | reflexivity].
  - destruct s as [|y s].
    + split; [discriminate | intros [r H]; discriminate].
    + rewrite andb_true_iff, N.eqb_eq, IH. split.
      * intros [-> [r ->]]. eauto.
      * intros [r H]. injection H as -> ->. eauto.
Qed.

Lemma endswith_iff (suf s : text) :
  endswith suf s = true <-> exists front, s = front ++ suf.
Proof.
  unfold endswith. rewrite startswith_iff. split.
  - intros [r H]. exists (rev r).
    rewrite <- (rev_involutive s), H, rev_app_distr, rev_involutive. reflexivity.
  - intros [f ->]. exists (rev f). apply rev_app_distr.
Qed.

Lemma contains_iff (pat s : text) : contains pat s = true <-> occurs pat s.
Proof.
  unfold occurs. induction s as [|c s IH]; simpl.
  - rewrite orb_false_r, startswith_iff. split.
    + intros [r H]. exists [], r. exact H.
    + intros [a [b H]]. destruct a; [eauto|discriminate].
  - rewrite orb_true_iff, startswith_iff, IH. split.
    + intros [[r H] | [a [b H]]].
      * exists [], r. exact H.
      * exists (c :: a), b. simpl. now rewrite H.
    + intros [[|x a] [b H]].
      * left. exists b. exact H.
      * right. injection H as -> ->. eauto.
Qed.

Lemma existsb_occurs (pats : list text) (s : text) :
  existsb (fun p => contains p s) pats = true
  <-> exists p, In p pats /\ occurs p s.
Proof.
  rewrite existsb_exists. split; intros [p [Hp H]]; exists p; split; auto;
    now apply contains_iff.
Qed.

Lemma drop_while_app_stop (p : char -> bool) (a : text) (c : char) (b : text) :
  forallb p a = true -> p c = false ->
  drop_while p (a ++ c :: b) = c :: b.
Proof.
  induction a as [|x a IH]; simpl; intros Ha Hc.
  - now rewrite Hc.
  - apply andb_true_iff in Ha as [Hx Ha]. rewrite Hx. auto.
Qed.

Lemma rstrip_by_snoc (p : char -> bool) (s : text) (c : char) :
  p c = true -> rstrip_by p (s ++ [c]) = rstrip_by p s.
Proof.
  intros Hc. unfold rstrip_by. rewrite rev_app_distr. simpl. now rewrite Hc.
Qed.

Lemma split_on_nonempty (sep : char) (s : text) : split_on sep s <> [].
Proof.
  destruct s as [|c s]; simpl; [discriminate|].
  destruct (split_on sep s); [discriminate|].
  destruct (c =? sep)%N; discriminate.
Qed.

(** The first field of a split is the text before the first separator. *)
Lemma hd_split_on (sep : char) (s : text) :
  hd [] (split_on sep s)
  = DataExtraction.take_until (fun x => (x =? sep)%N) s.
Proof.
  induction s as [|c s IH]; simpl; [reflexivity|].
  destruct (split_on sep s) as [|p ps] eqn:E.
  - exfalso. eapply split_on_nonempty; eauto.
  - simpl in IH. destruct (c =? sep)%N; simpl; congruence.
Qed.

Lemma take_until_app_hit (p : char -> bool) (a : text) (c : char) (b : text) :
  p c = true ->
  DataExtraction.take_until p (a ++ c :: b) = DataExtraction.take_until p a.
Proof.
  intros Hc. induction a as [|x a IH]; simpl.
  - now rewrite Hc.
  - destruct (p x); congruence.
Qed.

Lemma take_until_snoc_miss (p : char -> bool) (a : text) (c : char) :
  p c = false ->
  DataExtraction.take_until p (a ++ [c])
  = if existsb p a then DataExtraction.take_until p a else a ++ [c].
Proof.
  intros Hc. induction a as [|x a IH]; simpl.
  - now rewrite Hc.
  - destruct (p x); simpl; [reflexivity|].
    rewrite IH. destruct (existsb p a); reflexivity.
Qed.

Lemma take_until_no_hit (p : char -> bool) (a : text) :
  existsb p a = false -> DataExtraction.take_until p a = a.
Proof.
  induction a as [|x a IH]; simpl; [reflexivity|].
  destruct (p x); simpl; [discriminate|]. intros H. now rewrite IH.
Qed.

End StringFacts.

(** ** URL canonicalisation *)

(** C9.  [clean_url] absorbs a fragment and a trailing slash: for every
    string [url] and every fragment [frag],
    [clean_url(url + "#" + frag) == clean_url(url)] and
    [clean_url(url + "/") == clean_url(url)]. *)
Theorem clean_url_absorbs_fragment_and_slash (url frag : text) :
  DataExtraction.clean_url (url ++ u "#" ++ frag) = DataExtraction.clean_url url
  /\ DataExtraction.clean_url (url ++ u "/") = DataExtraction.clean_url url.
Proof.
  unfold DataExtraction.clean_url. rewrite !hd_split_on. split.
  - f_equal. simpl. apply take_until_app_hit. apply N.eqb_refl.
  - simpl. rewrite take_until_snoc_miss by reflexivity.
    destruct (existsb _ url) eqn:E; [reflexivity|].
    rewrite take_until_no_hit by exact E.
    apply rstrip_by_snoc. reflexivity.
Qed.

(** ** Clinical entities *)

(** C10.  In the list [extract_clinical_values] returns, every value of
    type dosage comes before every value of type threshold: the dosage
    pass is complete before the threshold pass appends anything. *)
Theorem dosages_before_thresholds (t : text) (i j : nat)
    (vi vj : CleanData.clinical_value) :
  nth_error (CleanData.extract_clinical_values t) i = Some vi ->
  nth_error (CleanData.extract_clinical_values t) j = Some vj ->
  is_dosage vi = true -> is_threshold vj = true ->
  i < j.
Proof.
  unfold CleanData.extract_clinical_values.
  set (ds := finditer CleanData.dosage_pattern t).
  set (ts := finditer CleanData.threshold_pattern t).
  intros Hi Hj Di Tj.
  assert (Li : i < length (map CleanData.dosage_of ds)).
  { destruct (Nat.lt_ge_cases i (length (map CleanData.dosage_of ds))) as [L|L]; [exact L|].
    rewrite nth_error_app2 in Hi by exact L.
    rewrite nth_error_map in Hi.
    destruct (nth_error ts _); simpl in Hi; [|discriminate].
    injection Hi as <-. discriminate. }
  assert (Lj : length (map CleanData.dosage_of ds) <= j).
  { destruct (Nat.lt_ge_cases j (length (map CleanData.dosage_of ds))) as [L|L]; [|exact L].
    rewrite nth_error_app1 in Hj by exact L.
    rewrite nth_error_map in Hj.
    destruct (nth_error ds _); simpl in Hj; [|discriminate].
    injection Hj as <-. discriminate. }
  lia.
Qed.

Lemma dosages_before_thresholds_witness :
  let t := u "ALT " ++ [CleanData.GE] ++ u " 1,000 U/L" in
  nth_error (CleanData.extract_clinical_values t) 0
    = Some (CleanData.Dosage (u "000 U/L") (u "000") (u "U/L"))
  /\ 0 < 1.
Proof.
  split; [reflexivity|].
  apply (@dosages_before_thresholds
           (u "ALT " ++ [CleanData.GE] ++ u " 1,000 U/L") 0 1
           (CleanData.Dosage (u "000 U/L") (u "000") (u "U/L"))
           (CleanData.Threshold ([CleanData.GE] ++ u " 1,000 U/L")
              [CleanData.GE] (u "1,000") (u "U/L")));
    reflexivity.
Defined.

(** What C2 states of the sample text, word for word: two
    recommendations, the first with grade "Strong" and a certainty that
    contains "moderate certainty". *)
Lemma recommendations_sample_counterexample :
  ~ (length (CleanData.extract_recommendations sample_recommendations) = 2
     /\ exists r, hd_error (CleanData.extract_recommendations sample_recommendations) = Some r
          /\ CleanData.grade r = Some (u "Strong")
          /\ exists c, CleanData.certainty r = Some c
               /\ contains (u "moderate certainty") c = true).
Proof.
  intros [_ [r [Hr [_ [c [Hc _]]]]]].
  vm_compute in Hr. injection Hr as <-. discriminate.
Qed.

(** C2, amended.  The sample text yields exactly two recommendations; the
    first has grade "Strong" and no certainty, since the certainty pattern
    asks for a parenthesis that holds the certainty phrase alone. *)
Theorem recommendations_sample :
  CleanData.extract_recommendations sample_recommendations
  = [ CleanData.Recommendation (u "1")
        (u "Use drug X (Strong recommendation, moderate certainty).")
        (Some (u "Strong")) None
        (u "Recommendation 1: Use drug X (Strong recommendation, moderate certainty). ");
      CleanData.Recommendation (u "2") (u "...") None None
        (u "Recommendation 2: ...") ].
Proof. vm_compute. reflexivity. Qed.

(** What C3 states of the second sample text, word for word: exactly one
    value. *)
Lemma clinical_values_sample_counterexample :
  CleanData.extract_clinical_values sample_threshold
  = [ CleanData.Dosage (u "000 U/L") (u "000") (u "U/L");
      CleanData.Threshold ([CleanData.GE] ++ u " 1,000 U/L") [CleanData.GE]
        (u "1,000") (u "U/L") ]
  /\ length (CleanData.extract_clinical_values sample_threshold) <> 1.
Proof. split; [vm_compute; reflexivity | vm_compute; discriminate]. Qed.

(** C3, amended.  "administer 400 mg orally" yields exactly one value, a
    dosage with number "400" and unit "mg".  The second sample text yields
    exactly one threshold, with operator, number "1,000" and unit "U/L",
    as the last value of the list, after what the dosage pass reports for
    the same text. *)
Theorem clinical_values_sample :
  CleanData.extract_clinical_values sample_dosage
  = [ CleanData.Dosage (u "400 mg orally") (u "400") (u "mg") ]
  /\ filter is_threshold (CleanData.extract_clinical_values sample_threshold)
     = [ CleanData.Threshold ([CleanData.GE] ++ u " 1,000 U/L") [CleanData.GE]
           (u "1,000") (u "U/L") ]
  /\ exists ds,
       CleanData.extract_clinical_values sample_threshold
       = ds ++ [ CleanData.Threshold ([CleanData.GE] ++ u " 1,000 U/L")
                   [CleanData.GE] (u "1,000") (u "U/L") ]
       /\ ds <> [] /\ forallb is_dosage ds = true.
Proof.
  split; [vm_compute; reflexivity|].
  split; [vm_compute; reflexivity|].
  exists [ CleanData.Dosage (u "000 U/L") (u "000") (u "U/L") ].
  split; [vm_compute; reflexivity|].
  split; [discriminate | reflexivity].
Qed.

(** ** Tables *)

Lemma cells_eqb_refl (a : list text) : DataExtraction.cells_eqb a a = true.
Proof.
  induction a as [|x a IH]; simpl; [reflexivity|].
  now rewrite eqb_refl, IH.
Qed.

Lemma nonempty_iff {A} (l : list A) : DataExtraction.nonempty l = true <-> l <> [].
Proof. destruct l; simpl; split; congruence. Qed.

Lemma table_of_invariant (idx : nat) (tbl : node) (t : DataExtraction.table) :
  In t (DataExtraction.table_of idx tbl) ->
  (DataExtraction.headers t <> [] ->
     DataExtraction.column_count t = length (DataExtraction.headers t))
  /\ (DataExtraction.headers t = [] ->
      forall r rs, DataExtraction.rows t = r :: rs ->
        DataExtraction.column_count t = length r)
  /\ ~ In (DataExtraction.headers t) (DataExtraction.rows t).
Proof.
  unfold DataExtraction.table_of.
  set (hs := match find "thead" tbl with Some th => _ | None => _ end).
  set (body := match find "tbody" tbl with Some tb => tb | None => tbl end).
  set (rs := filter _ _).
  destruct (_ || _); [|intros []].
  intros [<- | []]. simpl. repeat split.
  - intros H. apply nonempty_iff in H. now rewrite H.
  - intros H r rs' E. rewrite H. simpl. now rewrite E.
  - intros H. apply filter_In in H as [_ H].
    rewrite cells_eqb_refl, andb_false_r in H. discriminate.
Qed.

(** C5.  For every table the table extractor produces from a document:
    [column_count] is the number of headers when there are headers, else the
    width of the first row when there is a row; and no row equals the list
    of headers. *)
Theorem tables_invariant (soup : node) (t : DataExtraction.table) :
  In t (DataExtraction.extract_all_tables soup) ->
  (DataExtraction.headers t <> [] ->
     DataExtraction.column_count t = length (DataExtraction.headers t))
  /\ (DataExtraction.headers t = [] ->
      forall r rs, DataExtraction.rows t = r :: rs ->
        DataExtraction.column_count t = length r)
  /\ ~ In (DataExtraction.headers t) (DataExtraction.rows t).
Proof.
  unfold DataExtraction.extract_all_tables. intros H.
  apply in_flat_map in H as [[idx tbl] [_ H]].
  eapply table_of_invariant; eauto.
Qed.

Lemma tables_invariant_witness :
  DataExtraction.column_count
    (DataExtraction.Table 1 [u "A"; u "B"] [[u "1"; u "2"]] 1 2) = 2
  /\ ~ In [u "A"; u "B"] [[u "1"; u "2"]].
Proof.
  pose proof (@tables_invariant sample_tables
    (DataExtraction.Table 1 [u "A"; u "B"] [[u "1"; u "2"]] 1 2)) as H.
  destruct H as [H1 [_ H3]].
  - vm_compute. left. reflexivity.
  - split; [apply H1; discriminate | exact H3].
Defined.

(** ** Sections *)

Lemma heading_level_ok (nm : string) :
  named ["h1"; "h2"; "h3"]%string nm = true ->
  1 <= DataExtraction.int_of_name_digit nm <= 3.
Proof.
  unfold named. simpl. rewrite !orb_true_iff, !String.eqb_eq.
  intros [-> | [-> | [-> | H]]]; [| | |discriminate]; vm_compute; lia.
Qed.

Lemma visit_ok_more seen e st :
  visit_ok seen st -> visit_ok (seen ++ [e]) st.
Proof.
  intros H s Hs. destruct (H s Hs) as [L C]. split; [exact L|].
  intros c Hc. destruct (C c Hc) as [x [Hx E]]. exists x.
  split; [apply in_or_app; now left | exact E].
Qed.

Lemma visit_keeps_ok seen st e :
  visit_ok seen st -> visit_ok (seen ++ [e]) (DataExtraction.visit st e).
Proof.
  intros H. pose proof (visit_ok_more e H) as H'.
  unfold DataExtraction.visit. destruct st as [secs cur].
  destruct (has_parent _ _); [exact H'|].
  destruct (_ || _); [exact H'|].
  destruct (named _ _) eqn:Hn.
  - intros s [Hs | Hs]; simpl in *.
    + apply H'. destruct cur as [c|]; [|now left].
      apply in_app_or in Hs as [Hs | [<- | []]]; [now left | now right].
    + injection Hs as <-. split; [now apply heading_level_ok|].
      intros c [].
  - destruct cur as [c|]; [|exact H'].
    intros s [Hs | Hs]; simpl in *.
    + apply H'. now left.
    + injection Hs as <-. destruct (H' c (or_intror eq_refl)) as [L C].
      split; [exact L|]. simpl. intros x Hx.
      apply in_app_or in Hx as [Hx | [<- | []]]; [now apply C|].
      exists e. split; [apply in_or_app; right; now left|]. split; [exact Hn | reflexivity].
Qed.

Lemma fold_visit_ok els seen st :
  visit_ok seen st ->
  visit_ok (seen ++ els) (fold_left DataExtraction.visit els st).
Proof.
  revert seen st. induction els as [|e els IH]; intros seen st H; simpl.
  - now rewrite app_nil_r.
  - replace (seen ++ e :: els) with ((seen ++ [e]) ++ els)
      by (rewrite <- app_assoc; reflexivity).
    apply IH. now apply visit_keeps_ok.
Qed.

Lemma sections_of_ok els (s : DataExtraction.section) :
  In s (DataExtraction.sections_of els) ->
  level_ok s
  /\ forall c, In c (DataExtraction.content s) ->
       exists e, In e els /\ is_section_heading e = false
                 /\ c = get_text_strip (snd e).
Proof.
  unfold DataExtraction.sections_of.
  assert (H0 : visit_ok [] ([], None)).
  { intros x [[] | Hx]; discriminate. }
  pose proof (fold_visit_ok els H0) as H. simpl in H.
  destruct (fold_left _ _ _) as [secs cur].
  intros Hs. apply H. destruct cur as [c|]; simpl; [|now left].
  apply in_app_or in Hs as [Hs | [<- | []]]; [now left | now right].
Qed.

(** Elements before the first section heading leave the loop's state as
    it started. *)
Lemma fold_visit_before_heading pre :
  (forall e, In e pre -> is_section_heading e = false) ->
  fold_left DataExtraction.visit pre ([], None) = ([], None).
Proof.
  induction pre as [|e pre IH]; intros H; cbn [fold_left]; [reflexivity|].
  assert (E : DataExtraction.visit ([], None) e = ([], None)).
  { unfold DataExtraction.visit.
    destruct (has_parent _ _); [reflexivity|].
    destruct (_ || _); [reflexivity|].
    unfold is_section_heading in H. rewrite (H e (or_introl eq_refl)). reflexivity. }
  rewrite E. apply IH. intros x Hx. apply H. now right.
Qed.

(** C4.  Every section the HTML structural extractor produces has a level
    between 1 and 3, and its content is drawn only from elements that
    follow the first heading of level 1 to 3 in document order: what comes
    before that heading is dropped, it forms no section of its own. *)
Theorem sections_invariant (soup : node) (pre rest : list (list string * node)) :
  DataExtraction.block_elements soup = pre ++ rest ->
  (forall e, In e pre -> is_section_heading e = false) ->
  DataExtraction.sections (DataExtraction.extract_all_text_with_structure soup)
  = DataExtraction.sections_of rest
  /\ forall s,
       In s (DataExtraction.sections
               (DataExtraction.extract_all_text_with_structure soup)) ->
       1 <= DataExtraction.level s <= 3
       /\ forall c, In c (DataExtraction.content s) ->
            exists e, In e rest /\ is_section_heading e = false
                      /\ c = get_text_strip (snd e).
Proof.
  intros E Hpre.
  assert (S : DataExtraction.sections
                (DataExtraction.extract_all_text_with_structure soup)
              = DataExtraction.sections_of rest).
  { simpl. rewrite E. unfold DataExtraction.sections_of.
    rewrite fold_left_app, fold_visit_before_heading by exact Hpre. reflexivity. }
  split; [exact S|].
  intros s Hs. rewrite S in Hs.
  destruct (sections_of_ok _ _ Hs) as [L C]. split; [exact L|].
  exact C.
Qed.

Lemma sections_invariant_witness :
  DataExtraction.sections (DataExtraction.extract_all_text_with_structure sample_page)
  = [ DataExtraction.Section (u "Title here") 1
        [u "body text"; u "minor heading"; u "after short"] ].
Proof.
  destruct (@sections_invariant sample_page
              (firstn 1 (DataExtraction.block_elements sample_page))
              (skipn 1 (DataExtraction.block_elements sample_page)))
    as [S _].
  - symmetry. apply firstn_skipn.
  - intros e [<- | []]. reflexivity.
  - rewrite S. reflexivity.
Defined.

(** ** PDF paragraphs *)

Lemma add_sentence_keep st s :
  DataExtraction.add_sentence st s
  = if 20 <? length (strip s) then keep_sentence st (strip s) else st.
Proof.
  unfold DataExtraction.add_sentence, keep_sentence. destruct st as [ps cur].
  destruct (20 <? _); reflexivity.
Qed.

Lemma fold_add_sentence sentences st :
  fold_left DataExtraction.add_sentence sentences st
  = fold_left keep_sentence
      (filter (fun s => 20 <? length s) (map strip sentences)) st.
Proof.
  revert st. induction sentences as [|s l IH]; intros st; [reflexivity|].
  cbn [fold_left map filter]. rewrite add_sentence_keep.
  destruct (20 <? length (strip s)); cbn [fold_left]; apply IH.
Qed.

Lemma parse_pdf_by_kept (full_text : text) :
  DataExtraction.parse_pdf_into_paragraphs full_text
  = let (paragraphs, current_para) :=
      fold_left keep_sentence (qualifying_sentences full_text) ([], []) in
    match current_para with
    | [] => paragraphs
    | _ => paragraphs ++ [join (u " ") current_para]
    end.
Proof.
  unfold DataExtraction.parse_pdf_into_paragraphs, qualifying_sentences.
  rewrite fold_add_sentence. reflexivity.
Qed.

(** What C6 states, word for word, at a text of seven qualifying
    sentences: two paragraphs. *)
Lemma pdf_paragraphs_counterexample :
  length (qualifying_sentences sample_seven_sentences) = 7
  /\ length (DataExtraction.parse_pdf_into_paragraphs sample_seven_sentences) <> 2.
Proof. split; [vm_compute; reflexivity | vm_compute; discriminate]. Qed.

(** C6, amended.  A text that splits into exactly seven qualifying
    sentences gives three paragraphs, of 3, 3 and 1 sentences: a paragraph
    is closed at every third sentence and the remaining one is emitted at
    the end. *)
Theorem pdf_paragraphs_of_seven (full_text s1 s2 s3 s4 s5 s6 s7 : text) :
  qualifying_sentences full_text = [s1; s2; s3; s4; s5; s6; s7] ->
  DataExtraction.parse_pdf_into_paragraphs full_text
  = [ join (u " ") [s1; s2; s3]; join (u " ") [s4; s5; s6]; join (u " ") [s7] ].
Proof.
  intros H. rewrite parse_pdf_by_kept, H. reflexivity.
Qed.

Lemma pdf_paragraphs_of_seven_witness :
  length (DataExtraction.parse_pdf_into_paragraphs sample_seven_sentences) = 3.
Proof.
  rewrite (@pdf_paragraphs_of_seven sample_seven_sentences
             (u "The first sentence is long enough.")
             (u "The second sentence is long enough.")
             (u "The third sentence is long enough.")
             (u "The fourth sentence is long enough.")
             (u "The fifth sentence is long enough.")
             (u "The sixth sentence is long enough.")
             (u "The seventh sentence is long enough.")).
  - reflexivity.
  - vm_compute. reflexivity.
Defined.

(** ** PDF text *)

Lemma no_usable_pages pages :
  Forall unusable pages ->
  flat_map (fun page : DataExtraction.outcome text =>
    match page with
    | DataExtraction.Ok t => if truthy t then [t] else []
    | DataExtraction.Raise _ => []
    end) pages = [].
Proof.
  induction 1 as [|p l Hp _ IH]; [reflexivity|].
  simpl. rewrite IH. destruct p as [t|e]; [|reflexivity].
  simpl in Hp. subst t. reflexivity.
Qed.

(** What C7 states, word for word, at a file whose only page has no text:
    no text can be extracted, yet the record has no ['error'] key. *)
Lemma pdf_no_text_counterexample :
  no_text blank_page_library (u "guideline.pdf")
  /\ ~ (DataExtraction.get
         (DataExtraction.extract_text_from_pdf blank_page_library (u "guideline.pdf"))
         "full_text" = Some (DataExtraction.VStr [])
       /\ DataExtraction.has_key
            (DataExtraction.extract_text_from_pdf blank_page_library (u "guideline.pdf"))
            "error" = true).
Proof.
  split.
  - right. right. exists [DataExtraction.Ok []]. split; [reflexivity|].
    constructor; [reflexivity | constructor].
  - intros [_ H]. vm_compute in H. discriminate.
Qed.

(** ** Link filter *)

(** What C8 states, word for word, at a link that continues the last
    segment of the page's path: the filter keeps it, though it has no
    journal host, no PDF or file-storage path, and does not descend from
    the page's path by whole segments. *)
Lemma valid_content_link_counterexample :
  ~ (DataExtraction.is_valid_content_link plain_url_library
       sample_sibling_url sample_base_url = DataExtraction.Ok true
     <-> spec_valid_content_link plain_url_library
           sample_sibling_url sample_base_url = true).
Proof.
  intros [H _].
  assert (E : DataExtraction.is_valid_content_link plain_url_library
                sample_sibling_url sample_base_url = DataExtraction.Ok true)
    by (vm_compute; reflexivity).
  apply H in E. vm_compute in E. discriminate.
Qed.

Lemma existsb_none (l : list text) (s : text) :
  existsb (fun pat => contains pat s) l = false ->
  ~ exists pat, In pat l /\ occurs pat s.
Proof.
  intros E X. apply existsb_occurs in X. congruence.
Qed.

(** [urlparse] raises exactly on a host part that has one bracket
    without the other, or both and fails the library's check, or that
    fails the check of its normal form. *)
Lemma urlparse_raises (lib : DataExtraction.url_library) (url : text) :
  malformed lib url
  <-> exists scheme rest netloc tail,
        DataExtraction.split_scheme
          (filter (fun c => negb ((c =? 9) || (c =? 13) || (c =? 10))%N)
             (drop_while (fun c => (c <=? 32)%N) url)) = (scheme, rest)
        /\ DataExtraction.split_netloc rest = (netloc, tail)
        /\ (contains (u "[") netloc <> contains (u "]") netloc
            \/ (contains (u "[") netloc = true
                /\ contains (u "]") netloc = true
                /\ DataExtraction.check_bracketed_netloc lib netloc <> None)
            \/ DataExtraction.checknetloc_raises lib netloc = true).
Proof.
  unfold malformed, DataExtraction.urlparse.
  destruct (DataExtraction.split_scheme _) as [scheme rest].
  destruct (DataExtraction.split_netloc rest) as [netloc tail] eqn:SN.
  destruct (contains (u "[") netloc) eqn:O;
    destruct (contains (u "]") netloc) eqn:C; cbn [andb orb negb].
  - destruct (DataExtraction.check_bracketed_netloc lib netloc) as [m|] eqn:B.
    + split; [intros _ | intros _; eexists; reflexivity].
      exists scheme, rest, netloc, tail. rewrite O, C, B.
      split; [reflexivity |]. split; [exact SN |].
      right. left. repeat split; discriminate.
    + destruct (DataExtraction.partition (ch "#") tail) as [t1 fragment].
      destruct (DataExtraction.partition (ch "?") t1) as [t2 query].
      destruct (DataExtraction.checknetloc_raises lib netloc) eqn:K.
      * split; [intros _ | intros _; eexists; reflexivity].
        exists scheme, rest, netloc, tail. rewrite K. auto.
      * assert (N : ~ exists s r n t : text,
                    (scheme, rest) = (s, r) /\ DataExtraction.split_netloc r = (n, t)
                    /\ (contains (u "[") n <> contains (u "]") n
                        \/ (contains (u "[") n = true
                            /\ contains (u "]") n = true
                            /\ DataExtraction.check_bracketed_netloc lib n
                               <> None)
                        \/ DataExtraction.checknetloc_raises lib n = true)).
        { intros [s' [r' [n' [t' [E1 [E2 X]]]]]].
          injection E1 as <- <-. rewrite SN in E2. injection E2 as <- <-.
          rewrite O, C, B, K in X.
          destruct X as [X | [[_ [_ X]] | X]];
            [apply X; reflexivity | apply X; reflexivity | discriminate X]. }
        destruct (_ && _); destruct (DataExtraction.split_params t2);
          (split; [intros [m X]; discriminate X | intros X; contradiction]).
  - split; [intros _ | intros _; eexists; reflexivity].
    exists scheme, rest, netloc, tail. rewrite O, C.
    split; [reflexivity |]. split; [exact SN |]. left. discriminate.
  - split; [intros _ | intros _; eexists; reflexivity].
    exists scheme, rest, netloc, tail. rewrite O, C.
    split; [reflexivity |]. split; [exact SN |]. left. discriminate.
  - destruct (DataExtraction.partition (ch "#") tail) as [t1 fragment].
    destruct (DataExtraction.partition (ch "?") t1) as [t2 query].
    destruct (DataExtraction.checknetloc_raises lib netloc) eqn:K.
    + split; [intros _ | intros _; eexists; reflexivity].
      exists scheme, rest, netloc, tail. rewrite K. auto.
    + assert (N : ~ exists s r n t : text,
                  (scheme, rest) = (s, r) /\ DataExtraction.split_netloc r = (n, t)
                  /\ (contains (u "[") n <> contains (u "]") n
                      \/ (contains (u "[") n = true
                          /\ contains (u "]") n = true
                          /\ DataExtraction.check_bracketed_netloc lib n
                             <> None)
                      \/ DataExtraction.checknetloc_raises lib n = true)).
      { intros [s' [r' [n' [t' [E1 [E2 X]]]]]].
        injection E1 as <- <-. rewrite SN in E2. injection E2 as <- <-.
        rewrite O, C, K in X.
        destruct X as [X | [[X _] | X]];
          [apply X; reflexivity | discriminate X | discriminate X]. }
      destruct (_ && _); destruct (DataExtraction.split_params t2);
        (split; [intros [m X]; discriminate X | intros X; contradiction]).
Qed.

(** C8, amended.  [is_valid_content_link(url, base_url)] returns [True]
    exactly when [url] is non-empty and differs from [base_url], no reject
    pattern occurs in the lower-cased [url], [urlparse] accepts [url], and
    one of: (a) the host part contains one of the journal or resolver
    names; (b) the URL string ends in ".pdf" or contains
    "/sites/default/files/"; (c) the host part contains "aasld.org", the
    URL contains "/practice-guidelines/", [urlparse] accepts [base_url],
    and the path of the link, trailing slashes removed, differs from the
    page's path, trailing slashes removed, and starts with it.  It raises
    [ValueError], instead of returning, exactly when [url] passes the
    first two tests and [urlparse] rejects it, or when (a) and (b) fail,
    the first two conditions of (c) hold and [urlparse] rejects
    [base_url]. *)
Theorem valid_content_link_iff (lib : DataExtraction.url_library)
    (url base_url : text) :
  (DataExtraction.is_valid_content_link lib url base_url = DataExtraction.Ok true
   <-> url <> [] /\ url <> base_url
       /\ (forall pattern, In pattern DataExtraction.REJECT_PATTERNS ->
             ~ occurs pattern (lower url))
       /\ exists parsed,
            DataExtraction.urlparse lib url = DataExtraction.Ok parsed
            /\ (journal_host parsed \/ pdf_or_file_storage url
                \/ exists base,
                     DataExtraction.urlparse lib base_url = DataExtraction.Ok base
                     /\ below_page url parsed base))
  /\ ((exists message,
         DataExtraction.is_valid_content_link lib url base_url
         = DataExtraction.Raise message)
      <-> url <> [] /\ url <> base_url
          /\ (forall pattern, In pattern DataExtraction.REJECT_PATTERNS ->
                ~ occurs pattern (lower url))
          /\ (malformed lib url
              \/ exists parsed,
                   DataExtraction.urlparse lib url = DataExtraction.Ok parsed
                   /\ ~ journal_host parsed /\ ~ pdf_or_file_storage url
                   /\ occurs (u "aasld.org") (DataExtraction.netloc parsed)
                   /\ occurs (u "/practice-guidelines/") url
                   /\ malformed lib base_url)).
Proof.
  unfold DataExtraction.is_valid_content_link, malformed.
  destruct (truthy url) eqn:T; cbn [negb orb andb].
  2:{ assert (N : url = []) by (destruct url; [reflexivity | discriminate T]).
      split; (split; [try discriminate; intros [m X]; discriminate X |]);
        intros [H _]; contradiction. }
  apply truthy_iff in T.
  destruct (Py.eqb url base_url) eqn:E.
  { apply eqb_eq in E.
    split; (split; [try discriminate; intros [m X]; discriminate X |]);
      intros [_ [H _]]; contradiction. }
  apply eqb_neq in E.
  destruct (existsb _ DataExtraction.REJECT_PATTERNS) eqn:R.
  { apply existsb_occurs in R as [p [Hp Ho]].
    split; (split; [try discriminate; intros [m X]; discriminate X |]);
      intros [_ [_ [H _]]]; exfalso; exact (H p Hp Ho). }
  assert (NR : forall pattern, In pattern DataExtraction.REJECT_PATTERNS ->
                 ~ occurs pattern (lower url)).
  { intros p Hp Ho. apply (@existsb_none _ _ R). eauto. }
  destruct (DataExtraction.urlparse lib url) as [parsed|m] eqn:P;
    cbn [DataExtraction.bind].
  2:{ split; split.
      - discriminate.
      - intros [_ [_ [_ [parsed [X _]]]]]. discriminate X.
      - intros _. repeat split; auto. left. exists m. reflexivity.
      - intros _. exists m. reflexivity. }
  unfold journal_host, pdf_or_file_storage, below_page.
  destruct (existsb _ [u "journals.lww.com"; u "doi.org"; u "pubmed"]) eqn:J.
  { apply existsb_occurs in J. split; split.
    - intros _. repeat split; auto. exists parsed. split; [reflexivity | auto].
    - reflexivity.
    - intros [m X]. discriminate X.
    - intros [_ [_ [_ [[m X] | [q [X [N _]]]]]]]; [discriminate X |].
      injection X as <-. contradiction. }
  pose proof (@existsb_none _ _ J) as NJ.
  destruct (endswith (u ".pdf") url) eqn:F; cbn [orb].
  { apply endswith_iff in F. split; split.
    - intros _. repeat split; auto. exists parsed. split; [reflexivity | auto].
    - reflexivity.
    - intros [m X]. discriminate X.
    - intros [_ [_ [_ [[m X] | [q [X [_ [N _]]]]]]]]; [discriminate X |].
      exfalso. apply N. left. exact F. }
  assert (NF : ~ exists front, url = front ++ u ".pdf").
  { intros X. apply endswith_iff in X. congruence. }
  destruct (contains (u "/sites/default/files/") url) eqn:S.
  { apply contains_iff in S. split; split.
    - intros _. repeat split; auto. exists parsed. split; [reflexivity | auto].
    - reflexivity.
    - intros [m X]. discriminate X.
    - intros [_ [_ [_ [[m X] | [q [X [_ [N _]]]]]]]]; [discriminate X |].
      exfalso. apply N. right. exact S. }
  assert (NS : ~ occurs (u "/sites/default/files/") url).
  { intros X. apply contains_iff in X. congruence. }
  assert (NB : ~ ((exists front, url = front ++ u ".pdf")
                  \/ occurs (u "/sites/default/files/") url))
    by (intros [X | X]; contradiction).
  destruct (contains (u "aasld.org") (DataExtraction.netloc parsed)) eqn:A;
    cbn [andb].
  2:{ assert (NA : ~ occurs (u "aasld.org") (DataExtraction.netloc parsed)).
      { intros X. apply contains_iff in X. congruence. }
      split; split.
      - discriminate.
      - intros [_ [_ [_ [q [X [Y | [Y | [b [_ [Y _]]]]]]]]]];
          injection X as <-; contradiction.
      - intros [m X]. discriminate X.
      - intros [_ [_ [_ [[m X] | [q [X [_ [_ [Y _]]]]]]]]]; [discriminate X |].
        injection X as <-. contradiction. }
  apply contains_iff in A.
  destruct (contains (u "/practice-guidelines/") url) eqn:G.
  2:{ assert (NG : ~ occurs (u "/practice-guidelines/") url).
      { intros X. apply contains_iff in X. congruence. }
      split; split.
      - discriminate.
      - intros [_ [_ [_ [q [X [Y | [Y | [b [_ [_ [Y _]]]]]]]]]]];
          injection X as <-; contradiction.
      - intros [m X]. discriminate X.
      - intros [_ [_ [_ [[m X] | [q [X [_ [_ [_ [Y _]]]]]]]]]];
          [discriminate X | contradiction]. }
  apply contains_iff in G.
  destruct (DataExtraction.urlparse lib base_url) as [base|m] eqn:B;
    cbn [DataExtraction.bind].
  2:{ split; split.
      - discriminate.
      - intros [_ [_ [_ [q [X [Y | [Y | [b [Y _]]]]]]]]];
          injection X as <-; try contradiction. discriminate Y.
      - intros _. repeat split; auto. right. exists parsed.
        repeat split; auto. exists m. reflexivity.
      - intros _. exists m. reflexivity. }
  destruct (Py.eqb _ _) eqn:Q; cbn [negb andb].
  { apply eqb_eq in Q. split; split.
    - discriminate.
    - intros [_ [_ [_ [q [X [Y | [Y | [b [Y [_ [_ [Z _]]]]]]]]]]]];
        injection X as <-; try contradiction.
      injection Y as <-. contradiction.
    - intros [m X]. discriminate X.
    - intros [_ [_ [_ [[m X] | [q [X [_ [_ [_ [_ [m Y]]]]]]]]]]];
        discriminate. }
  apply eqb_neq in Q.
  destruct (startswith _ _) eqn:W.
  - apply startswith_iff in W. split; split.
    + intros _. repeat split; auto. exists parsed. split; [reflexivity |].
      right. right. exists base. repeat split; auto.
    + reflexivity.
    + intros [m X]. discriminate X.
    + intros [_ [_ [_ [[m X] | [q [X [_ [_ [_ [_ [m Y]]]]]]]]]]];
        discriminate.
  - split; split.
    + discriminate.
    + intros [_ [_ [_ [q [X [Y | [Y | [b [Y [_ [_ [_ Z]]]]]]]]]]]];
        injection X as <-; try contradiction.
      injection Y as <-. apply startswith_iff in Z. congruence.
    + intros [m X]. discriminate X.
    + intros [_ [_ [_ [[m X] | [q [X [_ [_ [_ [_ [m Y]]]]]]]]]]];
        discriminate.
Qed.

(** A host part with an opening bracket and no closing one: the filter
    raises, whatever the library. *)
Lemma malformed_host_raises (lib : DataExtraction.url_library) :
  DataExtraction.is_valid_content_link lib (u "http://[doi.org") sample_base_url
  = DataExtraction.Raise (u "Invalid IPv6 URL").
Proof. vm_compute. reflexivity. Qed.

(** ** The matcher *)

Section Matcher.

Lemma drop_while_length (p : char -> bool) (s : text) :
  length (drop_while p s) + run_len p s = length s.
Proof.
  induction s as [|c s IH]; simpl; [reflexivity|].
  destruct (p c); simpl; lia.
Qed.

Lemma firstn_run (p : char -> bool) (s : text) :
  firstn (length s - length (drop_while p s)) s = firstn (run_len p s) s.
Proof. f_equal. pose proof (drop_while_length p s). lia. Qed.

(** A greedy quantified class before a continuation that always accepts
    takes the whole run. *)
Lemma rep_greedy_total {R} (f : mstate -> R) (p : char -> bool)
    (lo : nat) (pv : option char) (s : text) (cs : list (nat * text)) :
  rep true p lo None pv s cs (fun st => Some (f st))
  = if lo <=? run_len p s
    then Some (f (MState (run_prev p pv s) (drop_while p s) cs))
    else None.
Proof.
  revert lo pv. induction s as [|c s IH]; intros lo pv.
  - destruct lo; reflexivity.
  - cbn [rep run_len run_prev drop_while can_more option_map andb].
    destruct (p c) eqn:Pc; cbn [andb].
    + rewrite IH. destruct lo as [|lo]; cbn [Nat.pred or_else Nat.leb].
      * reflexivity.
      * destruct (lo <=? run_len p s); reflexivity.
    + destruct lo; reflexivity.
Qed.

(** A greedy [.*] under DOTALL before a continuation that accepts at the
    end of the text takes the rest of the text. *)
Lemma rep_any_to_end {R} (k : mstate -> option R) (pv : option char)
    (s : text) (cs : list (nat * text)) (x : R) :
  k (MState (run_prev any pv s) [] cs) = Some x ->
  rep true any 0 None pv s cs k = Some x.
Proof.
  revert pv. induction s as [|c s IH]; intros pv H.
  - exact H.
  - cbn [rep can_more option_map andb any Nat.pred].
    cbn [run_prev any] in H. rewrite (IH _ H). reflexivity.
Qed.

Lemma exec_lit {R} (l : text) (st : mstate) (k : mstate -> option R) :
  exec (lit l) st k
  = if startswith l (rest st)
    then k (MState (run_prev any (prev st) l) (skipn (length l) (rest st)) (caps st))
    else None.
Proof.
  revert st. induction l as [|c l IH]; intros [pv s cs].
  - reflexivity.
  - cbn [lit exec rest caps prev startswith].
    destruct s as [|x s]; [reflexivity|].
    cbn [startswith length skipn run_prev any].
    rewrite N.eqb_sym. destruct (c =? x)%N eqn:E; [|reflexivity].
    apply N.eqb_eq in E. subst x. cbn [andb]. rewrite IH. reflexivity.
Qed.

(** A match attempt only moves forward in the text. *)
Lemma rep_forward {R} (g : bool) (p : char -> bool) (lo : nat) (hi : option nat)
    (pv : option char) (s : text) (cs : list (nat * text))
    (k : mstate -> option R) (x : R) :
  rep g p lo hi pv s cs k = Some x ->
  exists st', k st' = Some x /\ length (rest st') <= length s.
Proof.
  revert lo hi pv x. induction s as [|c s IH]; intros lo hi pv x H.
  - exists (MState pv [] cs). split; [|simpl; lia].
    cbn [rep] in H. destruct g, lo; cbn [or_else] in H; try discriminate;
      try exact H.
    destruct (k (MState pv [] cs)); [exact H | discriminate].
  - cbn [rep] in H.
    assert (M : forall y, (if p c && can_more hi
                   then rep g p (Nat.pred lo) (option_map Nat.pred hi) (Some c) s cs k
                   else None) = Some y ->
                exists st', k st' = Some y /\ length (rest st') <= length (c :: s)).
    { intros y Hy. destruct (p c && can_more hi); [|discriminate].
      destruct (IH _ _ _ _ Hy) as [st' [K L]]. exists st'. split; [exact K|].
      simpl. lia. }
    assert (S0 : forall y, match lo with
                           | 0 => k (MState pv (c :: s) cs)
                           | S _ => None
                           end = Some y ->
                exists st', k st' = Some y /\ length (rest st') <= length (c :: s)).
    { intros y Hy. destruct lo; [|discriminate].
      exists (MState pv (c :: s) cs). split; [exact Hy | simpl; lia]. }
    destruct g; unfold or_else in H.
    + destruct (if p c && can_more hi then _ else None) as [y|] eqn:E.
      * injection H as <-. apply M. reflexivity.
      * apply S0. exact H.
    + destruct (match lo with 0 => _ | S _ => None end) as [y|] eqn:E.
      * injection H as <-. apply S0. reflexivity.
      * apply M. exact H.
Qed.

Lemma exec_forward (r : regex) :
  forall (R : Type) (st : mstate) (k : mstate -> option R) (x : R),
  exec r st k = Some x ->
  exists st', k st' = Some x /\ length (rest st') <= length (rest st).
Proof.
  induction r as [|p|a IHa b IHb|a IHa b IHb|g p lo hi|n a IHa|a IHa|p|m];
    intros R st k x H; cbn [exec] in H.
  - eauto.
  - destruct (rest st) as [|c s] eqn:E; [discriminate|].
    destruct (p c); [|discriminate]. eexists. split; [exact H|]. simpl. lia.
  - destruct (IHa _ _ _ _ H) as [st1 [H1 L1]].
    destruct (IHb _ _ _ _ H1) as [st2 [H2 L2]].
    exists st2. split; [exact H2 | lia].
  - unfold or_else in H. destruct (exec a st k) as [y|] eqn:E.
    + injection H as <-. eauto.
    + eauto.
  - destruct st as [pv s cs]. apply (rep_forward _ _ _ _ _ _ _ _ H).
  - destruct (IHa _ _ _ _ H) as [st1 [H1 L1]].
    eexists. split; [exact H1 | exact L1].
  - destruct (exec a st _); [|discriminate]. eexists. split; [exact H | simpl; lia].
  - destruct (prev st) as [c|]; [|discriminate]. destruct (p c); [eauto | discriminate].
  - exists st. split; [|lia].
    destruct (rest st) as [|c s]; [exact H|].
    match type of H with
    | (if ?b then _ else _) = _ => destruct b
    end; [exact H | discriminate].
Qed.

Lemma match_here_forward r ma pv s m :
  match_here r ma pv s = Some m ->
  length (m_rest m) <= length s
  /\ m_text m = firstn (length s - length (m_rest m)) s
  /\ (ma = true -> length (m_rest m) <> length s).
Proof.
  unfold match_here. intros H.
  apply exec_forward in H as [st' [H L]]. cbn [rest] in L.
  destruct (ma && Nat.eqb _ _) eqn:E; [discriminate|].
  injection H as <-. cbn [m_rest m_text]. repeat split; [exact L|].
  intros ->. cbn [andb] in E. now apply Nat.eqb_neq in E.
Qed.

(** The fuel of [pieces] is enough: past it, more fuel changes nothing. *)
Lemma scan_enough_fuel fuel1 fuel2 r (ma : bool) pv (s : text) :
  2 * length s + (if ma then 0 else 1) < fuel1 ->
  2 * length s + (if ma then 0 else 1) < fuel2 ->
  scan fuel1 r ma pv s = scan fuel2 r ma pv s.
Proof.
  revert fuel2 ma pv s. induction fuel1 as [|f1 IH]; intros fuel2 ma pv s L1 L2; [lia|].
  destruct fuel2 as [|f2]; [lia|]. cbn [scan].
  destruct (match_here r ma pv s) as [m|] eqn:M.
  - destruct (match_here_forward _ _ _ _ M) as [Le [T A]].
    destruct (m_text m) as [|x t] eqn:E.
    + f_equal. destruct ma.
      * exfalso. apply A; [reflexivity|].
        assert (Z : length (firstn (length s - length (m_rest m)) s) = 0)
          by (rewrite <- T; reflexivity).
        rewrite length_firstn in Z. lia.
      * apply IH; lia.
    + f_equal.
      assert (Z : length (m_rest m) < length s).
      { assert (P : 0 < length (firstn (length s - length (m_rest m)) s))
          by (rewrite <- T; simpl; lia).
        rewrite length_firstn in P. lia. }
      apply IH; lia.
  - destruct s as [|c s]; [reflexivity|]. f_equal. apply IH; simpl in *; lia.
Qed.

Lemma pieces_enough_fuel r s fuel :
  2 * length s + 2 <= fuel -> scan fuel r false None s = pieces r s.
Proof. intros L. unfold pieces. apply scan_enough_fuel; lia. Qed.

(** One step of the scan, when no empty match is possible. *)
Lemma scan_miss fuel r pv c s :
  match_here r false pv (c :: s) = None ->
  scan (S fuel) r false pv (c :: s) = Lit c :: scan fuel r false (Some c) s.
Proof. intros H. cbn [scan]. rewrite H. reflexivity. Qed.

Lemma scan_hit fuel r pv s m x t :
  match_here r false pv s = Some m -> m_text m = x :: t ->
  scan (S fuel) r false pv s = Hit m :: scan fuel r false (m_prev m) (m_rest m).
Proof. intros H E. cbn [scan]. rewrite H, E. reflexivity. Qed.

(** Without a match, a substitution returns its text. *)
Lemma render_no_hit repl fuel r ma pv s :
  hits (scan fuel r ma pv s) = [] -> length s < fuel ->
  render repl (scan fuel r ma pv s) = s.
Proof.
  revert ma pv s. induction fuel as [|fuel IH]; intros ma pv s H L; [lia|].
  cbn [scan] in *. destruct (match_here r ma pv s) as [m|].
  - destruct (m_text m); discriminate.
  - destruct s as [|c s]; [reflexivity|].
    cbn [hits render] in *. f_equal. apply IH; [exact H | simpl in L; lia].
Qed.

Lemma sub_no_match r repl s :
  search r s = None -> sub r repl s = s.
Proof.
  unfold search, finditer, sub, pieces. intros H.
  apply render_no_hit; [|lia].
  destruct (hits _); [reflexivity | discriminate].
Qed.

End Matcher.

(** ** The substitutions of the text cleaner *)

Section Substitutions.

Lemma match_here_rep (p : char -> bool) (lo : nat) (pv : option char) (s : text) :
  match_here (Rep true p lo None) false pv s
  = if lo <=? run_len p s
    then Some (RMatch (firstn (run_len p s) s) [] (run_prev p pv s) (drop_while p s))
    else None.
Proof.
  unfold match_here. cbn [exec prev rest caps andb].
  rewrite (rep_greedy_total
             (fun st' => RMatch (firstn (length s - length (rest st')) s)
                           (caps st') (prev st') (rest st'))).
  cbn [rest caps prev]. now rewrite firstn_run.
Qed.

Lemma drop_while_shorter (p : char -> bool) (s : text) :
  length (drop_while p s) <= length s.
Proof. pose proof (drop_while_length p s). lia. Qed.

Lemma collapse_inside (p : char -> bool) (s : text) :
  collapse p true s = collapse p false (drop_while p s).
Proof.
  induction s as [|c s IH]; [reflexivity|].
  cbn [collapse drop_while]. destruct (p c) eqn:E; [exact IH|].
  cbn [collapse]. now rewrite E.
Qed.

(** [re.sub(p+, ' ', s)] *)
Lemma scan_plus_collapse (p : char -> bool) fuel pv s :
  length s < fuel ->
  render (rlit (u " ")) (scan fuel (plus p) false pv s) = collapse p false s.
Proof.
  revert pv s. induction fuel as [|fuel IH]; intros pv s L; [lia|].
  destruct s as [|c s].
  - cbn [scan]. unfold plus. rewrite match_here_rep. reflexivity.
  - pose proof (match_here_rep p 1 pv (c :: s)) as M. fold (plus p) in M.
    cbn [run_len drop_while run_prev collapse] in *.
    destruct (p c) eqn:Pc.
    + cbn [Nat.leb firstn] in M.
      erewrite scan_hit by (try exact M; reflexivity).
      cbn [render m_prev m_rest]. rewrite IH.
      * rewrite collapse_inside. reflexivity.
      * pose proof (drop_while_shorter p s). simpl in L. lia.
    + cbn [Nat.leb] in M. rewrite (@scan_miss fuel _ _ _ _ M).
      cbn [render]. f_equal. apply IH. simpl in L. lia.
Qed.

Lemma sub_plus_collapse (p : char -> bool) (s : text) :
  sub (plus p) (rlit (u " ")) s = collapse p false s.
Proof. unfold sub, pieces. apply scan_plus_collapse. lia. Qed.

(** [re.sub(([p])([q]), '\1 \2', s)], when no character is of both
    classes. *)
Lemma match_here_pair (p q : char -> bool) (pv : option char) (s : text) :
  match_here (Seq (Grp 1 (Chr p)) (Grp 2 (Chr q))) false pv s
  = match s with
    | a :: b :: s' =>
        if p a && q b
        then Some (RMatch [a; b] [(2, [b]); (1, [a])] (Some b) s')
        else None
    | _ => None
    end.
Proof.
  unfold match_here. destruct s as [|a [|b s']]; cbn [exec rest caps prev].
  - reflexivity.
  - destruct (p a); reflexivity.
  - destruct (p a); [|reflexivity]. cbn [rest caps prev].
    destruct (q b); [|reflexivity]. cbn [andb rest caps prev].
    replace (length (a :: b :: s') - length (b :: s')) with 1 by (cbn [length]; lia).
    replace (length (b :: s') - length s') with 1 by (cbn [length]; lia).
    replace (length (a :: b :: s') - length s') with 2 by (cbn [length]; lia).
    reflexivity.
Qed.

Lemma space_between_cons (p q : char -> bool) (a b : char) (s : text) :
  space_between p q (a :: b :: s)
  = if p a && q b then a :: blank :: space_between p q (b :: s)
    else a :: space_between p q (b :: s).
Proof. reflexivity. Qed.

Lemma space_between_head (p q : char -> bool) (b : char) (s : text) :
  p b = false -> space_between p q (b :: s) = b :: space_between p q s.
Proof. intros H. destruct s; cbn [space_between]; [|rewrite H]; reflexivity. Qed.

Lemma scan_pair_space_between (p q : char -> bool) fuel pv s :
  (forall c, q c = true -> p c = false) ->
  length s < fuel ->
  render CleanData.spaced (scan fuel (Seq (Grp 1 (Chr p)) (Grp 2 (Chr q))) false pv s)
  = space_between p q s.
Proof.
  intros D. revert pv s. induction fuel as [|fuel IH]; intros pv s L; [lia|].
  pose proof (match_here_pair p q pv s) as M.
  destruct s as [|a [|b s']].
  - cbn [scan]. rewrite M. reflexivity.
  - rewrite (@scan_miss fuel _ _ _ _ M). cbn [render]. rewrite IH by (simpl in *; lia). reflexivity.
  - destruct (p a && q b) eqn:E.
    + erewrite scan_hit by (try exact M; reflexivity).
      cbn [render m_prev m_rest]. rewrite IH by (simpl in *; lia).
      rewrite space_between_cons, E.
      apply andb_true_iff in E as [_ Qb].
      rewrite (@space_between_head p q b s' (D b Qb)). reflexivity.
    + rewrite (@scan_miss fuel _ _ _ _ M). cbn [render]. rewrite IH by (simpl in *; lia).
      rewrite space_between_cons, E. reflexivity.
Qed.

Lemma sub_pair_space_between (p q : char -> bool) (s : text) :
  (forall c, q c = true -> p c = false) ->
  sub (Seq (Grp 1 (Chr p)) (Grp 2 (Chr q))) CleanData.spaced s = space_between p q s.
Proof. intros D. unfold sub, pieces. apply scan_pair_space_between; [exact D | lia]. Qed.

(** [re.sub(c{3,}, ccc, s)] *)
Lemma squeeze_short (c : char) (k : nat) (s : text) :
  k + run_len (fun x => (x =? c)%N) s <= 3 -> squeeze c k s = squeeze c 0 s.
Proof.
  revert k. induction s as [|x s IH]; intros k H; [reflexivity|].
  cbn [squeeze run_len] in *. destruct (x =? c)%N; [|reflexivity].
  assert (K : (k <? 3) = true) by (apply Nat.ltb_lt; lia).
  rewrite K. cbn [Nat.ltb Nat.leb]. f_equal.
  rewrite (IH (S k)) by lia. rewrite (IH 1) by lia. reflexivity.
Qed.

Lemma squeeze_long (c : char) (k : nat) (s : text) :
  3 <= k -> squeeze c k s = squeeze c 0 (drop_while (fun x => (x =? c)%N) s).
Proof.
  revert k. induction s as [|x s IH]; intros k H; [reflexivity|].
  cbn [squeeze drop_while]. destruct (x =? c)%N eqn:E.
  - assert (K : (k <? 3) = false) by (apply Nat.ltb_ge; lia).
    rewrite K. apply IH. lia.
  - cbn [squeeze]. rewrite E. reflexivity.
Qed.

Lemma squeeze_run (c : char) (s : text) :
  3 <= run_len (fun x => (x =? c)%N) s ->
  squeeze c 0 s
  = c :: c :: c :: squeeze c 0 (drop_while (fun x => (x =? c)%N) s).
Proof.
  intros H.
  destruct s as [|x1 s]; cbn [run_len] in H; [lia|].
  destruct (x1 =? c)%N eqn:E1; [|lia]. apply N.eqb_eq in E1. subst x1.
  destruct s as [|x2 s]; cbn [run_len] in H; [lia|].
  destruct (x2 =? c)%N eqn:E2; [|lia]. apply N.eqb_eq in E2. subst x2.
  destruct s as [|x3 s]; cbn [run_len] in H; [lia|].
  destruct (x3 =? c)%N eqn:E3; [|lia]. apply N.eqb_eq in E3. subst x3.
  cbn [squeeze drop_while]. rewrite !N.eqb_refl. cbn [Nat.ltb Nat.leb].
  do 3 f_equal. apply squeeze_long. lia.
Qed.

Lemma scan_squeeze (c : char) fuel pv s :
  length s < fuel ->
  render (rlit [c; c; c])
    (scan fuel (Rep true (fun x => (x =? c)%N) 3 None) false pv s)
  = squeeze c 0 s.
Proof.
  revert pv s. induction fuel as [|fuel IH]; intros pv s L; [lia|].
  pose proof (match_here_rep (fun x => (x =? c)%N) 3 pv s) as M.
  destruct (3 <=? run_len (fun x => (x =? c)%N) s) eqn:E.
  - apply Nat.leb_le in E.
    assert (T : exists x t, firstn (run_len (fun x => (x =? c)%N) s) s = x :: t).
    { destruct s as [|x s]; cbn [run_len] in *; [lia|].
      destruct (x =? c)%N; [|lia]. cbn [firstn]. eauto. }
    destruct T as [x [t T]].
    rewrite (@scan_hit fuel _ _ _ _ x t M T).
    cbn [render m_prev m_rest]. rewrite IH.
    + rewrite (squeeze_run c s E). reflexivity.
    + pose proof (drop_while_length (fun x => (x =? c)%N) s). lia.
  - apply Nat.leb_gt in E. destruct s as [|x s].
    + cbn [scan]. rewrite M. reflexivity.
    + rewrite (@scan_miss fuel _ _ _ _ M). cbn [render].
      rewrite IH by (simpl in *; lia).
      cbn [squeeze run_len] in *. destruct (x =? c)%N; [|reflexivity].
      cbn [Nat.ltb Nat.leb]. f_equal. symmetry. apply squeeze_short. lia.
Qed.

Lemma sub_squeeze (c : char) (s : text) :
  sub (Rep true (fun x => (x =? c)%N) 3 None) (rlit [c; c; c]) s = squeeze c 0 s.
Proof. unfold sub, pieces. apply scan_squeeze. lia. Qed.

(** [re.sub(pat.*$, '', s)] under MULTILINE | DOTALL, for a literal [pat] *)
Lemma match_here_cut (pat : text) (pv : option char) (s : text) :
  match_here (Seq (Seq (lit pat) (star any)) (Eol true)) false pv s
  = if startswith pat s
    then Some (RMatch s []
                 (run_prev any (run_prev any pv pat) (skipn (length pat) s)) [])
    else None.
Proof.
  unfold match_here. cbn [exec]. rewrite exec_lit. cbn [rest prev caps].
  destruct (startswith pat s); [|reflexivity].
  unfold star. cbn [exec rest prev caps].
  apply rep_any_to_end. cbn [exec rest prev caps andb length].
  rewrite Nat.sub_0_r, firstn_all. reflexivity.
Qed.

Lemma scan_cut_end (pat : text) fuel pv :
  pat <> [] ->
  scan fuel (Seq (Seq (lit pat) (star any)) (Eol true)) false pv [] = [].
Proof.
  intros N. destruct fuel; [reflexivity|].
  cbn [scan]. rewrite match_here_cut.
  destruct pat; [contradiction | reflexivity].
Qed.

Lemma scan_cut (pat : text) fuel pv s :
  pat <> [] -> length s < fuel ->
  render [] (scan fuel (Seq (Seq (lit pat) (star any)) (Eol true)) false pv s)
  = cut_at pat s.
Proof.
  intros N. revert pv s. induction fuel as [|fuel IH]; intros pv s L; [lia|].
  destruct s as [|c s].
  - rewrite scan_cut_end by exact N. reflexivity.
  - pose proof (match_here_cut pat pv (c :: s)) as M.
    cbn [cut_at]. destruct (startswith pat (c :: s)).
    + rewrite (@scan_hit fuel _ _ _ _ c s M eq_refl).
      cbn [render m_prev m_rest]. rewrite scan_cut_end by exact N. reflexivity.
    + rewrite (@scan_miss fuel _ _ _ _ M). cbn [render]. f_equal.
      apply IH. simpl in L. lia.
Qed.

Lemma sub_cut (pat : text) (s : text) :
  pat <> [] ->
  sub (Seq (Seq (lit pat) (star any)) (Eol true)) [] s = cut_at pat s.
Proof. intros N. unfold sub, pieces. apply scan_cut; [exact N | lia]. Qed.

(** [re.sub(\n\s*\n+, ..., s)] on a text without a newline *)
Lemma match_here_blank_lines ma pv s :
  match s with c :: _ => (c =? CleanData.nl)%N = false | [] => True end ->
  match_here CleanData.re_blank_lines ma pv s = None.
Proof.
  unfold match_here, CleanData.re_blank_lines. cbn [exec rest].
  destruct s as [|c s]; [reflexivity|]. intros ->. reflexivity.
Qed.

Lemma scan_blank_lines fuel ma pv s :
  forallb (fun c => negb (c =? CleanData.nl)%N) s = true ->
  hits (scan fuel CleanData.re_blank_lines ma pv s) = [].
Proof.
  revert ma pv s. induction fuel as [|fuel IH]; intros ma pv s H; [reflexivity|].
  cbn [scan]. rewrite match_here_blank_lines.
  - destruct s as [|c s]; [reflexivity|]. cbn [hits]. apply IH.
    cbn [forallb] in H. now apply andb_true_iff in H.
  - destruct s as [|c s]; [exact I|]. cbn [forallb] in H.
    apply andb_true_iff in H as [H _]. now apply negb_true_iff in H.
Qed.

Lemma sub_blank_lines repl s :
  forallb (fun c => negb (c =? CleanData.nl)%N) s = true ->
  sub CleanData.re_blank_lines repl s = s.
Proof.
  intros H. apply sub_no_match. unfold search, finditer, pieces.
  now rewrite scan_blank_lines.
Qed.

End Substitutions.

(** ** Character classes *)

Section Classes.

Ltac class_facts :=
  unfold is_blank, CleanData.is_stop, is_space, is_lower_az, is_upper_AZ;
  unfold either, just, between, blank, CleanData.tab, CleanData.nl, ch;
  repeat match goal with
         | |- context [N_of_ascii ?a] =>
             let v := eval vm_compute in (N_of_ascii a) in
             change (N_of_ascii a) with v
         end;
  repeat rewrite ?orb_true_iff, ?andb_true_iff, ?orb_false_iff, ?andb_false_iff,
    ?negb_true_iff, ?negb_false_iff, ?N.leb_le, ?N.leb_gt, ?N.eqb_eq, ?N.eqb_neq;
  lia.

Lemma lower_not_space c : is_lower_az c = true -> is_space c = false.
Proof. class_facts. Qed.

Lemma upper_not_space c : is_upper_AZ c = true -> is_space c = false.
Proof. class_facts. Qed.

Lemma stop_not_space c : CleanData.is_stop c = true -> is_space c = false.
Proof. class_facts. Qed.

Lemma upper_not_lower c : is_upper_AZ c = true -> is_lower_az c = false.
Proof. class_facts. Qed.

Lemma upper_not_stop c : is_upper_AZ c = true -> CleanData.is_stop c = false.
Proof. class_facts. Qed.

Lemma blank_is_space c : is_blank c = true -> is_space c = true.
Proof. class_facts. Qed.

Lemma blank_or_not_space_no_newline c :
  negb (is_space c) || (c =? blank)%N = true -> negb (c =? CleanData.nl)%N = true.
Proof. class_facts. Qed.

End Classes.

(** ** Stretches of a text *)

Section Parts.

Lemma drop_while_part (p : char -> bool) (s : text) :
  exists l, s = l ++ drop_while p s.
Proof.
  induction s as [|c s [l IH]]; [exists []; reflexivity|].
  cbn [drop_while]. destruct (p c).
  - exists (c :: l). simpl. now rewrite <- IH.
  - exists []. reflexivity.
Qed.

Lemma rstrip_by_part (p : char -> bool) (s : text) :
  exists r, s = rstrip_by p s ++ r.
Proof.
  unfold rstrip_by. destruct (drop_while_part p (rev s)) as [l H].
  exists (rev l). rewrite <- rev_app_distr, <- H. now rewrite rev_involutive.
Qed.

Lemma strip_part (s : text) : part_of (strip s) s.
Proof.
  unfold strip, lstrip_by.
  destruct (drop_while_part is_space s) as [l H].
  destruct (rstrip_by_part is_space (drop_while is_space s)) as [r H'].
  exists l, r. now rewrite <- H', <- H.
Qed.

Lemma cut_at_prefix (pat s : text) : exists r, s = cut_at pat s ++ r.
Proof.
  induction s as [|c s [r IH]]; [exists []; reflexivity|].
  cbn [cut_at]. destruct (startswith pat (c :: s)).
  - exists (c :: s). reflexivity.
  - exists r. simpl. now rewrite <- IH.
Qed.

Lemma cut_at_part (pat s : text) : part_of (cut_at pat s) s.
Proof. destruct (cut_at_prefix pat s) as [r H]. exists [], r. exact H. Qed.

Lemma part_of_trans (a b c : text) : part_of a b -> part_of b c -> part_of a c.
Proof.
  intros [l [r ->]] [l' [r' ->]]. exists (l' ++ l), (r ++ r').
  now rewrite !app_assoc.
Qed.

Lemma forallb_part (f : char -> bool) (y s : text) :
  part_of y s -> forallb f s = true -> forallb f y = true.
Proof.
  intros [l [r ->]]. rewrite !forallb_app, !andb_true_iff. tauto.
Qed.

Lemma adj_ok_weaken bad pv s :
  adj_ok bad pv s = true -> adj_ok bad None s = true.
Proof.
  destruct s as [|c s]; [reflexivity|]. cbn [adj_ok].
  rewrite andb_true_iff. intros [_ H]. exact H.
Qed.

Lemma adj_ok_app bad pv a b :
  adj_ok bad pv (a ++ b) = true ->
  adj_ok bad pv a = true /\ adj_ok bad None b = true.
Proof.
  revert pv. induction a as [|c a IH]; intros pv H.
  - split; [reflexivity | exact (adj_ok_weaken _ _ _ H)].
  - cbn [app adj_ok] in *. apply andb_true_iff in H as [H1 H2].
    destruct (IH _ H2) as [Ha Hb]. now rewrite H1, Ha.
Qed.

Lemma adj_ok_part bad y s :
  part_of y s -> adj_ok bad None s = true -> adj_ok bad None y = true.
Proof.
  intros [l [r ->]] H.
  apply adj_ok_app in H as [_ H]. apply adj_ok_app in H as [H _]. exact H.
Qed.

Lemma runs_ok_weaken c k k' s :
  k' <= k -> runs_ok c k s = true -> runs_ok c k' s = true.
Proof.
  destruct s as [|x s]; [reflexivity|]. cbn [runs_ok]. intros L.
  destruct (x =? c)%N; [|auto]. rewrite !andb_true_iff, !Nat.ltb_lt.
  intros [H1 H2]. split; [lia|]. revert k k' L H1 H2.
  induction s as [|y s IH]; intros k k' L H1 H2; [reflexivity|].
  cbn [runs_ok] in *. destruct (y =? c)%N; [|exact H2].
  rewrite andb_true_iff, Nat.ltb_lt in *. destruct H2 as [H2 H3].
  split; [lia|]. apply (IH (S k) (S k')); [lia | lia | exact H3].
Qed.

Lemma runs_ok_app c k a b :
  runs_ok c k (a ++ b) = true ->
  runs_ok c k a = true /\ runs_ok c 0 b = true.
Proof.
  revert k. induction a as [|x a IH]; intros k H.
  - split; [reflexivity|]. apply (@runs_ok_weaken c k 0 b); [lia | exact H].
  - cbn [app runs_ok] in *. destruct (x =? c)%N.
    + apply andb_true_iff in H as [H1 H2]. destruct (IH _ H2) as [Ha Hb].
      now rewrite H1, Ha.
    + apply IH. exact H.
Qed.

Lemma runs_ok_part c y s :
  part_of y s -> runs_ok c 0 s = true -> runs_ok c 0 y = true.
Proof.
  intros [l [r ->]] H.
  apply runs_ok_app in H as [_ H]. apply runs_ok_app in H as [H _]. exact H.
Qed.

Lemma no_occ_part pat y s :
  part_of y s -> no_occ pat s = true -> no_occ pat y = true.
Proof.
  unfold no_occ. intros [l [r ->]] H.
  apply negb_true_iff in H. apply negb_true_iff.
  destruct (contains pat y) eqn:E; [|reflexivity].
  apply contains_iff in E as [a [b ->]].
  assert (X : contains pat (l ++ (a ++ pat ++ b) ++ r) = true).
  { apply contains_iff. exists (l ++ a), (b ++ r). now rewrite !app_assoc. }
  congruence.
Qed.

End Parts.

(** ** What each step of the cleaner establishes, keeps, and leaves alone *)

Section Steps.

(** *** Collapsing runs *)

Lemma collapse_blank (p : char -> bool) (inside : bool) (s : text) :
  forallb (fun c => negb (p c) || (c =? blank)%N) (collapse p inside s) = true.
Proof.
  revert inside. induction s as [|c s IH]; intros inside; [reflexivity|].
  cbn [collapse]. destruct (p c) eqn:E.
  - destruct inside; [apply IH|]. cbn [forallb]. rewrite IH.
    now rewrite N.eqb_refl, orb_true_r.
  - cbn [forallb]. now rewrite E, IH.
Qed.

Lemma collapse_single (p : char -> bool) (inside : bool) pv (s : text) :
  (forall x, pv = Some x -> p x = true -> inside = true) ->
  adj_ok (pair_of p p) pv (collapse p inside s) = true.
Proof.
  revert inside pv. induction s as [|c s IH]; intros inside pv H; [reflexivity|].
  cbn [collapse]. destruct (p c) eqn:E.
  - destruct inside; [now apply IH|].
    cbn [adj_ok]. rewrite IH by reflexivity. rewrite andb_true_r.
    destruct pv as [x|]; [|reflexivity]. unfold pair_of.
    destruct (p x) eqn:Px; [|reflexivity].
    specialize (H x eq_refl Px). discriminate.
  - cbn [adj_ok]. rewrite IH.
    + rewrite andb_true_r. destruct pv as [x|]; [|reflexivity].
      unfold pair_of. now rewrite E, andb_false_r.
    + intros x [= <-] Px. congruence.
Qed.

Lemma collapse_fixed (p : char -> bool) (inside : bool) pv (s : text) :
  forallb (fun c => negb (p c) || (c =? blank)%N) s = true ->
  adj_ok (pair_of p p) pv s = true ->
  (inside = true -> exists x, pv = Some x /\ p x = true) ->
  collapse p inside s = s.
Proof.
  revert inside pv. induction s as [|c s IH]; intros inside pv A B H; [reflexivity|].
  cbn [collapse forallb adj_ok] in *.
  apply andb_true_iff in A as [A1 A2]. apply andb_true_iff in B as [B1 B2].
  destruct (p c) eqn:E.
  - cbn [negb orb] in A1. apply N.eqb_eq in A1. subst c.
    destruct inside.
    + destruct (H eq_refl) as [x [-> Px]]. unfold pair_of in B1.
      rewrite Px, E in B1. discriminate.
    + f_equal. apply (IH true (Some blank)); auto. intros _. eauto.
  - f_equal. apply (IH false (Some c)); auto. discriminate.
Qed.

Lemma forallb_weaken (f g : char -> bool) (s : text) :
  (forall c, f c = true -> g c = true) ->
  forallb f s = true -> forallb g s = true.
Proof.
  intros H. induction s as [|c s IH]; [reflexivity|]. cbn [forallb].
  rewrite !andb_true_iff. intros [A B]. auto.
Qed.

Lemma adj_ok_weaker (bad bad' : char -> char -> bool) pv s :
  (forall a b, bad' a b = true -> bad a b = true) ->
  adj_ok bad pv s = true -> adj_ok bad' pv s = true.
Proof.
  intros H. revert pv. induction s as [|c s IH]; intros pv; [reflexivity|].
  cbn [adj_ok]. rewrite !andb_true_iff. intros [A B]. split; [|auto].
  destruct pv as [x|]; [|reflexivity].
  destruct (bad' x c) eqn:E; [|reflexivity].
  rewrite (H _ _ E) in A. discriminate.
Qed.

(** *** Spacing pairs *)

Lemma space_between_forallb (f p q : char -> bool) (s : text) :
  f blank = true -> forallb f s = true ->
  forallb f (space_between p q s) = true.
Proof.
  intros Fb. induction s as [|a s IH]; [reflexivity|].
  destruct s as [|b s]; [auto|].
  rewrite space_between_cons. intros H.
  pose proof H as H'. cbn [forallb] in H'. apply andb_true_iff in H' as [Fa H'].
  specialize (IH H').
  destruct (p a && q b); cbn [forallb]; now rewrite Fa, ?Fb, IH.
Qed.

Lemma space_between_keeps bad (p q : char -> bool) pv (s : text) :
  (forall a b, p a = true -> q b = true ->
     bad a blank = false /\ bad blank b = false) ->
  adj_ok bad pv s = true ->
  adj_ok bad pv (space_between p q s) = true.
Proof.
  intros K. revert pv. induction s as [|a s IH]; intros pv H; [reflexivity|].
  destruct s as [|b s]; [exact H|].
  rewrite space_between_cons.
  pose proof H as H'. cbn [adj_ok] in H'. apply andb_true_iff in H' as [H1 H2].
  destruct (p a && q b) eqn:E.
  - apply andb_true_iff in E as [Pa Qb]. destruct (K a b Pa Qb) as [K1 K2].
    cbn [adj_ok]. rewrite H1, K1. cbn [negb andb].
    apply IH. cbn [adj_ok] in *. apply andb_true_iff in H2 as [_ H2].
    now rewrite K2, H2.
  - cbn [adj_ok]. rewrite H1. cbn [andb]. apply IH. exact H2.
Qed.

Lemma space_between_splits (p q : char -> bool) pv (s : text) :
  p blank = false -> q blank = false ->
  match pv, s with
  | Some x, c :: _ => pair_of p q x c = false
  | _, _ => True
  end ->
  adj_ok (pair_of p q) pv (space_between p q s) = true.
Proof.
  intros Pb Qb. revert pv. induction s as [|a s IH]; intros pv H; [reflexivity|].
  assert (Hd : match pv with Some x => negb (pair_of p q x a) | None => true end = true).
  { destruct pv as [x|]; [|reflexivity]. now rewrite H. }
  destruct s as [|b s].
  - cbn [space_between adj_ok]. now rewrite Hd.
  - rewrite space_between_cons. destruct (p a && q b) eqn:E.
    + cbn [adj_ok]. rewrite Hd. unfold pair_of at 1. rewrite Qb, andb_false_r.
      cbn [negb andb]. apply IH. unfold pair_of. now rewrite Pb.
    + cbn [adj_ok]. rewrite Hd. cbn [andb]. apply IH. exact E.
Qed.

Lemma space_between_fixed (p q : char -> bool) pv (s : text) :
  adj_ok (pair_of p q) pv s = true -> space_between p q s = s.
Proof.
  revert pv. induction s as [|a s IH]; intros pv H; [reflexivity|].
  destruct s as [|b s]; [reflexivity|].
  rewrite space_between_cons.
  cbn [adj_ok] in H. apply andb_true_iff in H as [_ H].
  pose proof H as H'. cbn [adj_ok] in H'. apply andb_true_iff in H' as [H1 _].
  apply negb_true_iff in H1. unfold pair_of in H1. rewrite H1.
  f_equal. apply (IH (Some a)). exact H.
Qed.

(** *** Squeezing runs *)

Lemma squeeze_forallb (f : char -> bool) c k (s : text) :
  forallb f s = true -> forallb f (squeeze c k s) = true.
Proof.
  revert k. induction s as [|x s IH]; intros k H; [reflexivity|].
  cbn [forallb squeeze] in *. apply andb_true_iff in H as [H1 H2].
  destruct (x =? c)%N; [destruct (k <? 3)|]; cbn [forallb]; rewrite ?H1; cbn [andb]; auto.
Qed.

Lemma squeeze_keeps bad c k pv (s : text) :
  (0 < k -> pv = Some c) ->
  adj_ok bad pv s = true -> adj_ok bad pv (squeeze c k s) = true.
Proof.
  revert k pv. induction s as [|x s IH]; intros k pv K H; [reflexivity|].
  cbn [adj_ok squeeze] in *. apply andb_true_iff in H as [H1 H2].
  destruct (x =? c)%N eqn:E.
  - apply N.eqb_eq in E. subst x. destruct (k <? 3) eqn:L.
    + cbn [adj_ok]. rewrite H1. cbn [andb]. apply IH; auto.
    + apply Nat.ltb_ge in L. rewrite K by lia. apply IH; auto.
  - cbn [adj_ok]. rewrite H1. cbn [andb]. apply IH; [lia | exact H2].
Qed.

Lemma squeeze_runs c k (s : text) :
  runs_ok c (Nat.min k 3) (squeeze c k s) = true.
Proof.
  revert k. induction s as [|x s IH]; intros k; [reflexivity|].
  cbn [squeeze]. destruct (x =? c)%N eqn:E.
  - destruct (k <? 3) eqn:L.
    + apply Nat.ltb_lt in L. cbn [runs_ok]. rewrite E.
      replace (Nat.min k 3) with k by lia.
      specialize (IH (S k)). replace (Nat.min (S k) 3) with (S k) in IH by lia.
      rewrite IH, andb_true_r. apply Nat.ltb_lt. lia.
    + apply Nat.ltb_ge in L. specialize (IH (S k)).
      replace (Nat.min (S k) 3) with 3 in IH by lia.
      replace (Nat.min k 3) with 3 by lia. exact IH.
  - cbn [runs_ok]. rewrite E. apply (IH 0).
Qed.

Lemma squeeze_keeps_runs d c k j (s : text) :
  d <> c -> (0 < j -> k = 0) ->
  runs_ok d k s = true -> runs_ok d k (squeeze c j s) = true.
Proof.
  intros N. revert k j. induction s as [|x s IH]; intros k j K H; [reflexivity|].
  cbn [runs_ok squeeze] in *. destruct (x =? c)%N eqn:E.
  - apply N.eqb_eq in E. subst x.
    assert (D : (c =? d)%N = false) by (apply N.eqb_neq; congruence).
    rewrite D in H. destruct (j <? 3) eqn:L.
    + cbn [runs_ok]. rewrite D. apply IH; [lia | exact H].
    + apply Nat.ltb_ge in L. assert (Z : k = 0) by (apply K; lia). subst k.
      apply IH; [lia | exact H].
  - cbn [runs_ok]. destruct (x =? d)%N.
    + apply andb_true_iff in H as [H1 H2]. rewrite H1. cbn [andb].
      apply IH; [lia | exact H2].
    + apply IH; [lia | exact H].
Qed.

Lemma squeeze_fixed c k (s : text) :
  runs_ok c k s = true -> squeeze c k s = s.
Proof.
  revert k. induction s as [|x s IH]; intros k H; [reflexivity|].
  cbn [runs_ok squeeze] in *. destruct (x =? c)%N.
  - apply andb_true_iff in H as [H1 H2].
    assert (L : (k <? 3) = true).
    { apply Nat.ltb_lt. apply Nat.ltb_lt in H1. lia. }
    rewrite L. f_equal. auto.
  - f_equal. auto.
Qed.

(** *** Cutting at the copyright marker *)

Lemma cut_at_clears (pat s : text) :
  pat <> [] -> no_occ pat (cut_at pat s) = true.
Proof.
  intros N. unfold no_occ. apply negb_true_iff.
  induction s as [|c s IH].
  - destruct pat; [contradiction | reflexivity].
  - cbn [cut_at]. destruct (startswith pat (c :: s)) eqn:E.
    + destruct pat; [contradiction | reflexivity].
    + cbn [contains]. rewrite IH, orb_false_r.
      destruct (startswith pat (c :: cut_at pat s)) eqn:E'; [|reflexivity].
      apply startswith_iff in E' as [r E'].
      destruct (cut_at_prefix pat s) as [r' H].
      assert (X : startswith pat (c :: s) = true).
      { apply startswith_iff. exists (r ++ r').
        rewrite app_assoc, <- E'. simpl. now rewrite <- H. }
      congruence.
Qed.

Lemma cut_at_fixed (pat s : text) :
  no_occ pat s = true -> cut_at pat s = s.
Proof.
  unfold no_occ. induction s as [|c s IH]; [reflexivity|].
  cbn [contains cut_at]. rewrite negb_true_iff, orb_false_iff.
  intros [H1 H2]. rewrite H1. f_equal. apply IH. now apply negb_true_iff.
Qed.

(** *** Stripping *)

Lemma drop_while_snoc (p : char -> bool) (l : text) (c : char) :
  p c = false -> drop_while p (l ++ [c]) = drop_while p l ++ [c].
Proof.
  intros H. induction l as [|x l IH]; cbn [app drop_while].
  - now rewrite H.
  - destruct (p x); [exact IH | reflexivity].
Qed.

Lemma rstrip_by_cons (p : char -> bool) (c : char) (s : text) :
  p c = false -> rstrip_by p (c :: s) = c :: rstrip_by p s.
Proof.
  intros H. unfold rstrip_by. cbn [rev].
  rewrite drop_while_snoc by exact H. rewrite rev_app_distr. reflexivity.
Qed.

Lemma drop_while_idem (p : char -> bool) (s : text) :
  drop_while p (drop_while p s) = drop_while p s.
Proof.
  induction s as [|c s IH]; [reflexivity|]. cbn [drop_while].
  destruct (p c) eqn:E; [exact IH|]. cbn [drop_while]. now rewrite E.
Qed.

Lemma rstrip_by_idem (p : char -> bool) (s : text) :
  rstrip_by p (rstrip_by p s) = rstrip_by p s.
Proof.
  unfold rstrip_by. now rewrite rev_involutive, drop_while_idem.
Qed.

Lemma strip_idem (s : text) : strip (strip s) = strip s.
Proof.
  unfold strip, lstrip_by.
  assert (H : forall w, drop_while is_space w = w ->
                drop_while is_space (rstrip_by is_space w) = rstrip_by is_space w).
  { intros [|c w] Hw; [reflexivity|].
    cbn [drop_while] in Hw. destruct (is_space c) eqn:E.
    - exfalso. pose proof (drop_while_shorter is_space w) as L.
      rewrite Hw in L. simpl in L. lia.
    - rewrite rstrip_by_cons by exact E. cbn [drop_while]. now rewrite E. }
  rewrite H by apply drop_while_idem. apply rstrip_by_idem.
Qed.

End Steps.

(** ** The text cleaner *)

Section Cleaner.

Lemma sub_re_dots (t : text) :
  sub CleanData.re_dots (rlit (u "...")) t = squeeze (ch ".") 0 t.
Proof. exact (sub_squeeze (ch ".") t). Qed.

Lemma sub_re_dashes (t : text) :
  sub CleanData.re_dashes (rlit (u "---")) t = squeeze (ch "-") 0 t.
Proof. exact (sub_squeeze (ch "-") t). Qed.

Lemma sub_re_copyright (t : text) :
  sub CleanData.re_copyright [] t = cut_at (u "Copyright") t.
Proof. apply (@sub_cut (u "Copyright") t). discriminate. Qed.

Lemma collapse_blanks_fixed (t : text) :
  forallb (fun c => negb (is_space c) || (c =? blank)%N) t = true ->
  adj_ok (pair_of is_space is_space) None t = true ->
  collapse is_blank false t = t.
Proof.
  intros A B. apply (@collapse_fixed is_blank false None).
  - revert A. apply forallb_weaken. intros c H.
    destruct (is_blank c) eqn:E; [|reflexivity].
    apply blank_is_space in E. now rewrite E in H.
  - revert B. apply adj_ok_weaker. unfold pair_of. intros a b H.
    apply andb_true_iff in H as [Ha Hb].
    now rewrite (blank_is_space _ Ha), (blank_is_space _ Hb).
  - discriminate.
Qed.

(** The substitutions of [clean_text], taken together. *)
Lemma clean_text_finish (s : text) :
  s <> [] -> CleanData.clean_text s = finish (CleanData.strip_navigation s).
Proof.
  intros N. unfold CleanData.clean_text, finish.
  destruct s as [|c s]; [contradiction|]. cbn [truthy negb].
  set (t := CleanData.strip_navigation (c :: s)).
  unfold CleanData.re_spaces, CleanData.re_blanks, CleanData.re_camel,
    CleanData.re_sentence.
  rewrite (sub_plus_collapse is_space).
  rewrite sub_blank_lines.
  2:{ eapply forallb_weaken; [|apply collapse_blank].
      exact blank_or_not_space_no_newline. }
  rewrite sub_plus_collapse.
  rewrite (@sub_pair_space_between _ _ _ upper_not_lower).
  rewrite (@sub_pair_space_between _ _ _ upper_not_stop).
  rewrite sub_re_dots, sub_re_dashes, sub_re_copyright.
  reflexivity.
Qed.

(** Whatever the text, what [finish] returns is tidy. *)
Lemma finish_tidy (t : text) : tidy (finish t).
Proof.
  unfold finish. fold is_blank.
  set (t2 := collapse is_space false t).
  assert (A2 : forallb (fun c => negb (is_space c) || (c =? blank)%N) t2 = true)
    by apply collapse_blank.
  assert (B2 : adj_ok (pair_of is_space is_space) None t2 = true)
    by (apply collapse_single; discriminate).
  rewrite (@collapse_blanks_fixed t2 A2 B2).
  set (t5 := space_between is_lower_az is_upper_AZ t2).
  assert (A5 : forallb (fun c => negb (is_space c) || (c =? blank)%N) t5 = true)
    by (apply space_between_forallb; [reflexivity | exact A2]).
  assert (B5 : adj_ok (pair_of is_space is_space) None t5 = true).
  { apply space_between_keeps; [|exact B2]. unfold pair_of. intros a b Ha Hb.
    now rewrite (lower_not_space _ Ha), (upper_not_space _ Hb), andb_false_r. }
  assert (C5 : adj_ok (pair_of is_lower_az is_upper_AZ) None t5 = true)
    by (apply space_between_splits; [reflexivity | reflexivity | exact I]).
  set (t6 := space_between CleanData.is_stop is_upper_AZ t5).
  assert (A6 : forallb (fun c => negb (is_space c) || (c =? blank)%N) t6 = true)
    by (apply space_between_forallb; [reflexivity | exact A5]).
  assert (B6 : adj_ok (pair_of is_space is_space) None t6 = true).
  { apply space_between_keeps; [|exact B5]. unfold pair_of. intros a b Ha Hb.
    now rewrite (stop_not_space _ Ha), (upper_not_space _ Hb), andb_false_r. }
  assert (C6 : adj_ok (pair_of is_lower_az is_upper_AZ) None t6 = true).
  { apply space_between_keeps; [|exact C5]. unfold pair_of. intros a b _ _.
    split; [apply andb_false_r | reflexivity]. }
  assert (D6 : adj_ok (pair_of CleanData.is_stop is_upper_AZ) None t6 = true)
    by (apply space_between_splits; [reflexivity | reflexivity | exact I]).
  set (t7 := squeeze (ch ".") 0 t6).
  set (t8 := squeeze (ch "-") 0 t7).
  assert (K : forall c : char, 0 < 0 -> @None char = Some c) by (intros; lia).
  assert (A8 : forallb (fun c => negb (is_space c) || (c =? blank)%N) t8 = true)
    by (do 2 apply squeeze_forallb; exact A6).
  assert (B8 : adj_ok (pair_of is_space is_space) None t8 = true)
    by (do 2 (apply squeeze_keeps; [apply K|]); exact B6).
  assert (C8 : adj_ok (pair_of is_lower_az is_upper_AZ) None t8 = true)
    by (do 2 (apply squeeze_keeps; [apply K|]); exact C6).
  assert (D8 : adj_ok (pair_of CleanData.is_stop is_upper_AZ) None t8 = true)
    by (do 2 (apply squeeze_keeps; [apply K|]); exact D6).
  assert (E8 : runs_ok (ch ".") 0 t8 = true).
  { apply squeeze_keeps_runs; [discriminate | lia |]. apply (squeeze_runs (ch ".") 0). }
  assert (F8 : runs_ok (ch "-") 0 t8 = true) by apply (squeeze_runs (ch "-") 0).
  set (t9 := cut_at (u "Copyright") t8).
  assert (G9 : no_occ (u "Copyright") t9 = true)
    by (apply cut_at_clears; discriminate).
  assert (P9 : part_of (strip t9) t9) by apply strip_part.
  assert (P8 : part_of (strip t9) t8)
    by (eapply part_of_trans; [exact P9 | apply cut_at_part]).
  constructor.
  - exact (@forallb_part _ _ _ P8 A8).
  - exact (@adj_ok_part _ _ _ P8 B8).
  - exact (@adj_ok_part _ _ _ P8 C8).
  - exact (@adj_ok_part _ _ _ P8 D8).
  - exact (@runs_ok_part _ _ _ P8 E8).
  - exact (@runs_ok_part _ _ _ P8 F8).
  - exact (@no_occ_part _ _ _ P9 G9).
  - apply strip_idem.
Qed.

(** A tidy text is left as it is. *)
Lemma finish_fixed (y : text) : tidy y -> finish y = y.
Proof.
  intros [A B C D E F G H]. unfold finish. fold is_blank.
  rewrite (@collapse_fixed is_space false None y A B) by discriminate.
  rewrite (@collapse_blanks_fixed y A B).
  rewrite (@space_between_fixed _ _ None y C), (@space_between_fixed _ _ None y D).
  rewrite (@squeeze_fixed _ 0 y E), (@squeeze_fixed _ 0 y F).
  rewrite (@cut_at_fixed _ y G). exact H.
Qed.

Lemma fold_sub_no_match (patterns : list regex) (y : text) :
  (forall p, In p patterns -> search p y = None) ->
  fold_left (fun t p => sub p [] t) patterns y = y.
Proof.
  induction patterns as [|p l IH]; intros H; [reflexivity|].
  cbn [fold_left]. rewrite sub_no_match by (apply H; now left).
  apply IH. intros q Hq. apply H. now right.
Qed.

Lemma strip_navigation_fixed (y : text) :
  contains_boilerplate y = false -> CleanData.strip_navigation y = y.
Proof.
  unfold contains_boilerplate, CleanData.strip_navigation. intros H.
  apply fold_sub_no_match. intros p Hp.
  destruct (search p y) eqn:E; [|reflexivity].
  assert (X : existsb (fun p => match search p y with Some _ => true | None => false end)
                CleanData.NAVIGATION_PATTERNS = true).
  { apply existsb_exists. exists p. split; [exact Hp | now rewrite E]. }
  congruence.
Qed.

(** What C1 states, at a text that holds no boilerplate itself: cleaning
    it puts a blank inside "PrivacyPolicy", which makes it a navigation
    phrase that a second cleaning removes. *)
Lemma clean_text_counterexample :
  contains_boilerplate (u "PrivacyPolicy") = false
  /\ CleanData.clean_text (u "PrivacyPolicy") = u "Privacy Policy"
  /\ CleanData.clean_text (CleanData.clean_text (u "PrivacyPolicy"))
     <> CleanData.clean_text (u "PrivacyPolicy").
Proof.
  split; [vm_compute; reflexivity|].
  split; [vm_compute; reflexivity|].
  vm_compute. discriminate.
Qed.

(** C1, amended.  The text cleaner is idempotent on every text whose
    cleaned form no longer holds a navigation phrase: if no navigation
    pattern matches [clean_text(s)], then
    [clean_text(clean_text(s)) == clean_text(s)]. *)
Theorem clean_text_idempotent (s : text) :
  contains_boilerplate (CleanData.clean_text s) = false ->
  CleanData.clean_text (CleanData.clean_text s) = CleanData.clean_text s.
Proof.
  intros H. destruct s as [|c s]; [reflexivity|].
  assert (T : tidy (CleanData.clean_text (c :: s))).
  { rewrite clean_text_finish by discriminate. apply finish_tidy. }
  destruct (CleanData.clean_text (c :: s)) as [|d y] eqn:E; [reflexivity|].
  rewrite clean_text_finish by discriminate.
  rewrite strip_navigation_fixed by exact H.
  apply finish_fixed. exact T.
Qed.

Lemma clean_text_idempotent_witness :
  CleanData.clean_text
    (u "Hello....World.Next  a---- b   Copyright 2020 foo")
  = u "Hello... World. Next a--- b"
  /\ CleanData.clean_text (u "Hello... World. Next a--- b")
     = u "Hello... World. Next a--- b".
Proof.
  split; [vm_compute; reflexivity|].
  pose proof (@clean_text_idempotent
                (u "Hello....World.Next  a---- b   Copyright 2020 foo")) as H.
  assert (E : CleanData.clean_text
                (u "Hello....World.Next  a---- b   Copyright 2020 foo")
              = u "Hello... World. Next a--- b") by (vm_compute; reflexivity).
  rewrite E in H. apply H. vm_compute. reflexivity.
Defined.

End Cleaner.

(* ===================================================================== *)
(** * Further properties of the programs *)
(* ===================================================================== *)

(** ** The shape of every cleaned text *)

Section CleanedShape.

Lemma clean_text_tidy (s : text) : tidy (CleanData.clean_text s).
Proof.
  destruct s as [|c s].
  - constructor; reflexivity.
  - rewrite clean_text_finish by discriminate. apply finish_tidy.
Qed.

Lemma adj_ok_adjacent bad pv (s : text) (a b : char) :
  adj_ok bad pv s = true -> adjacent a b s -> bad a b = false.
Proof.
  intros H [l [r ->]].
  apply adj_ok_app in H as [_ H]. cbn [adj_ok] in H.
  apply andb_true_iff in H as [_ H]. apply andb_true_iff in H as [H _].
  now apply negb_true_iff in H.
Qed.

Lemma runs_ok_no_four (c : char) (s : text) :
  runs_ok c 0 s = true -> ~ occurs [c; c; c; c] s.
Proof.
  intros H [l [r ->]].
  apply runs_ok_app in H as [_ H]. cbn [app runs_ok] in H.
  rewrite !N.eqb_refl in H. cbn in H. discriminate.
Qed.

(** X1.  Whatever the text, its cleaned form does not contain
    "Copyright". *)
Theorem clean_text_no_copyright (s : text) :
  ~ occurs (u "Copyright") (CleanData.clean_text s).
Proof.
  intros H. apply contains_iff in H.
  pose proof (tidy_copyright (clean_text_tidy s)) as G.
  unfold no_occ in G. rewrite H in G. discriminate.
Qed.

(** X2.  A cleaned text has no white space at either end, its only white
    space character is the blank, and no two blanks are neighbours. *)
Theorem clean_text_whitespace (s : text) :
  strip (CleanData.clean_text s) = CleanData.clean_text s
  /\ (forall c, In c (CleanData.clean_text s) -> is_space c = true -> c = blank)
  /\ (forall a b, adjacent a b (CleanData.clean_text s) ->
        ~ (is_space a = true /\ is_space b = true)).
Proof.
  pose proof (clean_text_tidy s) as [A B _ _ _ _ _ H].
  split; [exact H|]. split.
  - intros c Hc Sc. rewrite forallb_forall in A. specialize (A c Hc).
    rewrite Sc in A. now apply N.eqb_eq in A.
  - intros a b Hab [Sa Sb].
    pose proof (adj_ok_adjacent _ _ B Hab) as X. unfold pair_of in X.
    rewrite Sa, Sb in X. discriminate.
Qed.

(** X3.  In a cleaned text no lower-case ASCII letter and no full stop,
    exclamation mark or question mark is directly followed by an upper-case
    ASCII letter. *)
Theorem clean_text_separates_capitals (s : text) (a b : char) :
  adjacent a b (CleanData.clean_text s) ->
  is_upper_AZ b = true ->
  is_lower_az a = false /\ CleanData.is_stop a = false.
Proof.
  intros Hab Ub.
  pose proof (clean_text_tidy s) as [_ _ C D _ _ _ _].
  pose proof (adj_ok_adjacent _ _ C Hab) as X.
  pose proof (adj_ok_adjacent _ _ D Hab) as Y.
  unfold pair_of in X, Y. rewrite Ub, andb_true_r in X, Y. now split.
Qed.

Lemma clean_text_separates_capitals_witness :
  CleanData.clean_text (u "endStart.Next") = u "end Start. Next"
  /\ is_lower_az (ch " ") = false.
Proof.
  split; [vm_compute; reflexivity|].
  apply (@clean_text_separates_capitals (u "endStart.Next") (ch " ") (ch "S")).
  - exists (u "end"), (u "tart. Next"). vm_compute. reflexivity.
  - reflexivity.
Defined.

(** X4.  A cleaned text has no run of four full stops and no run of four
    hyphens. *)
Theorem clean_text_short_runs (s : text) :
  ~ occurs (u "....") (CleanData.clean_text s)
  /\ ~ occurs (u "----") (CleanData.clean_text s).
Proof.
  pose proof (clean_text_tidy s) as [_ _ _ _ E F _ _].
  split; [exact (@runs_ok_no_four _ _ E) | exact (@runs_ok_no_four _ _ F)].
Qed.

End CleanedShape.

(** ** Canonical URLs *)

Section CanonicalUrl.

Lemma take_until_prefix (p : char -> bool) (s : text) :
  exists r, s = DataExtraction.take_until p s ++ r.
Proof.
  induction s as [|c s [r IH]]; [exists []; reflexivity|].
  cbn [DataExtraction.take_until]. destruct (p c).
  - exists (c :: s). reflexivity.
  - exists r. simpl. now rewrite <- IH.
Qed.

Lemma take_until_clear (p : char -> bool) (s : text) :
  existsb p (DataExtraction.take_until p s) = false.
Proof.
  induction s as [|c s IH]; [reflexivity|].
  cbn [DataExtraction.take_until]. destruct (p c) eqn:E; [reflexivity|].
  cbn [existsb]. now rewrite E, IH.
Qed.

Lemma existsb_prefix (p : char -> bool) (a b : text) :
  existsb p (a ++ b) = false -> existsb p a = false.
Proof. rewrite existsb_app, orb_false_iff. tauto. Qed.

Lemma drop_while_head (p : char -> bool) (s : text) (c : char) (t : text) :
  drop_while p s = c :: t -> p c = false.
Proof.
  induction s as [|x s IH]; [discriminate|]. cbn [drop_while].
  destruct (p x) eqn:E; [exact IH|]. intros [= <- _]. exact E.
Qed.

(** What [rstrip] leaves does not end in a stripped character. *)
Lemma rstrip_by_last (p : char -> bool) (s front : text) (c : char) :
  rstrip_by p s = front ++ [c] -> p c = false.
Proof.
  unfold rstrip_by. intros H.
  apply (f_equal (@rev char)) in H. rewrite rev_involutive, rev_app_distr in H.
  exact (drop_while_head _ _ H).
Qed.

(** X5.  [clean_url] is idempotent; its result is the start of its
    argument, holds no [#] and does not end in a slash. *)
Theorem clean_url_canonical (url : text) :
  DataExtraction.clean_url (DataExtraction.clean_url url) = DataExtraction.clean_url url
  /\ (exists rest, url = DataExtraction.clean_url url ++ rest)
  /\ ~ In (ch "#") (DataExtraction.clean_url url)
  /\ ~ (exists front, DataExtraction.clean_url url = front ++ u "/").
Proof.
  unfold DataExtraction.clean_url. rewrite !hd_split_on.
  set (isH := fun x : char => (x =? ch "#")%N).
  set (t := DataExtraction.take_until isH url).
  assert (C : existsb isH (rstrip_char (ch "/") t) = false).
  { destruct (rstrip_by_part (fun x => (x =? ch "/")%N) t) as [r Hr].
    apply (@existsb_prefix isH _ r). unfold rstrip_char. rewrite <- Hr.
    apply take_until_clear. }
  repeat split.
  - rewrite take_until_no_hit by exact C. apply rstrip_by_idem.
  - destruct (take_until_prefix isH url) as [r1 H1].
    destruct (rstrip_by_part (fun x => (x =? ch "/")%N) t) as [r2 H2].
    exists (r2 ++ r1). rewrite app_assoc. unfold rstrip_char.
    rewrite <- H2. exact H1.
  - intros H.
    assert (X : existsb isH (rstrip_char (ch "/") t) = true).
    { apply existsb_exists. exists (ch "#"). split; [exact H | apply N.eqb_refl]. }
    congruence.
  - intros [front H]. apply rstrip_by_last in H. discriminate.
Qed.

End CanonicalUrl.

(** ** Paragraphs of a PDF text, in general *)

Section Paragraphs.

Lemma fold_keep_sentence (l : list text) :
  forall ps cur, length cur < 3 ->
  (let (paragraphs, current_para) := fold_left keep_sentence l (ps, cur) in
   match current_para with
   | [] => paragraphs
   | _ => paragraphs ++ [join (u " ") current_para]
   end)
  = ps ++ map (join (u " ")) (groups_of_three (cur ++ l)).
Proof.
  induction l as [|s l IH]; intros ps cur L.
  - cbn [fold_left]. rewrite app_nil_r.
    destruct cur as [|a [|b [|c cur]]]; cbn [groups_of_three map];
      rewrite ?app_nil_r; try reflexivity.
    simpl in L. lia.
  - cbn [fold_left]. unfold keep_sentence at 2.
    destruct (3 <=? length (cur ++ [s])) eqn:E.
    + apply Nat.leb_le in E. rewrite length_app in E. simpl in E.
      destruct cur as [|a [|b [|c cur]]]; simpl in E, L; try lia.
      rewrite (IH _ [] ltac:(simpl; lia)).
      cbn [app groups_of_three map]. rewrite <- app_assoc. reflexivity.
    + apply Nat.leb_gt in E.
      rewrite (IH _ _ E). rewrite <- app_assoc. reflexivity.
Qed.

Lemma groups_of_three_length (l : list text) :
  length (groups_of_three l) = (length l + 2) / 3
  /\ forall g, In g (groups_of_three l) -> 1 <= length g <= 3.
Proof.
  assert (H : forall n (l : list text), length l < n ->
            length (groups_of_three l) = (length l + 2) / 3
            /\ forall g, In g (groups_of_three l) -> 1 <= length g <= 3).
  { induction n as [|n IH]; intros k L; [lia|].
    destruct k as [|a [|b [|c k]]].
    - split; [reflexivity | intros g []].
    - split; [reflexivity | intros g [<- | []]; simpl; lia].
    - split; [reflexivity | intros g [<- | []]; simpl; lia].
    - destruct (IH k ltac:(simpl in L; lia)) as [H1 H2].
      cbn [groups_of_three length]. rewrite H1. split.
      + replace (S (S (S (length k))) + 2) with (1 * 3 + (length k + 2)) by lia.
        rewrite Nat.div_add_l by lia. lia.
      + intros g [<- | Hg]; [simpl; lia | now apply H2]. }
  apply (H (S (length l))). lia.
Qed.

(** X6.  The paragraphs of a PDF text are its qualifying sentences taken
    three at a time in order, each group joined by blanks, the last group
    holding what is left: with [k] qualifying sentences there are
    [ceil(k / 3)] paragraphs, and none holds more than three sentences. *)
Theorem pdf_paragraphs_in_threes (full_text : text) :
  DataExtraction.parse_pdf_into_paragraphs full_text
  = map (join (u " ")) (groups_of_three (qualifying_sentences full_text))
  /\ length (DataExtraction.parse_pdf_into_paragraphs full_text)
     = (length (qualifying_sentences full_text) + 2) / 3
  /\ forall g, In g (groups_of_three (qualifying_sentences full_text)) ->
       1 <= length g <= 3.
Proof.
  assert (E : DataExtraction.parse_pdf_into_paragraphs full_text
              = map (join (u " ")) (groups_of_three (qualifying_sentences full_text))).
  { rewrite parse_pdf_by_kept.
    exact (fold_keep_sentence (qualifying_sentences full_text) [] []
             ltac:(simpl; lia)). }
  destruct (groups_of_three_length (qualifying_sentences full_text)) as [H1 H2].
  split; [exact E|]. split; [|exact H2].
  now rewrite E, length_map.
Qed.

End Paragraphs.

(** ** Heading levels *)

Section HeadingLevels.

Lemma digit_value_bound (c : char) (d : nat) :
  DataExtraction.digit_value c = Some d -> d <= 9.
Proof.
  unfold DataExtraction.digit_value.
  destruct (List.find _ _) as [r|]; [|discriminate]. intros [= <-].
  assert (H : ((c - fst r) mod 10 < 10)%N) by (apply N.mod_lt; discriminate).
  lia.
Qed.

Lemma digit_value_ascii (k : nat) :
  k < 10 -> DataExtraction.digit_value (48 + N.of_nat k)%N = Some k.
Proof.
  intros H. do 10 (destruct k as [|k]; [reflexivity|]). lia.
Qed.

(** X7.  [heading_level] is at most 9.  It is 7 for no name, for a name of
    fewer than two characters and for a name that does not start with "h"
    or "H"; for "h" followed by an ASCII digit it is that digit, whatever
    follows, so each of h1 to h6 has its own level. *)
Theorem heading_level_cases :
  (forall tag_name, DataExtraction.heading_level tag_name <= 9)
  /\ DataExtraction.heading_level None = 7
  /\ (forall t, length t < 2 -> DataExtraction.heading_level (Some t) = 7)
  /\ (forall c t, c <> ch "h" -> c <> ch "H" ->
        DataExtraction.heading_level (Some (c :: t)) = 7)
  /\ (forall k more, k < 10 ->
        DataExtraction.heading_level (Some (u "h" ++ [(48 + N.of_nat k)%N] ++ more)) = k
        /\ DataExtraction.heading_level (Some (u "H" ++ [(48 + N.of_nat k)%N] ++ more)) = k).
Proof.
  repeat split.
  - intros [t|]; cbn [DataExtraction.heading_level]; [|lia].
    destruct (_ && _); [|lia]. destruct (nth_error t 1) as [c|]; [|lia].
    destruct (DataExtraction.digit_value c) as [d|] eqn:E; [|lia].
    exact (digit_value_bound _ E).
  - intros t L. cbn [DataExtraction.heading_level].
    destruct (_ && _); [|reflexivity].
    destruct t as [|a [|b t]]; [reflexivity | reflexivity | simpl in L; lia].
  - intros c t Hh HH. cbn [DataExtraction.heading_level truthy andb].
    replace (startswith (u "h") (lower (c :: t))) with false; [reflexivity|].
    symmetry. unfold lower. cbn [flat_map].
    destruct (c =? 304)%N eqn:E; [reflexivity|].
    cbn [app startswith u]. apply andb_false_iff. left.
    apply N.eqb_neq. unfold lower1.
    assert (A : c <> 104%N) by exact Hh. assert (B : c <> 72%N) by exact HH.
    apply N.eqb_neq in E. clear Hh HH.
    unfold is_upper_AZ, between.
    destruct (65 <=? c)%N eqn:E1; destruct (c <=? 90)%N eqn:E2; cbn [andb];
      rewrite ?N.leb_le, ?N.leb_gt in *; try (change (ch "h") with 104%N; lia);
      (destruct ((192 <=? c)%N && (c <=? 222)%N && negb (c =? 215)%N) eqn:E3;
       [ rewrite !andb_true_iff, !N.leb_le in E3; change (ch "h") with 104%N; lia |]);
      (destruct (c =? 304)%N eqn:E4; [apply N.eqb_eq in E4; lia|]);
      (destruct (c =? 8490)%N; [change (ch "h") with 104%N; lia|]);
      (destruct (c =? 8491)%N; change (ch "h") with 104%N; lia).
  - change (DataExtraction.heading_level
              (Some (u "h" ++ [(48 + N.of_nat k)%N] ++ more)))
      with (match DataExtraction.digit_value (48 + N.of_nat k)%N with
            | Some d => d
            | None => 7
            end).
    now rewrite digit_value_ascii.
  - change (DataExtraction.heading_level
              (Some (u "H" ++ [(48 + N.of_nat k)%N] ++ more)))
      with (match DataExtraction.digit_value (48 + N.of_nat k)%N with
            | Some d => d
            | None => 7
            end).
    now rewrite digit_value_ascii.
Qed.

End HeadingLevels.

(** ** PDF records, in general *)

Section PdfRecords.

Lemma collapse_nonempty (p : char -> bool) (s : text) :
  s <> [] -> collapse p false s <> [].
Proof.
  destruct s as [|c s]; [contradiction|]. intros _. cbn [collapse].
  destruct (p c); discriminate.
Qed.

Lemma join_nonempty (sep : text) (parts : list text) :
  parts <> [] -> Forall (fun t => t <> []) parts -> join sep parts <> [].
Proof.
  destruct parts as [|[|c t] ps]; [contradiction| |].
  - intros _ H. inversion H. contradiction.
  - intros _ _. destruct ps; discriminate.
Qed.

Lemma text_pages_usable (pages : list (DataExtraction.outcome text)) :
  let text_pages :=
    flat_map (fun page : DataExtraction.outcome text =>
      match page with
      | DataExtraction.Ok t => if truthy t then [t] else []
      | DataExtraction.Raise _ => []
      end) pages in
  Forall (fun t => t <> []) text_pages
  /\ (text_pages <> [] <-> Exists usable pages).
Proof.
  induction pages as [|p pages [IH1 IH2]].
  - split; [constructor|]. split; [contradiction | intros H; inversion H].
  - cbn [flat_map]. destruct p as [[|c t]|e]; cbn [truthy app].
    + split; [exact IH1|]. rewrite IH2. split; [now right|].
      intros H. inversion H as [? ? [t [E N]]|]; [|assumption].
      injection E as <-. contradiction.
    + split; [constructor; [discriminate | exact IH1]|].
      split; [|discriminate]. intros _. left. exists (c :: t). now split.
    + split; [exact IH1|]. rewrite IH2. split; [now right|].
      intros H. inversion H as [? ? [t [E N]]|]; [discriminate | assumption].
Qed.

Lemma unusable_not_usable (pages : list (DataExtraction.outcome text)) :
  ~ Exists usable pages -> Forall unusable pages.
Proof.
  intros N. apply Forall_forall. intros p I.
  destruct p as [[|c t]|e]; [reflexivity | | exact Logic.I].
  exfalso. apply N. apply Exists_exists. exists (DataExtraction.Ok (c :: t)).
  split; [exact I |]. exists (c :: t). split; [reflexivity | discriminate].
Qed.

(** C7, amended.  The [full_text] of the record that
    [extract_text_from_pdf] returns is the empty string exactly when no
    text can be extracted: the PDF library is missing, or opening or
    parsing the file raises, or every page raises or returns the empty
    string (a page of white space alone does give text).  In that case
    [process_pdf], which tests that string alone, returns nothing for the
    URL.  The record carries an ['error'] key when the PDF library is
    missing or when opening or parsing the file fails, and then holds
    nothing else but an empty [full_text] and a [page_count] of 0; when
    the file opens and no page gives text, the record is the ordinary one:
    the number of pages, zero words, zero characters, no paragraphs, and
    no ['error'] key. *)
Theorem pdf_no_text (lib : DataExtraction.pdf_library) (pdf_path : text) :
  let d := DataExtraction.extract_text_from_pdf lib pdf_path in
  (DataExtraction.get d "full_text" = Some (DataExtraction.VStr [])
   <-> no_text lib pdf_path)
  /\ (no_text lib pdf_path ->
      (DataExtraction.has_key d "error" = true
       <-> (DataExtraction.PDF_SUPPORT lib = false
            \/ exists e,
                 DataExtraction.PdfReader lib pdf_path = DataExtraction.Raise e))
      /\ (DataExtraction.has_key d "error" = true ->
          exists message,
            d = [ ("full_text", DataExtraction.VStr []);
                  ("page_count", DataExtraction.VInt 0);
                  ("error", DataExtraction.VStr message) ]%string)
      /\ (forall pages,
            DataExtraction.PDF_SUPPORT lib = true ->
            DataExtraction.PdfReader lib pdf_path = DataExtraction.Ok pages ->
            d = [ ("full_text", DataExtraction.VStr []);
                  ("page_count", DataExtraction.VInt (length pages));
                  ("word_count", DataExtraction.VInt 0);
                  ("char_count", DataExtraction.VInt 0);
                  ("paragraphs", DataExtraction.VList []);
                  ("paragraph_count", DataExtraction.VInt 0) ]%string)
      /\ forall download_pdf url,
            download_pdf url = Some pdf_path ->
            DataExtraction.process_pdf lib download_pdf url
            = DataExtraction.Ok None).
Proof.
  intros d.
  assert (F : no_text lib pdf_path ->
              DataExtraction.get d "full_text" = Some (DataExtraction.VStr [])).
  { intros H. subst d. unfold DataExtraction.extract_text_from_pdf.
    destruct (DataExtraction.PDF_SUPPORT lib) eqn:S; [|reflexivity]. simpl.
    destruct H as [H | [[e H] | [pages [H U]]]]; [congruence| |]; rewrite H; simpl.
    - reflexivity.
    - rewrite (no_usable_pages U). reflexivity. }
  split; [split; [|exact F] |].
  - subst d. unfold DataExtraction.extract_text_from_pdf, no_text.
    destruct (DataExtraction.PDF_SUPPORT lib) eqn:S; [|auto]. cbn [negb].
    destruct (DataExtraction.PdfReader lib pdf_path) as [pages|e] eqn:R;
      [|intros _; right; left; eauto].
    cbn [DataExtraction.bind DataExtraction.try_except].
    destruct (text_pages_usable pages) as [A B]. cbn zeta in A, B.
    set (text_pages := flat_map _ pages) in *.
    unfold CleanData.re_spaces. rewrite sub_plus_collapse.
    cbn [DataExtraction.get String.eqb Ascii.eqb Bool.eqb].
    intros E. injection E as E. right. right. exists pages.
    split; [reflexivity |]. apply unusable_not_usable. intros U.
    apply B in U.
    apply (@collapse_nonempty is_space (join [10%N; 10%N] text_pages));
      [now apply join_nonempty | exact E].
  - intros H. specialize (F H). split; [|split; [|split]].
    + subst d. unfold DataExtraction.extract_text_from_pdf.
      destruct (DataExtraction.PDF_SUPPORT lib) eqn:S; simpl.
      * destruct (DataExtraction.PdfReader lib pdf_path) as [pages|e] eqn:R; simpl.
        -- split; [discriminate|]. intros [X | [e X]]; discriminate.
        -- split; [eauto | reflexivity].
      * split; [auto | reflexivity].
    + subst d. unfold DataExtraction.extract_text_from_pdf.
      destruct (DataExtraction.PDF_SUPPORT lib) eqn:S; simpl.
      * destruct (DataExtraction.PdfReader lib pdf_path) as [pages|e] eqn:R; simpl.
        -- discriminate.
        -- intros _. eexists. reflexivity.
      * intros _. eexists. reflexivity.
    + intros pages S R. subst d.
      unfold DataExtraction.extract_text_from_pdf. rewrite S, R.
      cbn [negb DataExtraction.bind DataExtraction.try_except].
      destruct H as [H | [[e H] | [pages' [H U]]]]; [congruence | congruence |].
      rewrite R in H. injection H as <-.
      rewrite (no_usable_pages U). reflexivity.
    + intros download_pdf url D. unfold DataExtraction.process_pdf.
      rewrite D. fold d. unfold DataExtraction.item. rewrite F. reflexivity.
Qed.

Lemma pdf_no_text_witness :
  DataExtraction.has_key
    (DataExtraction.extract_text_from_pdf blank_page_library (u "guideline.pdf"))
    "error" = false
  /\ DataExtraction.process_pdf blank_page_library (fun _ => Some (u "guideline.pdf"))
       (u "https://www.aasld.org/guideline.pdf") = DataExtraction.Ok None.
Proof.
  destruct (@pdf_no_text blank_page_library (u "guideline.pdf")) as [_ P].
  destruct P as [_ [_ [_ P]]].
  - right. right. exists [DataExtraction.Ok []]. split; [reflexivity|].
    constructor; [reflexivity | constructor].
  - split; [reflexivity | apply P; reflexivity].
Defined.

(** X8.  [process_pdf] never raises, whatever the library and the
    download do: every key it reads from the extracted record is there when
    it reads it.  It returns a record exactly when the download gave a
    file, the library is present, the file opened, and some page gave
    text. *)
Theorem process_pdf_returns (lib : DataExtraction.pdf_library)
    (download_pdf : text -> option text) (url : text) :
  exists r, DataExtraction.process_pdf lib download_pdf url = DataExtraction.Ok r
    /\ (r <> None <->
        exists pdf_path pages,
          download_pdf url = Some pdf_path
          /\ DataExtraction.PDF_SUPPORT lib = true
          /\ DataExtraction.PdfReader lib pdf_path = DataExtraction.Ok pages
          /\ Exists usable pages).
Proof.
  unfold DataExtraction.process_pdf.
  destruct (download_pdf url) as [pdf_path|] eqn:D.
  2:{ exists None. split; [reflexivity|]. split; [contradiction|].
      intros [? [? [X _]]]. discriminate. }
  unfold DataExtraction.extract_text_from_pdf.
  destruct (DataExtraction.PDF_SUPPORT lib) eqn:S; cbn [negb].
  2:{ exists None. split; [reflexivity|]. split; [contradiction|].
      intros [? [? [_ [X _]]]]. discriminate. }
  destruct (DataExtraction.PdfReader lib pdf_path) as [pages|e] eqn:R.
  2:{ exists None. split; [reflexivity|]. split; [contradiction|].
      intros [? [? [X [_ [Y _]]]]]. injection X as <-. congruence. }
  cbn [DataExtraction.bind DataExtraction.try_except].
  destruct (text_pages_usable pages) as [A B]. cbn zeta in A, B.
  set (text_pages := flat_map _ pages) in *.
  unfold CleanData.re_spaces. rewrite sub_plus_collapse.
  set (full := collapse is_space false (join [10%N; 10%N] text_pages)).
  cbn [DataExtraction.item DataExtraction.get String.eqb Ascii.eqb Bool.eqb
       DataExtraction.bind DataExtraction.val_truthy].
  destruct full as [|c full'] eqn:F; cbn [truthy negb].
  - exists None. split; [reflexivity|]. split; [contradiction|].
    intros [p' [pages' [X [_ [Y U]]]]]. injection X as <-.
    rewrite R in Y. injection Y as <-. apply B in U.
    exfalso. apply (@collapse_nonempty is_space (join [10%N; 10%N] text_pages)).
    + now apply join_nonempty.
    + exact F.
  - eexists. split; [reflexivity|]. split; [|discriminate].
    intros _. exists pdf_path, pages. repeat split; auto.
    apply B. intros E. subst full. rewrite E in F. discriminate.
Qed.

(** X9.  Every record [extract_text_from_pdf] returns has a [full_text],
    in which the only white space character is the blank and no two blanks
    are neighbours. *)
Theorem pdf_full_text_normalised (lib : DataExtraction.pdf_library) (pdf_path : text) :
  exists t,
    DataExtraction.get (DataExtraction.extract_text_from_pdf lib pdf_path) "full_text"
    = Some (DataExtraction.VStr t)
    /\ (forall c, In c t -> is_space c = true -> c = blank)
    /\ (forall a b, adjacent a b t -> ~ (is_space a = true /\ is_space b = true)).
Proof.
  assert (N : forall x : text,
            (forall c, In c (collapse is_space false x) -> is_space c = true -> c = blank)
            /\ (forall a b, adjacent a b (collapse is_space false x) ->
                  ~ (is_space a = true /\ is_space b = true))).
  { intros x. split.
    - intros c Hc Sc. pose proof (collapse_blank is_space false x) as A.
      rewrite forallb_forall in A. specialize (A c Hc). rewrite Sc in A.
      now apply N.eqb_eq in A.
    - intros a b Hab [Sa Sb].
      assert (B : adj_ok (pair_of is_space is_space) None
                    (collapse is_space false x) = true)
        by (apply collapse_single; discriminate).
      pose proof (adj_ok_adjacent _ _ B Hab) as X. unfold pair_of in X.
      rewrite Sa, Sb in X. discriminate. }
  unfold DataExtraction.extract_text_from_pdf.
  destruct (DataExtraction.PDF_SUPPORT lib); cbn [negb].
  2:{ exists []. split; [reflexivity | exact (N [])]. }
  destruct (DataExtraction.PdfReader lib pdf_path) as [pages|e].
  2:{ exists []. split; [reflexivity | exact (N [])]. }
  cbn [DataExtraction.bind DataExtraction.try_except].
  unfold CleanData.re_spaces. rewrite sub_plus_collapse.
  eexists. split; [reflexivity | apply N].
Qed.

End PdfRecords.

(** ** Sections of a page, in general *)

Section SectionsInGeneral.

Lemma visit_cases st e :
  DataExtraction.visit st e
  = if negb (visible e) then st
    else if is_section_heading e
    then (close_sections st,
          Some (DataExtraction.Section (element_text e)
                  (DataExtraction.int_of_name_digit (name (snd e))) []))
    else match snd st with
         | Some c =>
             (fst st,
              Some (DataExtraction.Section (DataExtraction.heading c)
                      (DataExtraction.level c)
                      (DataExtraction.content c ++ [element_text e])))
         | None => st
         end.
Proof.
  unfold DataExtraction.visit, visible, is_section_heading, element_text,
    close_sections.
  destruct st as [secs cur]. cbn [fst snd].
  destruct (has_parent _ _); [reflexivity|]. cbn [negb andb].
  destruct (_ || _); [reflexivity|]. cbn [negb].
  destruct (named _ _); [destruct cur; reflexivity|].
  destruct cur; reflexivity.
Qed.

Lemma sections_of_close els :
  DataExtraction.sections_of els
  = close_sections (fold_left DataExtraction.visit els ([], None)).
Proof.
  unfold DataExtraction.sections_of, close_sections.
  destruct (fold_left _ _ _) as [secs [c|]]; reflexivity.
Qed.

Lemma fold_visit_headings els :
  forall st,
  map (fun s => (DataExtraction.heading s, DataExtraction.level s))
    (close_sections (fold_left DataExtraction.visit els st))
  = map (fun s => (DataExtraction.heading s, DataExtraction.level s))
      (close_sections st)
    ++ map (fun e => (element_text e,
                      DataExtraction.int_of_name_digit (name (snd e))))
         (filter opens_section els).
Proof.
  induction els as [|e els IH]; intros st.
  - cbn [fold_left filter map]. now rewrite app_nil_r.
  - cbn [fold_left filter]. rewrite IH, visit_cases. unfold opens_section.
    destruct (visible e); cbn [negb andb]; [|reflexivity].
    destruct (is_section_heading e).
    + unfold close_sections at 1. cbn [fst snd map].
      rewrite map_app, <- app_assoc. reflexivity.
    + destruct st as [secs [c|]]; [|reflexivity].
      unfold close_sections. cbn [fst snd]. rewrite !map_app. reflexivity.
Qed.

Lemma fold_visit_contents_open els :
  forall secs c,
  flat_map DataExtraction.content
    (close_sections (fold_left DataExtraction.visit els (secs, Some c)))
  = flat_map DataExtraction.content (secs ++ [c])
    ++ map element_text (filter section_body els).
Proof.
  induction els as [|e els IH]; intros secs c.
  - cbn [fold_left filter map]. now rewrite app_nil_r.
  - cbn [fold_left filter]. rewrite visit_cases. unfold section_body.
    destruct (visible e); cbn [negb andb]; [|apply IH].
    destruct (is_section_heading e); cbn [negb snd fst].
    + rewrite IH. unfold close_sections. cbn [fst snd].
      rewrite (flat_map_app _ (secs ++ [c])). cbn [flat_map DataExtraction.content].
      now rewrite !app_nil_r.
    + rewrite IH. rewrite !flat_map_app. cbn [flat_map DataExtraction.content map].
      rewrite !app_nil_r, <- !app_assoc. reflexivity.
Qed.

Lemma fold_visit_contents els :
  flat_map DataExtraction.content
    (close_sections (fold_left DataExtraction.visit els ([], None)))
  = map element_text (filter section_body (from_first_heading els)).
Proof.
  induction els as [|e els IH]; [reflexivity|].
  cbn [fold_left from_first_heading]. rewrite visit_cases.
  unfold opens_section. destruct (visible e) eqn:V; cbn [negb andb]; [|exact IH].
  destruct (is_section_heading e) eqn:H; cbn [snd].
  - unfold close_sections at 2. cbn [fst snd].
    rewrite fold_visit_contents_open. cbn [filter].
    unfold section_body at 2. now rewrite V, H.
  - exact IH.
Qed.

Lemma visible_long e : visible e = true -> 5 <= length (element_text e).
Proof.
  unfold visible. rewrite andb_true_iff, !negb_true_iff, orb_false_iff.
  intros [_ [_ H]]. now apply Nat.ltb_ge in H.
Qed.

(** The headings and the contents of the sections, read off the block
    elements the loop walks. *)
Lemma sections_by_block_elements (soup : node) :
  map (fun s => (DataExtraction.heading s, DataExtraction.level s))
    (DataExtraction.sections (DataExtraction.extract_all_text_with_structure soup))
  = map (fun e => (element_text e, DataExtraction.int_of_name_digit (name (snd e))))
      (filter opens_section (DataExtraction.block_elements soup)).
Proof.
  cbn [DataExtraction.sections DataExtraction.extract_all_text_with_structure].
  rewrite sections_of_close, fold_visit_headings. reflexivity.
Qed.

Lemma contents_by_block_elements (soup : node) :
  flat_map DataExtraction.content
    (DataExtraction.sections (DataExtraction.extract_all_text_with_structure soup))
  = map element_text
      (filter section_body (from_first_heading (DataExtraction.block_elements soup))).
Proof.
  cbn [DataExtraction.sections DataExtraction.extract_all_text_with_structure].
  rewrite sections_of_close. apply fold_visit_contents.
Qed.

(** X12.  No heading and no content item of a section is shorter than
    five characters. *)
Theorem sections_hold_no_short_text (soup : node) (s : DataExtraction.section) :
  In s (DataExtraction.sections (DataExtraction.extract_all_text_with_structure soup)) ->
  5 <= length (DataExtraction.heading s)
  /\ forall c, In c (DataExtraction.content s) -> 5 <= length c.
Proof.
  intros Hs. split.
  - assert (X : In (DataExtraction.heading s, DataExtraction.level s)
                  (map (fun s => (DataExtraction.heading s, DataExtraction.level s))
                     (DataExtraction.sections
                        (DataExtraction.extract_all_text_with_structure soup))))
      by (apply in_map_iff; eauto).
    rewrite (sections_by_block_elements soup) in X.
    apply in_map_iff in X as [e [E He]]. apply filter_In in He as [_ He].
    injection E as <- _. unfold opens_section in He.
    apply andb_true_iff in He as [V _]. now apply visible_long.
  - intros c Hc.
    assert (X : In c (flat_map DataExtraction.content
                        (DataExtraction.sections
                           (DataExtraction.extract_all_text_with_structure soup))))
      by (apply in_flat_map; eauto).
    rewrite contents_by_block_elements in X.
    apply in_map_iff in X as [e [<- He]]. apply filter_In in He as [_ He].
    unfold section_body in He. apply andb_true_iff in He as [V _].
    now apply visible_long.
Qed.

Lemma sections_hold_no_short_text_witness :
  5 <= length (u "Title here").
Proof.
  destruct (@sections_hold_no_short_text sample_page
              (DataExtraction.Section (u "Title here") 1
                 [u "body text"; u "minor heading"; u "after short"]))
    as [H _].
  - vm_compute. left. reflexivity.
  - exact H.
Defined.

End SectionsInGeneral.

(** ** Sections of a page, read off the page itself *)

Section SectionsOfThePage.

Lemma node_induction (P : node -> Prop) :
  (forall k s, P (Str k s)) ->
  (forall nm ch, Forall P ch -> P (Tag nm ch)) ->
  forall n, P n.
Proof.
  intros HS HT.
  exact (fix IH (n : node) : P n :=
           match n with
           | Str k s => HS k s
           | Tag nm ch =>
               HT nm ch
                 ((fix go (l : list node) : Forall P l :=
                     match l with
                     | [] => Forall_nil P
                     | c :: l' => Forall_cons c (IH c) (go l')
                     end) ch)
           end).
Qed.

Lemma filter_none {A} (p : A -> bool) (l : list A) :
  (forall x, In x l -> p x = false) -> filter p l = [].
Proof.
  induction l as [|x l IH]; intros H; [reflexivity |].
  cbn [filter]. rewrite (H x (or_introl eq_refl)).
  apply IH. intros y I. apply H. right. exact I.
Qed.

Lemma descendants_below (n : node) :
  forall anc e, In e (descendants anc n) ->
  exists pre, fst e = pre ++ name n :: anc.
Proof.
  induction n as [k s | nm ch IH] using node_induction; intros anc e I.
  - contradiction.
  - cbn [descendants] in I. apply in_flat_map in I.
    destruct I as [c [C I]]. rewrite Forall_forall in IH.
    destruct c as [k s | cn cch]; [contradiction |].
    destruct I as [<- | I].
    + exists []. reflexivity.
    + destruct (IH _ C _ _ I) as [pre E]. exists (pre ++ [cn]).
      rewrite E, <- app_assoc. reflexivity.
Qed.

Lemma name_decompose names n : name (decompose names n) = name n.
Proof. destruct n; reflexivity. Qed.

Lemma descendants_decompose (names : list string) (n : node) :
  forall anc,
    has_parent names (name n :: anc) = false ->
    descendants anc (decompose names n)
    = map (fun e => (fst e, decompose names (snd e)))
        (filter (fun e => negb (named names (name (snd e)))
                          && negb (has_parent names (fst e)))
           (descendants anc n)).
Proof.
  induction n as [k s | nm ch IH] using node_induction; intros anc H.
  - reflexivity.
  - cbn [decompose descendants]. cbn [name] in H.
    induction IH as [|c ch Hc Hch IHch]; [reflexivity |].
    cbn [flat_map]. rewrite !flat_map_app, filter_app, map_app.
    rewrite IHch. f_equal.
    destruct c as [k s | cn cch]; [reflexivity |].
    destruct (named names cn) eqn:N.
    + cbn [flat_map filter name snd fst]. rewrite N. cbn [negb andb].
      rewrite filter_none; [reflexivity |].
      intros e I. destruct (descendants_below _ _ _ I) as [pre E].
      rewrite E. unfold has_parent. rewrite existsb_app. cbn [name existsb].
      rewrite N, orb_true_r. cbn [orb negb]. apply andb_false_r.
    + cbn [flat_map filter name snd fst]. rewrite N, H. cbn [negb andb].
      rewrite app_nil_r. cbn [map fst snd].
      rewrite <- (Hc (nm :: anc)); [reflexivity |].
      cbn [name]. unfold has_parent in *. cbn [existsb].
      rewrite N. exact H.
Qed.

Lemma filter_map_swap {A B} (p : B -> bool) (f : A -> B) (l : list A) :
  filter p (map f l) = map f (filter (fun x => p (f x)) l).
Proof.
  induction l as [|x l IH]; [reflexivity |].
  cbn [map filter]. destruct (p (f x)); cbn [map]; rewrite IH; reflexivity.
Qed.

Lemma filter_filter {A} (p q : A -> bool) (l : list A) :
  filter p (filter q l) = filter (fun x => q x && p x) l.
Proof.
  induction l as [|x l IH]; [reflexivity |].
  cbn [filter]. destruct (q x); cbn [filter andb]; rewrite IH; reflexivity.
Qed.

Lemma block_not_hidden nm :
  named DataExtraction.BLOCK_TAGS nm = true -> named HIDDEN nm = false.
Proof.
  unfold named, DataExtraction.BLOCK_TAGS, HIDDEN. cbn [existsb].
  rewrite !orb_true_iff, !String.eqb_eq.
  intros [H | [H | [H | [H | [H | [H | [H | [H | [H | H]]]]]]]]];
    try discriminate H; subst nm; reflexivity.
Qed.

(** An element as it is once the hidden subtrees are removed. *)
Lemma block_elements_of_page (children : list node) :
  DataExtraction.block_elements (document children)
  = map (fun e => (fst e, decompose HIDDEN (snd e)))
      (filter shown
         (find_all_anc DataExtraction.BLOCK_TAGS (document children))).
Proof.
  unfold DataExtraction.block_elements, find_all_anc.
  change ["script"; "style"; "noscript"]%string with HIDDEN.
  rewrite (@descendants_decompose HIDDEN (document children) [] eq_refl).
  rewrite filter_map_swap. cbn [snd]. f_equal.
  rewrite !filter_filter. apply filter_ext_in. intros e _.
  rewrite name_decompose. unfold shown.
  destruct (named DataExtraction.BLOCK_TAGS (name (snd e))) eqn:B.
  - rewrite (block_not_hidden _ B). cbn [negb andb].
    rewrite andb_true_r. reflexivity.
  - rewrite !andb_false_r. reflexivity.
Qed.

Lemma has_parent_fewer anc :
  has_parent HIDDEN anc = false ->
  has_parent ["script"; "style"]%string anc = false.
Proof.
  unfold has_parent. induction anc as [|a anc IH]; [reflexivity |].
  cbn [existsb]. rewrite !orb_false_iff. intros [A H].
  split; [| exact (IH H)].
  unfold named, HIDDEN in *. cbn [existsb] in *.
  rewrite !orb_false_iff in *. tauto.
Qed.

Lemma long_enough (t : text) :
  negb (negb (truthy t) || (length t <? 5)) = (5 <=? length t).
Proof.
  destruct t as [|c t]; [reflexivity |].
  cbn [truthy negb orb]. symmetry. apply Nat.leb_antisym.
Qed.

Lemma opens_section_pruned e :
  shown e && opens_section (fst e, decompose HIDDEN (snd e)) = page_heading e.
Proof.
  unfold page_heading, opens_section, visible, element_text, shown_text,
    is_section_heading, shown. cbn [fst snd].
  rewrite name_decompose, long_enough.
  destruct (has_parent HIDDEN (fst e)) eqn:H; [reflexivity |].
  rewrite (has_parent_fewer _ H). cbn [negb andb]. apply andb_comm.
Qed.

Lemma section_body_pruned e :
  shown e && section_body (fst e, decompose HIDDEN (snd e)) = page_body e.
Proof.
  unfold page_body, section_body, visible, element_text, shown_text,
    is_section_heading, shown. cbn [fst snd].
  rewrite name_decompose, long_enough.
  destruct (has_parent HIDDEN (fst e)) eqn:H; [reflexivity |].
  rewrite (has_parent_fewer _ H). cbn [negb andb]. apply andb_comm.
Qed.

Lemma headings_of_page (els : list (list string * node)) :
  filter opens_section
    (map (fun e => (fst e, decompose HIDDEN (snd e))) (filter shown els))
  = map (fun e => (fst e, decompose HIDDEN (snd e))) (filter page_heading els).
Proof.
  rewrite filter_map_swap, filter_filter. f_equal.
  apply filter_ext. exact opens_section_pruned.
Qed.

Lemma bodies_of_page (els : list (list string * node)) :
  filter section_body
    (map (fun e => (fst e, decompose HIDDEN (snd e))) (filter shown els))
  = map (fun e => (fst e, decompose HIDDEN (snd e))) (filter page_body els).
Proof.
  rewrite filter_map_swap, filter_filter. f_equal.
  apply filter_ext. exact section_body_pruned.
Qed.

Lemma from_first_heading_of_page (els : list (list string * node)) :
  from_first_heading
    (map (fun e => (fst e, decompose HIDDEN (snd e))) (filter shown els))
  = map (fun e => (fst e, decompose HIDDEN (snd e)))
      (filter shown (from_first page_heading els)).
Proof.
  induction els as [|e els IH]; [reflexivity |].
  cbn [filter from_first]. rewrite <- (opens_section_pruned e).
  destruct (shown e) eqn:S; cbn [andb]; [| exact IH].
  cbn [map from_first_heading].
  destruct (opens_section (fst e, decompose HIDDEN (snd e))); [| exact IH].
  cbn [filter]. rewrite S. reflexivity.
Qed.

Lemma level_of_heading e :
  is_section_heading e = true ->
  DataExtraction.int_of_name_digit (name (snd e)) = level_of_name (name (snd e)).
Proof.
  unfold is_section_heading, named. cbn [existsb].
  rewrite !orb_true_iff, !String.eqb_eq.
  intros [H | [H | [H | H]]]; try discriminate H; rewrite H; reflexivity.
Qed.

(** X10.  The sections of a page correspond one to one, in document
    order, to its h1, h2 and h3 elements that are not inside a script,
    style or noscript element and whose text, the script, style and
    noscript elements inside them left out, has at least five characters:
    the heading of a section is that text, its level is 1, 2 or 3 for h1,
    h2 or h3, and [section_count] is the number of these elements. *)
Theorem sections_follow_headings (children : list node) :
  let page := DataExtraction.extract_all_text_with_structure (document children) in
  let headings :=
    filter page_heading
      (find_all_anc DataExtraction.BLOCK_TAGS (document children)) in
  map (fun s => (DataExtraction.heading s, DataExtraction.level s))
    (DataExtraction.sections page)
  = map (fun e => (shown_text e, level_of_name (name (snd e)))) headings
  /\ DataExtraction.section_count page = length headings.
Proof.
  intros page headings.
  assert (E : map (fun s => (DataExtraction.heading s, DataExtraction.level s))
                (DataExtraction.sections page)
              = map (fun e => (shown_text e, level_of_name (name (snd e))))
                  headings).
  { subst page headings. rewrite sections_by_block_elements.
    rewrite block_elements_of_page, headings_of_page, map_map.
    apply map_ext_in. intros e I. apply filter_In in I. destruct I as [_ I].
    unfold page_heading in I. rewrite !andb_true_iff in I.
    destruct I as [[_ H] _]. cbn [fst snd]. rewrite name_decompose.
    rewrite (level_of_heading _ H). reflexivity. }
  split; [exact E |].
  apply (f_equal (@length _)) in E. rewrite !length_map in E. exact E.
Qed.

(** X11.  The contents of the sections of a page, one after the other,
    are the texts of its h4, h5, h6, p, div and section elements that come
    after the first element that opens a section, are not inside a script,
    style or noscript element and have at least five characters of text,
    the script, style and noscript elements inside them left out: each
    such element gives one item, in document order, and nothing else
    does. *)
Theorem sections_hold_what_follows (children : list node) :
  flat_map DataExtraction.content
    (DataExtraction.sections
       (DataExtraction.extract_all_text_with_structure (document children)))
  = map shown_text
      (filter page_body
         (from_first page_heading
            (find_all_anc DataExtraction.BLOCK_TAGS (document children)))).
Proof.
  rewrite contents_by_block_elements, block_elements_of_page.
  rewrite from_first_heading_of_page, bodies_of_page, map_map. reflexivity.
Qed.

End SectionsOfThePage.

(** ** Tables of a page, in general *)

Section TablesInGeneral.

Lemma table_of_shape idx tbl t :
  In t (DataExtraction.table_of idx tbl) ->
  (DataExtraction.headers t <> [] \/ DataExtraction.rows t <> [])
  /\ DataExtraction.row_count t = length (DataExtraction.rows t)
  /\ (forall r, In r (DataExtraction.rows t) -> r <> [])
  /\ DataExtraction.table_index t = idx + 1.
Proof.
  unfold DataExtraction.table_of.
  set (hs := match find "thead" tbl with Some th => _ | None => _ end).
  set (body := match find "tbody" tbl with Some tb => tb | None => tbl end).
  set (rs := filter _ _).
  destruct (_ || _) eqn:E; [|intros []].
  intros [<- | []]. cbn. repeat split.
  - apply orb_true_iff in E as [E | E]; apply nonempty_iff in E; auto.
  - intros r Hr. apply filter_In in Hr as [_ Hr].
    apply andb_true_iff in Hr as [Hr _]. now apply nonempty_iff.
Qed.

Lemma tables_indexed (l : list node) (k : nat) :
  forall n, n = length l ->
  let ts := flat_map (fun it => DataExtraction.table_of (fst it) (snd it))
              (combine (seq k n) l) in
  StronglySorted lt (map DataExtraction.table_index ts)
  /\ Forall (fun i => k < i <= k + n) (map DataExtraction.table_index ts)
  /\ length ts <= n.
Proof.
  revert k. induction l as [|tbl l IH]; intros k n ->.
  - cbn. repeat split; constructor.
  - cbn [length seq combine flat_map fst snd].
    destruct (IH (S k) (length l) eq_refl) as [S1 [B1 L1]]. cbn zeta in *.
    set (rest := flat_map _ (combine (seq (S k) (length l)) l)) in *.
    assert (B1' : Forall (fun i => k < i <= k + S (length l))
                    (map DataExtraction.table_index rest)).
    { eapply Forall_impl; [|exact B1]. cbn. intros. lia. }
    destruct (DataExtraction.table_of k tbl) as [|t [|t' more]] eqn:E.
    + cbn [app]. repeat split; auto.
    + assert (I : DataExtraction.table_index t = k + 1).
      { apply (@table_of_shape k tbl t). rewrite E. now left. }
      cbn [app map length]. rewrite I. repeat split.
      * constructor; [exact S1|]. eapply Forall_impl; [|exact B1]. cbn. intros. lia.
      * constructor; [lia | exact B1'].
      * lia.
    + exfalso. unfold DataExtraction.table_of in E.
      destruct (_ || _); discriminate.
Qed.

Lemma in_enumerate {A} (l : list A) :
  forall k i x,
    In (i, x) (combine (seq k (length l)) l)
    <-> k <= i /\ nth_error l (i - k) = Some x.
Proof.
  induction l as [|y l IH]; intros k i x.
  - cbn. split; [contradiction |]. intros [_ H].
    destruct (i - k); discriminate H.
  - cbn [length seq combine In]. rewrite IH. split.
    + intros [E | [L N]].
      * injection E as <- <-. rewrite Nat.sub_diag. split; [lia | reflexivity].
      * split; [lia |]. replace (i - k) with (S (i - S k)) by lia. exact N.
    + intros [L N]. destruct (Nat.eq_dec i k) as [-> | D].
      * rewrite Nat.sub_diag in N. injection N as <-. left. reflexivity.
      * right. split; [lia |].
        replace (i - k) with (S (i - S k)) in N by lia. exact N.
Qed.

Lemma table_of_one idx tbl t :
  In t (DataExtraction.table_of idx tbl) <-> DataExtraction.table_of idx tbl = [t].
Proof.
  unfold DataExtraction.table_of. destruct (_ || _).
  - split; [intros [<- | []]; reflexivity | intros E; rewrite E; left; reflexivity].
  - split; [contradiction | discriminate].
Qed.

(** X13.  The tables the extractor emits are those read from the table
    elements of the page that give a header or a row: a table is emitted
    exactly when it is what the loop reads from the table element at some
    position, and its [table_index] is then that position counted from 1,
    whatever tables were skipped before it.  Every emitted table has a
    header or a row, a [row_count] equal to its number of rows, and no
    empty row; the indexes grow strictly along the list, so the tables
    come in the order of their elements and no element gives two. *)
Theorem tables_shape (soup : node) :
  (forall t,
     In t (DataExtraction.extract_all_tables soup)
     <-> exists position element,
           nth_error (find_all ["table"]%string soup) position = Some element
           /\ DataExtraction.table_of position element = [t])
  /\ (forall position element t,
        DataExtraction.table_of position element = [t] ->
        DataExtraction.table_index t = position + 1
        /\ (DataExtraction.headers t <> [] \/ DataExtraction.rows t <> [])
        /\ DataExtraction.row_count t = length (DataExtraction.rows t)
        /\ (forall r, In r (DataExtraction.rows t) -> r <> []))
  /\ StronglySorted lt
       (map DataExtraction.table_index (DataExtraction.extract_all_tables soup))
  /\ length (DataExtraction.extract_all_tables soup)
     <= length (find_all ["table"]%string soup).
Proof.
  split; [| split].
  - intros t. unfold DataExtraction.extract_all_tables, DataExtraction.enumerate.
    rewrite in_flat_map. split.
    + intros [[i el] [I T]]. apply in_enumerate in I. destruct I as [_ N].
      rewrite Nat.sub_0_r in N. exists i, el. split; [exact N |].
      apply table_of_one. exact T.
    + intros [i [el [N T]]]. exists (i, el). split.
      * apply in_enumerate. rewrite Nat.sub_0_r. split; [lia | exact N].
      * apply table_of_one. exact T.
  - intros position element t T.
    assert (I : In t (DataExtraction.table_of position element))
      by (rewrite T; left; reflexivity).
    destruct (table_of_shape _ _ _ I) as [A [R [N X]]]. auto.
  - unfold DataExtraction.extract_all_tables, DataExtraction.enumerate.
    destruct (@tables_indexed (find_all ["table"]%string soup) 0 _ eq_refl)
      as [S [_ L]]. cbn zeta in *. split; [exact S | exact L].
Qed.

End TablesInGeneral.

(** ** Soundness of the matcher *)

Section MatcherSoundness.

Lemma rep_sound {R : Type} (g : bool) (p : char -> bool) (s : text) :
  forall lo hi pv (cs : list (nat * text)) (k : mstate -> option R) (x : R),
  rep g p lo hi pv s cs k = Some x ->
  exists t st',
    s = t ++ rest st' /\ forallb p t = true /\ lo <= length t
    /\ (forall h, hi = Some h -> length t <= h)
    /\ caps st' = cs /\ k st' = Some x.
Proof.
  induction s as [|c s IH]; intros lo hi pv cs k x H.
  - exists [], (MState pv [] cs).
    cbn [rep] in H.
    assert (L : lo = 0 /\ k (MState pv [] cs) = Some x).
    { destruct g, lo; cbn [or_else] in H; try discriminate; try (split; [reflexivity | exact H]).
      destruct (k (MState pv [] cs)); [split; [reflexivity | exact H] | discriminate]. }
    destruct L as [-> K]. repeat split; auto. intros h _. simpl. lia.
  - cbn [rep] in H.
    assert (M : forall y, (if p c && can_more hi
                   then rep g p (Nat.pred lo) (option_map Nat.pred hi) (Some c) s cs k
                   else None) = Some y ->
                exists t st',
                  c :: s = t ++ rest st' /\ forallb p t = true /\ lo <= length t
                  /\ (forall h, hi = Some h -> length t <= h)
                  /\ caps st' = cs /\ k st' = Some y).
    { intros y Hy. destruct (p c && can_more hi) eqn:E; [|discriminate].
      apply andb_true_iff in E as [Pc Cm].
      apply IH in Hy as [t [st' [E1 [E2 [E3 [E4 [E5 E6]]]]]]].
      exists (c :: t), st'. cbn [app forallb length]. rewrite Pc, E2, <- E1.
      repeat split; auto; [lia|].
      intros h ->. destruct h as [|h]; [discriminate|].
      specialize (E4 h eq_refl). lia. }
    assert (S0 : forall y, match lo with
                           | 0 => k (MState pv (c :: s) cs)
                           | S _ => None
                           end = Some y ->
                exists t st',
                  c :: s = t ++ rest st' /\ forallb p t = true /\ lo <= length t
                  /\ (forall h, hi = Some h -> length t <= h)
                  /\ caps st' = cs /\ k st' = Some y).
    { intros y Hy. destruct lo; [|discriminate].
      exists [], (MState pv (c :: s) cs). repeat split; auto.
      intros h _. simpl. lia. }
    destruct g; unfold or_else in H.
    + destruct (if p c && can_more hi then _ else None) as [y|] eqn:E.
      * injection H as <-. apply M. reflexivity.
      * apply S0. exact H.
    + destruct (match lo with 0 => _ | S _ => None end) as [y|] eqn:E.
      * injection H as <-. apply S0. reflexivity.
      * apply M. exact H.
Qed.

Lemma capture_of_weaken (r r' : regex) (new : list (nat * text)) :
  (forall c, In c (groups_in r) -> In c (groups_in r')) ->
  Forall (capture_of r) new -> Forall (capture_of r') new.
Proof.
  intros H. apply Forall_impl. intros c [a [Ha D]]. exists a. auto.
Qed.

(** Whatever a match attempt passes on was consumed from the text, lies
    in the pattern's language, and the captures it added come from the
    pattern's groups. *)
Lemma exec_sound (r : regex) :
  forall (R : Type) (st : mstate) (k : mstate -> option R) (x : R),
  exec r st k = Some x ->
  exists t st',
    rest st = t ++ rest st' /\ den r t /\ k st' = Some x
    /\ exists new,
         caps st' = new ++ caps st
         /\ Forall (capture_of r) new
         /\ forall n, In n (groups_set r) -> In n (map fst new).
Proof.
  induction r as [|p|a IHa b IHb|a IHa b IHb|g p lo hi|n a IHa|a IHa|p|m];
    intros R st k x H; cbn [exec] in H.
  - exists [], st. repeat split; [constructor | exact H|].
    exists []. repeat split; [constructor | intros n []].
  - destruct (rest st) as [|c s] eqn:E; [discriminate|].
    destruct (p c) eqn:Pc; [|discriminate].
    exists [c], (MState (Some c) s (caps st)).
    repeat split; [now constructor | exact H|].
    exists []. repeat split; [constructor | intros n []].
  - destruct (IHa _ _ _ _ H) as [t1 [st1 [E1 [D1 [K1 [n1 [C1 [F1 S1]]]]]]]].
    destruct (IHb _ _ _ _ K1) as [t2 [st2 [E2 [D2 [K2 [n2 [C2 [F2 S2]]]]]]]].
    exists (t1 ++ t2), st2. repeat split.
    + rewrite E1, E2. now rewrite app_assoc.
    + now constructor.
    + exact K2.
    + exists (n2 ++ n1). repeat split.
      * rewrite C2, C1. now rewrite app_assoc.
      * apply Forall_app. split.
        -- eapply capture_of_weaken; [|exact F2]. intros c Hc.
           cbn [groups_in]. apply in_or_app. now right.
        -- eapply capture_of_weaken; [|exact F1]. intros c Hc.
           cbn [groups_in]. apply in_or_app. now left.
      * intros n Hn. cbn [groups_set] in Hn. rewrite map_app.
        apply in_or_app. apply in_app_or in Hn as [Hn | Hn]; auto.
  - unfold or_else in H.
    assert (X : exec a st k = Some x \/ exec b st k = Some x).
    { destruct (exec a st k) as [y|]; auto. }
    destruct X as [X | X].
    + destruct (IHa _ _ _ _ X) as [t [st' [E [D [K [n1 [C [F _]]]]]]]].
      exists t, st'. repeat split; [exact E | now apply den_alt_l | exact K|].
      exists n1. repeat split; [exact C | | intros n []].
      eapply capture_of_weaken; [|exact F]. intros c Hc.
      cbn [groups_in]. apply in_or_app. now left.
    + destruct (IHb _ _ _ _ X) as [t [st' [E [D [K [n1 [C [F _]]]]]]]].
      exists t, st'. repeat split; [exact E | now apply den_alt_r | exact K|].
      exists n1. repeat split; [exact C | | intros n []].
      eapply capture_of_weaken; [|exact F]. intros c Hc.
      cbn [groups_in]. apply in_or_app. now right.
  - apply rep_sound in H as [t [st' [E1 [E2 [E3 [E4 [E5 E6]]]]]]].
    exists t, st'. repeat split; [exact E1 | now constructor | exact E6|].
    exists []. repeat split; [exact E5 | constructor | intros n []].
  - destruct (IHa _ _ _ _ H) as [t [st1 [E [D [K [n1 [C [F S1]]]]]]]].
    rewrite E in K.
    replace (length (t ++ rest st1) - length (rest st1)) with (length t) in K
      by (rewrite length_app; lia).
    rewrite firstn_app, Nat.sub_diag, firstn_all, firstn_O, app_nil_r in K.
    exists t, (MState (prev st1) (rest st1) ((n, t) :: caps st1)).
    repeat split; [exact E | now constructor | exact K|].
    exists ((n, t) :: n1). cbn [caps]. repeat split.
    + now rewrite C.
    + constructor.
      * exists a. split; [now left | exact D].
      * eapply capture_of_weaken; [|exact F]. intros c Hc. now right.
    + intros j [<- | Hj]; [now left | right; now apply S1].
  - destruct (exec a st (fun st' => Some (caps st'))) as [cs|] eqn:A; [|discriminate].
    destruct (IHa _ _ _ _ A) as [t [st1 [E [D [K [n1 [C [F S1]]]]]]]].
    injection K as <-.
    exists [], (MState (prev st) (rest st) (caps st1)).
    repeat split; [constructor | exact H|].
    exists n1. repeat split; [exact C | exact F | intros n []].
  - destruct (prev st) as [c|]; [|discriminate]. destruct (p c); [|discriminate].
    exists [], st. repeat split; [constructor | exact H|].
    exists []. repeat split; [constructor | intros n []].
  - assert (K : k st = Some x).
    { destruct (rest st) as [|c s]; [exact H|].
      match type of H with
      | (if ?b then _ else _) = _ => destruct b
      end; [exact H | discriminate]. }
    exists [], st. repeat split; [constructor | exact K|].
    exists []. repeat split; [constructor | intros n []].
Qed.

Lemma group_in_captures (n : nat) (cs : list (nat * text)) :
  In n (map fst cs) -> exists t, group n cs = Some t.
Proof.
  induction cs as [|[i t] cs IH]; [intros []|]. cbn [map fst group].
  destruct (Nat.eqb i n) eqn:E; [eauto|].
  intros [-> | H]; [|auto]. rewrite Nat.eqb_refl in E. discriminate.
Qed.

Lemma group_is_capture (n : nat) (cs : list (nat * text)) (t : text) :
  group n cs = Some t -> In (n, t) cs.
Proof.
  induction cs as [|[i t'] cs IH]; [discriminate|]. cbn [group].
  destruct (Nat.eqb i n) eqn:E; [|right; auto].
  intros [= <-]. apply Nat.eqb_eq in E. subst i. now left.
Qed.

(** A match lies where it was attempted, belongs to the language of the
    pattern, and each of its groups to the language of the group's body;
    the groups outside alternatives are set. *)
Lemma match_here_sound r ma pv s m :
  match_here r ma pv s = Some m ->
  s = m_text m ++ m_rest m
  /\ den r (m_text m)
  /\ (forall n t, group n (m_caps m) = Some t ->
        exists a, In (n, a) (groups_in r) /\ den a t)
  /\ (forall n, In n (groups_set r) -> exists t, group n (m_caps m) = Some t).
Proof.
  unfold match_here. intros H.
  apply exec_sound in H as [t [st' [E [D [K [new [C [F S]]]]]]]].
  cbn [rest caps] in *. destruct (ma && _); [discriminate|].
  injection K as <-. cbn [m_text m_rest m_caps].
  assert (T : firstn (length s - length (rest st')) s = t).
  { rewrite E. replace (length (t ++ rest st') - length (rest st')) with (length t)
      by (rewrite length_app; lia).
    now rewrite firstn_app, Nat.sub_diag, firstn_all, firstn_O, app_nil_r. }
  rewrite T. rewrite app_nil_r in C. rewrite C. repeat split; auto.
  - intros n x Hx. apply group_is_capture in Hx.
    rewrite Forall_forall in F. exact (F _ Hx).
  - intros n Hn. apply group_in_captures. auto.
Qed.

(** Every match [finditer] reports was found at some position of the
    text. *)
Lemma hits_found fuel r :
  forall ma pv s m,
  In m (hits (scan fuel r ma pv s)) ->
  exists ma' pv' l s', s = l ++ s' /\ match_here r ma' pv' s' = Some m.
Proof.
  induction fuel as [|fuel IH]; intros ma pv s m H; [destruct H|].
  cbn [scan] in H. destruct (match_here r ma pv s) as [m0|] eqn:M.
  - assert (X : m = m0 \/ In m (hits (scan fuel r true pv s))
                \/ In m (hits (scan fuel r false (m_prev m0) (m_rest m0)))).
    { destruct (m_text m0); cbn [hits] in H; destruct H as [<- | H]; auto. }
    destruct X as [-> | [X | X]].
    + exists ma, pv, [], s. split; [reflexivity | exact M].
    + now apply IH in X.
    + apply IH in X as [ma' [pv' [l [s' [E X]]]]].
      destruct (match_here_sound _ _ _ _ M) as [E0 _].
      exists ma', pv', (m_text m0 ++ l), s'. split; [|exact X].
      rewrite E0 at 1. rewrite E. now rewrite app_assoc.
  - destruct s as [|c s]; [destruct H|]. cbn [hits] in H.
    apply IH in H as [ma' [pv' [l [s' [E X]]]]].
    exists ma', pv', (c :: l), s'. split; [|exact X]. simpl. now rewrite E.
Qed.

Lemma finditer_sound r s m :
  In m (finditer r s) ->
  occurs (m_text m) s
  /\ den r (m_text m)
  /\ (forall n t, group n (m_caps m) = Some t ->
        exists a, In (n, a) (groups_in r) /\ den a t)
  /\ (forall n, In n (groups_set r) -> exists t, group n (m_caps m) = Some t).
Proof.
  unfold finditer, pieces. intros H.
  apply hits_found in H as [ma [pv [l [s' [E M]]]]].
  destruct (match_here_sound _ _ _ _ M) as [E' [D [G S]]].
  repeat split; auto.
  exists l, (m_rest m). now rewrite E, E'.
Qed.

End MatcherSoundness.

(** ** What the entity patterns can capture *)

Section Captures.

Lemma den_seq_inv a b t :
  den (Seq a b) t -> exists s1 s2, t = s1 ++ s2 /\ den a s1 /\ den b s2.
Proof. inversion 1; subst; eauto. Qed.

Lemma den_alt_inv a b t : den (Alt a b) t -> den a t \/ den b t.
Proof. inversion 1; subst; auto. Qed.

Lemma den_eps_inv t : den Eps t -> t = [].
Proof. inversion 1; reflexivity. Qed.

Lemma den_chr_inv p t : den (Chr p) t -> exists c, t = [c] /\ p c = true.
Proof. inversion 1; subst; eauto. Qed.

Lemma den_rep_inv g p lo hi t :
  den (Rep g p lo hi) t ->
  forallb p t = true /\ lo <= length t /\ (forall h, hi = Some h -> length t <= h).
Proof. inversion 1; subst; auto. Qed.

Lemma den_plus_inv p t : den (plus p) t -> t <> [] /\ forallb p t = true.
Proof.
  intros H. apply den_rep_inv in H as [F [L _]]. split; [|exact F].
  destruct t; [simpl in L; lia | discriminate].
Qed.

Lemma den_opt_inv r t : den (opt r) t -> den r t \/ t = [].
Proof.
  intros H. apply den_alt_inv in H as [H | H]; [now left|].
  right. now apply den_eps_inv.
Qed.

Lemma den_opt_chr_inv p t :
  den (opt_chr p) t -> t = [] \/ exists c, t = [c] /\ p c = true.
Proof.
  intros H. apply den_rep_inv in H as [F [_ L]]. specialize (L 1 eq_refl).
  destruct t as [|c [|d t]]; [now left | right | simpl in L; lia].
  exists c. split; [reflexivity|]. cbn [forallb] in F. now rewrite andb_true_r in F.
Qed.

Lemma den_lit_inv s t : den (lit s) t -> t = s.
Proof.
  revert t. induction s as [|c s IH]; intros t H; cbn [lit] in H.
  - now apply den_eps_inv.
  - apply den_seq_inv in H as [s1 [s2 [-> [H1 H2]]]].
    apply den_chr_inv in H1 as [x [-> Hx]]. apply N.eqb_eq in Hx. subst x.
    rewrite (IH _ H2). reflexivity.
Qed.

Lemma den_lit_i_inv s t : den (lit_i s) t -> same_ci s t.
Proof.
  revert t. induction s as [|c s IH]; intros t H; cbn [lit_i] in H.
  - apply den_eps_inv in H. subst t. constructor.
  - apply den_seq_inv in H as [s1 [s2 [-> [H1 H2]]]].
    apply den_chr_inv in H1 as [x [-> Hx]]. constructor; [exact Hx | now apply IH].
Qed.

Lemma den_fold_alt rs : forall r t,
  den (fold_left Alt rs r) t -> den r t \/ exists r', In r' rs /\ den r' t.
Proof.
  induction rs as [|a rs IH]; intros r t H; [now left|].
  cbn [fold_left] in H. apply IH in H as [H | [r' [Hr H]]].
  - apply den_alt_inv in H as [H | H]; [now left|].
    right. exists a. split; [now left | exact H].
  - right. exists r'. split; [now right | exact H].
Qed.

Lemma den_one_of names t :
  names <> [] ->
  den (CleanData.one_of names) t -> exists name, In name names /\ same_ci name t.
Proof.
  unfold CleanData.one_of. destruct names as [|n0 names]; [contradiction|].
  intros _ H. cbn [map] in H. apply den_fold_alt in H as [H | [r' [Hr H]]].
  - exists n0. split; [now left | now apply den_lit_i_inv].
  - apply in_map_iff in Hr as [name [<- Hn]].
    exists name. split; [now right | now apply den_lit_i_inv].
Qed.

Lemma lower1_cases c :
  lower1 c = c \/ (97 <= lower1 c <= 122)%N \/ (224 <= lower1 c <= 254)%N.
Proof.
  unfold lower1.
  destruct (is_upper_AZ c) eqn:E1.
  { right. left. unfold is_upper_AZ, between in E1.
    apply andb_true_iff in E1. rewrite !N.leb_le in E1. lia. }
  destruct (between 192 222 c && negb (c =? 215)%N) eqn:E2.
  { right. right. unfold between in E2.
    rewrite !andb_true_iff, !N.leb_le in E2. lia. }
  destruct (c =? 304)%N; [right; left; lia|].
  destruct (c =? 8490)%N; [right; left; lia|].
  destruct (c =? 8491)%N; [right; right; lia | now left].
Qed.

Lemma lower1_fixed l : (l < 65 \/ 8491 < l)%N -> lower1 l = l.
Proof.
  intros H. unfold lower1.
  destruct (is_upper_AZ l) eqn:E1.
  { unfold is_upper_AZ, between in E1.
    apply andb_true_iff in E1. rewrite !N.leb_le in E1. lia. }
  destruct (between 192 222 l && negb (l =? 215)%N) eqn:E2.
  { unfold between in E2. rewrite !andb_true_iff, !N.leb_le in E2. lia. }
  destruct (l =? 304)%N eqn:E3; [apply N.eqb_eq in E3; lia|].
  destruct (l =? 8490)%N eqn:E4; [apply N.eqb_eq in E4; lia|].
  destruct (l =? 8491)%N eqn:E5; [apply N.eqb_eq in E5; lia | reflexivity].
Qed.

(** Under IGNORECASE a character that is no letter matches itself
    only. *)
Lemma is_ci_uncased l c :
  (l < 65 \/ 8491 < l)%N -> is_ci l c = true -> c = l.
Proof.
  intros H. unfold is_ci. rewrite (@lower1_fixed l H). cbn zeta.
  rewrite !orb_true_iff, !andb_true_iff, !N.eqb_eq.
  intros [[E | [E _]] | [E _]]; try lia.
  destruct (lower1_cases c) as [X | X]; lia.
Qed.

Lemma same_ci_uncased name t :
  Forall (fun l => (l < 65 \/ 8491 < l)%N) name -> same_ci name t -> t = name.
Proof.
  intros F H. induction H as [|l c name t Hc H IH]; [reflexivity|].
  inversion F as [|? ? Fl F']; subst.
  rewrite (@is_ci_uncased l c Fl Hc), (IH F'). reflexivity.
Qed.

Lemma group_or_empty_set n m t :
  group n (m_caps m) = Some t -> CleanData.group_or_empty n m = t.
Proof. unfold CleanData.group_or_empty. now intros ->. Qed.

(** A number with an optional part after a separator. *)
Lemma den_number (sep : char) (t : text) :
  (sep < 65)%N ->
  den (Seq (plus is_digit) (opt (Seq (lit_i [sep]) (plus is_digit)))) t ->
  exists whole part,
    t = whole ++ part /\ digits whole
    /\ (part = [] \/ exists d, part = sep :: d /\ digits d).
Proof.
  intros S H. apply den_seq_inv in H as [whole [part [-> [H1 H2]]]].
  exists whole, part. split; [reflexivity|]. split; [now apply den_plus_inv|].
  apply den_opt_inv in H2 as [H2 | H2]; [|now left]. right.
  apply den_seq_inv in H2 as [s1 [d [-> [H3 H4]]]].
  apply den_lit_i_inv in H3.
  apply same_ci_uncased in H3; [|constructor; [now left | constructor]].
  subst s1. exists d. split; [reflexivity | now apply den_plus_inv].
Qed.

Lemma dosage_of_finditer t v n un :
  In (CleanData.Dosage v n un) (CleanData.extract_clinical_values t) ->
  exists m, In m (finditer CleanData.dosage_pattern t)
            /\ v = m_text m /\ n = CleanData.group_or_empty 1 m
            /\ un = CleanData.group_or_empty 2 m.
Proof.
  unfold CleanData.extract_clinical_values. intros H.
  apply in_app_or in H as [H | H]; apply in_map_iff in H as [m [E Hm]].
  - injection E as <- <- <-. eauto.
  - discriminate.
Qed.

Lemma threshold_of_finditer t v op n un :
  In (CleanData.Threshold v op n un) (CleanData.extract_clinical_values t) ->
  exists m, In m (finditer CleanData.threshold_pattern t)
            /\ v = m_text m /\ op = CleanData.group_or_empty 1 m
            /\ n = CleanData.group_or_empty 2 m
            /\ un = CleanData.group_or_empty 3 m.
Proof.
  unfold CleanData.extract_clinical_values. intros H.
  apply in_app_or in H as [H | H]; apply in_map_iff in H as [m [E Hm]].
  - discriminate.
  - injection E as <- <- <- <-. eauto 6.
Qed.

(** The group [n] of a match of [r], when every match sets it. *)
Lemma group_of_match r t m n :
  In m (finditer r t) -> In n (groups_set r) ->
  exists a, In (n, a) (groups_in r) /\ den a (CleanData.group_or_empty n m).
Proof.
  intros Hm Hn. destruct (@finditer_sound _ _ _ Hm) as [_ [_ [G S]]].
  destruct (S n Hn) as [x Hx]. rewrite (@group_or_empty_set _ _ _ Hx). eauto.
Qed.

(** X14.  Every dosage [extract_clinical_values] reports was read in the
    text: its value occurs there, its number is a string of decimal digits
    with at most one fractional part after a dot, and its unit is one of
    the seven dosage units up to the case of its letters. *)
Theorem dosage_values_shape (t v n un : text) :
  In (CleanData.Dosage v n un) (CleanData.extract_clinical_values t) ->
  occurs v t
  /\ (exists whole part,
        n = whole ++ part /\ digits whole
        /\ (part = [] \/ exists d, part = ch "." :: d /\ digits d))
  /\ exists name,
       In name [u "mg"; u "mcg"; u "IU/mL"; u "U/L"; u "IU"; u "mL"; u "kg"]
       /\ same_ci name un.
Proof.
  intros H. apply dosage_of_finditer in H as [m [Hm [-> [-> ->]]]].
  split; [exact (proj1 (@finditer_sound _ _ _ Hm))|]. split.
  - destruct (@group_of_match _ _ _ 1 Hm) as [a [Ha D]]; [vm_compute; auto|].
    destruct Ha as [E | [E | []]]; [|discriminate]. injection E as <-.
    apply den_number in D; [exact D | reflexivity].
  - destruct (@group_of_match _ _ _ 2 Hm) as [a [Ha D]]; [vm_compute; auto|].
    destruct Ha as [E | [E | []]]; [discriminate|]. injection E as <-.
    apply den_one_of in D; [exact D | discriminate].
Qed.

Lemma dosage_values_shape_witness :
  occurs (u "400 mg orally") sample_dosage.
Proof.
  apply (@dosage_values_shape sample_dosage (u "400 mg orally") (u "400") (u "mg")).
  vm_compute. left. reflexivity.
Defined.

End Captures.

(** ** Thresholds and recommendations *)

Section MoreCaptures.

Lemma same_ci_app a b s t : same_ci a s -> same_ci b t -> same_ci (a ++ b) (s ++ t).
Proof. apply Forall2_app. Qed.

Lemma den_plural (w t : text) :
  den (Seq (lit_i w) (opt_chr (is_ci (ch "s")))) t ->
  same_ci w t \/ same_ci (w ++ u "s") t.
Proof.
  intros H. apply den_seq_inv in H as [s1 [s2 [-> [H1 H2]]]].
  apply den_lit_i_inv in H1.
  apply den_opt_chr_inv in H2 as [-> | [c [-> Hc]]].
  - left. now rewrite app_nil_r.
  - right. apply same_ci_app; [exact H1|]. constructor; [exact Hc | constructor].
Qed.

Lemma hd_error_In {A} (l : list A) (x : A) : hd_error l = Some x -> In x l.
Proof. destruct l; [discriminate|]. intros [= <-]. now left. Qed.

(** X15.  Every threshold [extract_clinical_values] reports was read in
    the text: its value occurs there, its operator is one of the six
    comparison signs, its number is a string of decimal digits with at most
    one further group of digits after a comma, and its unit is one of the
    threshold units, in the singular or the plural, up to the case of its
    letters. *)
Theorem threshold_values_shape (t v op n un : text) :
  In (CleanData.Threshold v op n un) (CleanData.extract_clinical_values t) ->
  occurs v t
  /\ In op [[CleanData.GE]; [CleanData.LE]; u "<"; u ">"; u ">="; u "<="]
  /\ (exists whole part,
        n = whole ++ part /\ digits whole
        /\ (part = [] \/ exists d, part = ch "," :: d /\ digits d))
  /\ exists name,
       In name [u "IU/mL"; u "U/L"; u "IU"; u "mg/dL"; u "year"; u "years";
                u "month"; u "months"; u "week"; u "weeks"; u "day"; u "days"]
       /\ same_ci name un.
Proof.
  intros H. apply threshold_of_finditer in H as [m [Hm [-> [-> [-> ->]]]]].
  split; [exact (proj1 (@finditer_sound _ _ _ Hm))|]. split; [|split].
  - destruct (@group_of_match _ _ _ 1 Hm) as [a [Ha D]]; [vm_compute; auto|].
    destruct Ha as [E | [E | [E | []]]]; try discriminate. injection E as <-.
    apply den_one_of in D; [|discriminate]. destruct D as [name [Hn S]].
    assert (X : CleanData.group_or_empty 1 m = name).
    { apply same_ci_uncased; [|exact S].
      cbn [In] in Hn.
      repeat (destruct Hn as [<- | Hn];
              [repeat constructor; vm_compute; auto; fail|]);
        destruct Hn. }
    now rewrite X.
  - destruct (@group_of_match _ _ _ 2 Hm) as [a [Ha D]]; [vm_compute; auto|].
    destruct Ha as [E | [E | [E | []]]]; try discriminate. injection E as <-.
    apply den_number in D; [exact D | reflexivity].
  - destruct (@group_of_match _ _ _ 3 Hm) as [a [Ha D]]; [vm_compute; auto 6|].
    destruct Ha as [E | [E | [E | []]]]; try discriminate. injection E as <-.
    repeat (apply den_alt_inv in D as [D | D]).
    + apply (@den_lit_i_inv (u "IU/mL")) in D. exists (u "IU/mL"). cbn [In]. auto.
    + apply (@den_lit_i_inv (u "U/L")) in D. exists (u "U/L"). cbn [In]. auto.
    + apply (@den_lit_i_inv (u "IU")) in D. exists (u "IU"). cbn [In]. auto.
    + apply (@den_lit_i_inv (u "mg/dL")) in D. exists (u "mg/dL"). cbn [In]. auto 6.
    + apply (@den_plural (u "year")) in D as [D | D];
        [exists (u "year") | exists (u "years")]; cbn [In]; auto 10.
    + apply (@den_plural (u "month")) in D as [D | D];
        [exists (u "month") | exists (u "months")]; cbn [In]; auto 12.
    + apply (@den_plural (u "week")) in D as [D | D];
        [exists (u "week") | exists (u "weeks")]; cbn [In]; auto 14.
    + apply (@den_plural (u "day")) in D as [D | D];
        [exists (u "day") | exists (u "days")]; cbn [In]; auto 16.
Qed.

Lemma threshold_values_shape_witness :
  occurs ([CleanData.GE] ++ u " 1,000 U/L") sample_threshold.
Proof.
  apply (@threshold_values_shape sample_threshold
           ([CleanData.GE] ++ u " 1,000 U/L") [CleanData.GE] (u "1,000") (u "U/L")).
  vm_compute. right. left. reflexivity.
Defined.

Lemma recommendation_of_match (t : text) (r : CleanData.recommendation) :
  In r (CleanData.extract_recommendations t) ->
  exists m,
    In m (finditer CleanData.rec_pattern t)
    /\ CleanData.number r = CleanData.group_or_empty 1 m
    /\ CleanData.rec_text r
       = CleanData.clean_text (strip (CleanData.group_or_empty 2 m))
    /\ CleanData.rec_text r <> []
    /\ CleanData.grade r
       = option_map (CleanData.group_or_empty 1)
           (search CleanData.grade_pattern (strip (CleanData.group_or_empty 2 m)))
    /\ CleanData.certainty r
       = option_map m_text
           (search CleanData.certainty_pattern (strip (CleanData.group_or_empty 2 m)))
    /\ CleanData.raw_text r = m_text m.
Proof.
  unfold CleanData.extract_recommendations. intros H.
  apply in_flat_map in H as [m [Hm H]]. exists m. split; [exact Hm|].
  unfold CleanData.recommendation_of in H.
  destruct (truthy _) eqn:T; [|destruct H].
  destruct H as [<- | []]. cbn. repeat split.
  now apply truthy_iff.
Qed.

(** X16.  Every recommendation [extract_recommendations] returns was read
    in the text: its raw text occurs there and starts with the word
    "Recommendation" up to case, its number is a non-empty string of
    decimal digits, and its text is a non-empty cleaned text. *)
Theorem recommendations_shape (t : text) (r : CleanData.recommendation) :
  In r (CleanData.extract_recommendations t) ->
  occurs (CleanData.raw_text r) t
  /\ (exists head more,
        CleanData.raw_text r = head ++ more /\ same_ci (u "Recommendation") head)
  /\ digits (CleanData.number r)
  /\ CleanData.rec_text r <> []
  /\ exists x, CleanData.rec_text r = CleanData.clean_text x.
Proof.
  intros H. apply recommendation_of_match in H
    as [m [Hm [N [T [NE [_ [_ R]]]]]]].
  destruct (@finditer_sound _ _ _ Hm) as [O [D _]].
  rewrite R, N. repeat split; [exact O | | | | exact NE | eauto].
  - unfold CleanData.rec_pattern in D.
    do 5 (apply den_seq_inv in D as [? [? [-> [D ?]]]]).
    apply den_lit_i_inv in D. rewrite <- !app_assoc. eauto.
  - destruct (@group_of_match _ _ _ 1 Hm) as [a [Ha X]]; [vm_compute; auto|].
    destruct Ha as [E | [E | []]]; [|discriminate]. injection E as <-.
    apply den_plus_inv in X. exact (proj1 X).
  - destruct (@group_of_match _ _ _ 1 Hm) as [a [Ha X]]; [vm_compute; auto|].
    destruct Ha as [E | [E | []]]; [|discriminate]. injection E as <-.
    apply den_plus_inv in X. exact (proj2 X).
Qed.

Lemma recommendations_shape_witness :
  digits (u "1").
Proof.
  apply (@recommendations_shape sample_recommendations
           (CleanData.Recommendation (u "1")
              (u "Use drug X (Strong recommendation, moderate certainty).")
              (Some (u "Strong")) None
              (u "Recommendation 1: Use drug X (Strong recommendation, moderate certainty). "))).
  vm_compute. left. reflexivity.
Defined.

(** X17.  The grade of a recommendation is absent or exactly "Strong",
    "Conditional" or "Weak".  Its certainty is absent or a parenthesis that
    holds one of the four levels up to case, white space, and the word
    "certainty" up to case, and nothing else. *)
Theorem recommendations_grade_and_certainty (t : text) (r : CleanData.recommendation) :
  In r (CleanData.extract_recommendations t) ->
  (CleanData.grade r = None
   \/ exists g, CleanData.grade r = Some g
                /\ In g [u "Strong"; u "Conditional"; u "Weak"])
  /\ (CleanData.certainty r = None
      \/ exists lv ws word,
           CleanData.certainty r = Some (u "(" ++ lv ++ ws ++ word ++ u ")")
           /\ (exists name, In name [u "high"; u "moderate"; u "low"; u "very low"]
                            /\ same_ci name lv)
           /\ ws <> [] /\ forallb is_space ws = true
           /\ same_ci (u "certainty") word).
Proof.
  intros H. apply recommendation_of_match in H
    as [m [_ [_ [_ [_ [G [C _]]]]]]].
  rewrite G, C. split.
  - destruct (search CleanData.grade_pattern _) as [mg|] eqn:S; [|now left].
    right. cbn [option_map]. eexists. split; [reflexivity|].
    apply hd_error_In in S.
    destruct (@group_of_match _ _ _ 1 S) as [a [Ha X]]; [vm_compute; auto|].
    destruct Ha as [E | []]. injection E as <-.
    apply den_alt_inv in X as [X | X]; [apply den_alt_inv in X as [X | X]|].
    + apply (@den_lit_inv (u "Strong")) in X. rewrite X. cbn [In]. auto.
    + apply (@den_lit_inv (u "Conditional")) in X. rewrite X. cbn [In]. auto.
    + apply (@den_lit_inv (u "Weak")) in X. rewrite X. cbn [In]. auto.
  - destruct (search CleanData.certainty_pattern _) as [mc|] eqn:S; [|now left].
    right. cbn [option_map]. apply hd_error_In in S.
    destruct (@finditer_sound _ _ _ S) as [_ [D _]].
    unfold CleanData.certainty_pattern in D.
    apply den_seq_inv in D as [s1 [rp [-> [D Drp]]]].
    apply den_seq_inv in D as [s2 [word [-> [D Dw]]]].
    apply den_seq_inv in D as [s3 [ws [-> [D Dws]]]].
    apply den_seq_inv in D as [lp [lv [-> [Dlp Dlv]]]].
    apply den_lit_i_inv in Dlp, Drp, Dw.
    apply same_ci_uncased in Dlp; [|repeat constructor; vm_compute; auto].
    apply same_ci_uncased in Drp; [|repeat constructor; vm_compute; auto].
    subst lp rp. apply den_plus_inv in Dws as [W1 W2].
    exists lv, ws, word. rewrite <- !app_assoc. repeat split; auto.
    repeat (apply den_alt_inv in Dlv as [Dlv | Dlv]);
      apply den_lit_i_inv in Dlv; eexists; (split; [|exact Dlv]); cbn [In]; auto 6.
Qed.

Lemma recommendations_grade_and_certainty_witness :
  CleanData.grade
    (CleanData.Recommendation (u "1")
       (u "Use drug X (Strong recommendation, moderate certainty).")
       (Some (u "Strong")) None
       (u "Recommendation 1: Use drug X (Strong recommendation, moderate certainty). "))
  = None
  \/ exists g, Some (u "Strong") = Some g
               /\ In g [u "Strong"; u "Conditional"; u "Weak"].
Proof.
  apply (@recommendations_grade_and_certainty sample_recommendations
           (CleanData.Recommendation (u "1")
              (u "Use drug X (Strong recommendation, moderate certainty).")
              (Some (u "Strong")) None
              (u "Recommendation 1: Use drug X (Strong recommendation, moderate certainty). "))).
  vm_compute. left. reflexivity.
Defined.

End MoreCaptures.

(** ** Fetching pages *)

Section Fetching.
Import DataExtraction.

Variable w : world.

Lemma ends_ret A (a : A) s Q : Q (Ok a) s -> ends (ret a) s Q.
Proof. exact (fun H => H). Qed.

Lemma ends_bind A B (m : io A) (f : A -> io B) s Q :
  ends m s (fun r s' =>
    match r with Ok a => ends (f a) s' Q | Raise e => Q (Raise e) s' end) ->
  ends (io_bind m f) s Q.
Proof.
  unfold ends, io_bind. destruct (m s) as [[a | e] s']; cbn [fst snd]; auto.
Qed.

Lemma ends_try A (body : io A) handler s Q :
  ends body s (fun r s' =>
    match r with Ok a => Q (Ok a) s' | Raise e => ends (handler e) s' Q end) ->
  ends (io_try body handler) s Q.
Proof.
  unfold ends, io_try. destruct (body s) as [[a | e] s']; cbn [fst snd]; auto.
Qed.

Lemma ends_emit e s Q :
  Q (Ok tt) (State (DRIVER s) (log s ++ [e])) -> ends (emit e) s Q.
Proof. exact (fun H => H). Qed.

Lemma ends_init s Q :
  (DRIVER s = true -> Q (Ok tt) s) ->
  (DRIVER s = false -> driver_starts w (length (log s)) = true ->
   Q (Ok tt) (State true (log s ++ [CreateDriver]))) ->
  (DRIVER s = false -> driver_starts w (length (log s)) = false ->
   Q (Raise (u "driver")) (State false (log s ++ [CreateDriver]))) ->
  ends (init_selenium_driver w) s Q.
Proof.
  unfold ends, init_selenium_driver. intros H1 H2 H3.
  destruct (DRIVER s); [auto |].
  destruct (driver_starts w (length (log s))); cbn [fst snd]; auto.
Qed.

Lemma ends_close s Q :
  (DRIVER s = true -> Q (Ok tt) (State false (log s ++ [QuitDriver]))) ->
  (DRIVER s = false -> Q (Ok tt) s) ->
  ends close_selenium_driver s Q.
Proof.
  unfold ends, close_selenium_driver. intros H1 H2.
  destruct (DRIVER s); cbn [fst snd]; auto.
Qed.

Lemma ends_get url s Q :
  (driver_loads w (length (log s)) url = true ->
   Q (Ok tt) (State (DRIVER s) (log s ++ [DriverGet url]))) ->
  (driver_loads w (length (log s)) url = false ->
   Q (Raise (u "get")) (State (DRIVER s) (log s ++ [DriverGet url]))) ->
  ends (driver_get w url) s Q.
Proof.
  unfold ends, driver_get. intros H1 H2.
  destruct (driver_loads w (length (log s)) url); cbn [fst snd]; auto.
Qed.

Lemma ends_source s Q :
  (forall r, driver_shows w (length (log s)) = r ->
   Q r (State (DRIVER s) (log s ++ [PageSource]))) ->
  ends (page_source w) s Q.
Proof. unfold ends, page_source. intros H. cbn [fst snd]. auto. Qed.

Lemma ends_session url s Q :
  (forall r, server_answers w (length (log s)) url = r ->
   Q r (State (DRIVER s) (log s ++ [SessionGet url]))) ->
  ends (session_get w url) s Q.
Proof. unfold ends, session_get. intros H. cbn [fst snd]. auto. Qed.

Lemma ends_weaken A (m : io A) s (Q Q' : outcome A -> state -> Prop) :
  ends m s Q -> (forall r s', Q r s' -> Q' r s') -> ends m s Q'.
Proof. unfold ends. auto. Qed.

Ltac run_step :=
  lazymatch goal with
  | |- ends (io_bind _ _) _ _ => apply ends_bind
  | |- ends (io_try _ _) _ _ => apply ends_try
  | |- ends (ret _) _ _ => apply ends_ret
  | |- ends (emit _) _ _ => apply ends_emit
  | |- ends (init_selenium_driver _) _ _ =>
      apply ends_init; cbn [DRIVER log]; intros; try discriminate
  | |- ends close_selenium_driver _ _ =>
      apply ends_close; cbn [DRIVER log]; intros; try discriminate
  | |- ends (driver_get _ _) _ _ => apply ends_get; intros
  | |- ends (page_source _) _ _ => apply ends_source; intros [? | ?] ?
  | |- ends (session_get _ _) _ _ => apply ends_session; intros [[? ?] | ?] ?
  | |- ends (if ?b then _ else _) _ _ => destruct b eqn:?
  | |- _ => first [progress cbn [DRIVER log] | progress cbv beta iota]
  end.

Ltac asked :=
  let e := fresh "e" in
  let H := fresh "H" in
  intros e H; cbn [In] in H;
  repeat (destruct H as [<- | H]; [first [exact I | reflexivity] |]);
  contradiction.

Ltac leaf :=
  split;
  [ rewrite <- ?app_assoc; cbn [app]; eexists; split; [reflexivity |];
    repeat (split; [vm_compute; reflexivity |]); asked
  | repeat split; try assumption; try reflexivity;
    try (eexists; split; [reflexivity | assumption]) ].

Lemma fetch_with_selenium_run url retry_count s :
  ends (fetch_with_selenium w url retry_count) s (selenium_run w url s).
Proof.
  unfold fetch_with_selenium.
  destruct retry_count as [| n];
    cbn [Nat.sub fetch_with_selenium_depth];
    unfold selenium_attempt, reset_selenium_driver, sleep, wait_for_body;
    cbn [Nat.ltb Nat.leb Nat.add].
  - repeat run_step. all: unfold selenium_run; cbn [DRIVER log]. all: leaf.
  - repeat run_step. all: unfold selenium_run; cbn [DRIVER log]. all: leaf.
Qed.

Lemma fetch_with_selenium_unfold url retry_count s :
  fetch_with_selenium w url retry_count s
  = selenium_attempt w url retry_count
      (fetch_with_selenium w url (retry_count + 1)) s.
Proof.
  unfold fetch_with_selenium. destruct retry_count as [| n]; [reflexivity |].
  cbn [Nat.sub fetch_with_selenium_depth]. unfold selenium_attempt.
  cbn [Nat.ltb Nat.leb]. reflexivity.
Qed.

Lemma paced_weaken prev d : paced None d = true -> paced prev d = true.
Proof.
  destruct d as [| e d]; [reflexivity |]. cbn [paced].
  destruct e; cbn [just_slept andb]; auto; discriminate.
Qed.

Lemma selenium_after_requests url force s r s' pre :
  contains (u "journals.lww.com") url || force = false ->
  pre = [Sleep RATE_LIMIT_REQUESTS; SessionGet url] ->
  selenium_run w url (State (DRIVER s) (log s ++ pre)) r s' ->
  exists d, fetch_run w url force s r s' d.
Proof.
  intros J -> [[d [E [P [Nv [Rq [Lo [Up [Br On]]]]]]]] R].
  cbn [log] in E. rewrite <- app_assoc in E. cbn [app] in E.
  eexists. split; [exact E |].
  assert (B : existsb is_browser
                (Sleep RATE_LIMIT_REQUESTS :: SessionGet url :: d) = true)
    by exact Br.
  split; [cbn [paced just_slept andb]; rewrite N.eqb_refl;
          apply paced_weaken; exact P |].
  split; [apply Nat.leb_le in Nv; exact Nv |].
  split; [change (S (requests d) <= 1); rewrite Rq; lia |].
  split; [apply N.leb_le in Lo; apply N.leb_le in Up;
          change (1500 <= 1500 + slept d <= 61500)%N; lia |].
  split; [intros e [<- | [<- | H]]; [exact I | reflexivity | exact (On e H)] |].
  split; [rewrite J; discriminate |].
  split; [rewrite B; discriminate |].
  intros _. exact R.
Qed.

Lemma fetch_runs url force s :
  exists d,
    fetch_run w url force s (fst (fetch w url force s))
      (snd (fetch w url force s)) d.
Proof.
  change (ends (fetch w url force) s
            (fun r s' => exists d, fetch_run w url force s r s' d)).
  unfold fetch. destruct (contains (u "journals.lww.com") url || force) eqn:J.
  - apply (@ends_weaken _ _ _ _ _ (fetch_with_selenium_run url 0 s)).
    intros r s' [[d [E [P [Nv [Rq [Lo [Up [Br On]]]]]]]] R].
    exists d. split; [exact E |]. split; [exact P |].
    split; [apply Nat.leb_le in Nv; exact Nv |].
    split; [rewrite Rq; lia |].
    split; [apply N.leb_le in Lo; apply N.leb_le in Up; lia |].
    split; [exact On |].
    split; [auto |].
    split; [rewrite Br; discriminate |].
    intros _. exact R.
  - unfold fetch_with_requests, sleep. repeat run_step; cbn [fst snd].
    + destruct (Nat.eqb n 200) eqn:C.
      * destruct (truthy t) eqn:T; cbn [andb negb].
        -- destruct (is_cloudflare_challenge t) eqn:K; cbn [negb].
           ++ apply (@ends_weaken _ _ _ _ _ (fetch_with_selenium_run url 0 _)).
              intros r s'. rewrite <- app_assoc. cbn [app].
              apply (@selenium_after_requests url force s r s' _ J eq_refl).
           ++ apply ends_ret. eexists. split.
              { cbn [log]. rewrite <- app_assoc. cbn [app]. reflexivity. }
              split; [vm_compute; reflexivity |].
              split; [cbn; lia |]. split; [cbn; lia |].
              split; [split; vm_compute; discriminate |].
              split; [asked |].
              split; [rewrite J; discriminate |].
              split; [| discriminate].
              intros _. exists t. apply Nat.eqb_eq in C. subst n.
              cbn [log] in H. rewrite length_app, Nat.add_1_r in H.
              repeat split; auto. intros ->. discriminate T.
        -- apply (@ends_weaken _ _ _ _ _ (fetch_with_selenium_run url 0 _)).
           intros r s'. rewrite <- app_assoc. cbn [app].
           apply (@selenium_after_requests url force s r s' _ J eq_refl).
      * apply (@ends_weaken _ _ _ _ _ (fetch_with_selenium_run url 0 _)).
        intros r s'. rewrite <- app_assoc. cbn [app].
        apply (@selenium_after_requests url force s r s' _ J eq_refl).
    + apply (@ends_weaken _ _ _ _ _ (fetch_with_selenium_run url 0 _)).
      intros r s'. rewrite <- app_assoc. cbn [app].
      apply (@selenium_after_requests url force s r s' _ J eq_refl).
Qed.

End Fetching.

Section FetchProperties.
Import DataExtraction.

Lemma fetch_fast (w : world) (url : text) (force : bool) (s : state) body :
  contains (u "journals.lww.com") url || force = false ->
  server_answers w (S (length (log s))) url = Ok (200, body) ->
  body <> [] ->
  is_cloudflare_challenge body = false ->
  fetch w url force s
  = (Ok (Some body),
     State (DRIVER s)
       ((log s ++ [Sleep RATE_LIMIT_REQUESTS]) ++ [SessionGet url])).
Proof.
  intros J A N K. unfold fetch. rewrite J.
  unfold fetch_with_requests, io_bind, io_try, sleep, emit, session_get, ret.
  cbn [log DRIVER]. rewrite length_app, Nat.add_1_r. cbn [length].
  rewrite A. cbn [fst snd Nat.eqb]. rewrite K.
  destruct body; [contradiction | reflexivity].
Qed.

(** X18.  [fetch] never returns a Cloudflare challenge page: a page it
    returns holds none of the three challenge phrases, so the test for a
    blocked page that [main] applies to the result never succeeds. *)
Theorem fetch_returns_no_challenge (w : world) (url : text) (force_selenium : bool)
    (s : state) (html : text) :
  fst (fetch w url force_selenium s) = Ok (Some html) ->
  is_cloudflare_challenge html = false.
Proof.
  intros E. destruct (fetch_runs w url force_selenium s) as [d R].
  destruct R as [_ [_ [_ [_ [_ [_ [_ [Fast Slow]]]]]]]].
  rewrite E in Fast, Slow.
  destruct (existsb is_browser d).
  - destruct (Slow eq_refl) as [K _]. exact K.
  - destruct (Fast eq_refl) as [body [_ [_ [K [B _]]]]].
    injection B as <-. exact K.
Qed.

Lemma fetch_returns_no_challenge_witness :
  fst (fetch (serving (u "page")) (u "https://www.aasld.org/a") false fresh)
  = Ok (Some (u "page"))
  /\ is_cloudflare_challenge (u "page") = false.
Proof.
  split; [vm_compute; reflexivity |].
  apply (@fetch_returns_no_challenge (serving (u "page"))
           (u "https://www.aasld.org/a") false fresh (u "page")).
  vm_compute. reflexivity.
Defined.

(** X19.  A call of [fetch] only adds to the log, and what it adds is
    paced: every [driver.get] comes right after a sleep of
    [RATE_LIMIT_SELENIUM] and every [session.get] right after a sleep of
    [RATE_LIMIT_REQUESTS]; there are at most two navigations and at most
    one HTTP request, and no address but [url] is asked for. *)
Theorem fetch_is_paced (w : world) (url : text) (force_selenium : bool) (s : state) :
  exists d,
    log (snd (fetch w url force_selenium s)) = log s ++ d
    /\ paced None d = true
    /\ navigations d <= 2
    /\ requests d <= 1
    /\ only_asks url d.
Proof.
  destruct (fetch_runs w url force_selenium s)
    as [d [E [P [Nv [Rq [_ [On _]]]]]]].
  exists d. auto.
Qed.

(** X20.  A call of [fetch] sleeps for at least 1.5 s and at most 61.5 s
    in all, whatever the server and the browser do. *)
Theorem fetch_sleeps (w : world) (url : text) (force_selenium : bool) (s : state) :
  exists d,
    log (snd (fetch w url force_selenium s)) = log s ++ d
    /\ (1500 <= slept d <= 61500)%N.
Proof.
  destruct (fetch_runs w url force_selenium s) as [d [E [_ [_ [_ [T _]]]]]].
  exists d. auto.
Qed.



(** X22.  For an address of journals.lww.com, or when Selenium is forced,
    [fetch] sends no HTTP request, and when it returns the browser is
    running. *)
Theorem fetch_journal_by_browser (w : world) (url : text)
    (force_selenium : bool) (s : state) :
  contains (u "journals.lww.com") url || force_selenium = true ->
  (exists d,
     log (snd (fetch w url force_selenium s)) = log s ++ d
     /\ requests d = 0)
  /\ (raised (fst (fetch w url force_selenium s)) = false ->
      DRIVER (snd (fetch w url force_selenium s)) = true).
Proof.
  intros J. destruct (fetch_runs w url force_selenium s) as [d R].
  destruct R as [E [_ [_ [_ [_ [_ [Jr [_ Slow]]]]]]]].
  destruct (Jr J) as [Rq Br]. split; [exists d; auto |].
  intros Ok. specialize (Slow Br).
  destruct (fst (fetch w url force_selenium s)) as [[h |] | e].
  - apply Slow.
  - exact Slow.
  - discriminate Ok.
Qed.

Lemma fetch_journal_by_browser_witness :
  raised
    (fst (fetch (serving (u "page"))
            (u "https://journals.lww.com/hep/fulltext/a") false fresh)) = false
  /\ DRIVER
       (snd (fetch (serving (u "page"))
               (u "https://journals.lww.com/hep/fulltext/a") false fresh))
     = true.
Proof.
  split; [vm_compute; reflexivity |].
  destruct (@fetch_journal_by_browser (serving (u "page"))
              (u "https://journals.lww.com/hep/fulltext/a") false fresh)
    as [_ H]; [vm_compute; reflexivity |].
  apply H. vm_compute. reflexivity.
Defined.

(** X23.  [fetch] leaves the browser alone exactly when the address is
    not of journals.lww.com, Selenium is not forced, and the server
    answers the request with status 200 and a body that is not empty and
    is no challenge page; it then returns that body and leaves [DRIVER]
    as it was. *)
Theorem fetch_browser_fallback (w : world) (url : text)
    (force_selenium : bool) (s : state) :
  exists d,
    log (snd (fetch w url force_selenium s)) = log s ++ d
    /\ (existsb is_browser d = false <->
        contains (u "journals.lww.com") url || force_selenium = false
        /\ exists body,
             server_answers w (S (length (log s))) url = Ok (200, body)
             /\ body <> []
             /\ is_cloudflare_challenge body = false)
    /\ (forall body,
          existsb is_browser d = false ->
          server_answers w (S (length (log s))) url = Ok (200, body) ->
          fst (fetch w url force_selenium s) = Ok (Some body)
          /\ DRIVER (snd (fetch w url force_selenium s)) = DRIVER s).
Proof.
  destruct (fetch_runs w url force_selenium s) as [d R].
  destruct R as [E [_ [_ [_ [_ [_ [Jr [Fast _]]]]]]]].
  exists d. split; [exact E |]. split; [split |].
  - intros B. split.
    + destruct (contains (u "journals.lww.com") url || force_selenium);
        [| reflexivity].
      destruct (Jr eq_refl) as [_ B']. rewrite B in B'. discriminate B'.
    + destruct (Fast B) as [body [A [N [K _]]]].
      exists body. auto.
  - intros [J [body [A [N K]]]].
    rewrite (fetch_fast w url force_selenium s J A N K) in E. cbn [snd log] in E.
    rewrite <- app_assoc in E. apply app_inv_head in E. subst d. reflexivity.
  - intros body B A. destruct (Fast B) as [body' [A' [_ [_ [Rr [_ Dr]]]]]].
    rewrite A in A'. injection A' as <-. auto.
Qed.

End FetchProperties.

(** ** Cleaning the content of a file *)

Section CleanedContent.

Variable str_of : CleanData.json -> text.

Lemma tidy_nil : tidy [].
Proof. constructor; reflexivity. Qed.

Lemma clean_text_of_tidy v t :
  CleanData.clean_text_of v = CleanData.Returns t -> tidy t.
Proof.
  destruct v; cbn [CleanData.clean_text_of];
    try (destruct (CleanData.json_truthy _); [discriminate |];
         intros E; injection E as <-; exact tidy_nil).
  intros E. injection E as <-. apply clean_text_tidy.
Qed.

Lemma clean_text_of_cleanable v :
  (exists t, CleanData.clean_text_of v = CleanData.Returns t) <-> cleanable v.
Proof.
  destruct v; cbn [CleanData.clean_text_of cleanable];
    try (destruct (CleanData.json_truthy _); split;
         [intros [t E]; discriminate E | discriminate
         | reflexivity | intros _; eexists; reflexivity]).
  split; [exact (fun _ => I) | intros _; eexists; reflexivity].
Qed.

Lemma clean_item_tidy v : tidy (CleanData.clean_item str_of v).
Proof. apply clean_text_tidy. Qed.

Lemma kept_texts (l : list text) :
  Forall tidy l -> Forall kept_text (filter (fun c => 10 <? length c) l).
Proof.
  intros H. apply Forall_forall. intros t T. apply filter_In in T.
  destruct T as [T L]. split.
  - rewrite Forall_forall in H. auto.
  - apply Nat.ltb_lt in L. exact L.
Qed.

Lemma clean_items_tidy l : Forall tidy (map (CleanData.clean_item str_of) l).
Proof.
  apply Forall_forall. intros t T. apply in_map_iff in T.
  destruct T as [v [<- _]]. apply clean_item_tidy.
Qed.

Lemma clean_section_kept sec s :
  CleanData.clean_section str_of sec = CleanData.Returns (Some s) ->
  kept_section s.
Proof.
  destruct sec as [| | | | | |d]; try discriminate.
  cbn [CleanData.clean_section].
  destruct (CleanData.clean_text_of _) as [h|e] eqn:H; [|discriminate].
  cbn [CleanData.and_then].
  destruct (existsb _ CleanData.SKIPPED_HEADINGS) eqn:N; [discriminate|].
  destruct (CleanData.get d "content" _) as [| | | | |items|]; try discriminate.
  set (kept := filter _ _).
  destruct (truthy h || match kept with [] => false | _ => true end) eqn:T;
    [|discriminate].
  intros E. injection E as <-. unfold kept_section.
  cbn [CleanData.heading CleanData.content].
  split; [exact (clean_text_of_tidy _ H) |]. split.
  - apply Forall_forall. intros nav I.
    destruct (contains nav (lower h)) eqn:C; [|reflexivity].
    assert (X : existsb (fun nav => contains nav (lower h))
                  CleanData.SKIPPED_HEADINGS = true)
      by (apply existsb_exists; exists nav; auto).
    rewrite X in N. discriminate N.
  - split; [apply kept_texts, clean_items_tidy |].
    destruct h; [right | left; discriminate].
    cbn [truthy orb] in T. destruct kept; [discriminate T | discriminate].
Qed.

Lemma clean_table_kept tb t :
  CleanData.clean_table str_of tb = CleanData.Returns (Some t) ->
  kept_table t.
Proof.
  destruct tb as [| | | | | |d]; try discriminate.
  cbn [CleanData.clean_table].
  destruct (CleanData.clean_text_of _) as [c|e] eqn:H; [|discriminate].
  cbn [CleanData.and_then].
  destruct (CleanData.iterate (CleanData.get d "headers" _)) as [hs|e];
    [|discriminate].
  cbn [CleanData.and_then].
  destruct (CleanData.iterate (CleanData.get d "rows" _)) as [rs|e];
    [|discriminate].
  cbn [CleanData.and_then].
  intros E. injection E as <-. unfold kept_table.
  cbn [CleanData.caption CleanData.headers CleanData.rows].
  split; [exact (clean_text_of_tidy _ H) |].
  split; [apply clean_items_tidy |].
  apply Forall_forall. intros r R. apply in_flat_map in R.
  destruct R as [row [_ R]]. destruct row; try contradiction.
  cbn [CleanData.clean_row] in R. destruct R as [<- | []].
  apply clean_items_tidy.
Qed.

Lemma collect_cases A (turn : CleanData.json -> CleanData.result (option A))
    (P : A -> Prop) l r :
  (forall x a, turn x = CleanData.Returns (Some a) -> P a) ->
  CleanData.collect turn l = CleanData.Returns r ->
  Forall P r /\ length r <= length l.
Proof.
  intros T. revert r. induction l as [|x l IH]; intros r.
  - intros E. injection E as <-. split; [constructor | reflexivity].
  - cbn [CleanData.collect].
    destruct (turn x) as [a|e] eqn:X; [|discriminate].
    cbn [CleanData.and_then].
    destruct (CleanData.collect turn l) as [rest|e]; [|discriminate].
    cbn [CleanData.and_then]. intros E. injection E as <-.
    destruct (IH rest eq_refl) as [F L]. destruct a as [y|].
    + split; [constructor; [exact (T x y X) | exact F] | cbn [length]; lia].
    + split; [exact F | cbn [length]; lia].
Qed.

(** X24.  Whatever [clean_html_content] returns is clean: the full text
    and every heading, caption, header and cell are cleaned texts; no
    section has a heading with 'logo', 'navigation', 'cookie' or 'privacy'
    in it, whatever the case; every item of a section is longer than ten
    characters; no section is empty; and the two counts are the lengths of
    the two lists. *)
Theorem clean_html_content_shape (content : CleanData.json)
    (c : CleanData.html_content) :
  CleanData.clean_html_content str_of content = CleanData.Returns c ->
  tidy (CleanData.full_text c)
  /\ Forall kept_section (CleanData.sections c)
  /\ Forall kept_table (CleanData.tables c)
  /\ CleanData.section_count c = length (CleanData.sections c)
  /\ CleanData.table_count c = length (CleanData.tables c).
Proof.
  destruct content as [| | | | | |d]; try discriminate.
  cbn [CleanData.clean_html_content].
  destruct (CleanData.clean_text_of _) as [t|e] eqn:T; [|discriminate].
  cbn [CleanData.and_then].
  destruct (CleanData.collect (CleanData.clean_section str_of) _)
    as [ss|e] eqn:S; [|discriminate].
  cbn [CleanData.and_then].
  destruct (CleanData.collect (CleanData.clean_table str_of) _)
    as [ts|e] eqn:B; [|discriminate].
  cbn [CleanData.and_then].
  intros E. injection E as <-.
  cbn [CleanData.full_text CleanData.sections CleanData.tables
       CleanData.section_count CleanData.table_count].
  split; [exact (clean_text_of_tidy _ T) |].
  split; [exact (proj1 (@collect_cases _ _ kept_section _ _ clean_section_kept S)) |].
  split; [exact (proj1 (@collect_cases _ _ kept_table _ _ clean_table_kept B)) |].
  split; reflexivity.
Qed.

End CleanedContent.

Lemma clean_html_content_shape_witness :
  match CleanData.clean_html_content (fun _ => []) sample_content with
  | CleanData.Returns c =>
      CleanData.section_count c = 1 /\ Forall kept_section (CleanData.sections c)
  | CleanData.Raises _ => False
  end.
Proof.
  destruct (CleanData.clean_html_content (fun _ => []) sample_content)
    as [c|e] eqn:E.
  - split.
    + vm_compute in E. injection E as <-. reflexivity.
    + apply (@clean_html_content_shape (fun _ => []) sample_content c E).
  - vm_compute in E. discriminate E.
Defined.

Section CleanedPdf.

Variable str_of : CleanData.json -> text.

(** X25.  [clean_pdf_content] returns exactly when its argument is a
    dictionary whose ['full_text'] is missing, a string, or false; it
    raises [AttributeError] on anything but a dictionary and [TypeError]
    on a full text that is true and no string.  No paragraph, whatever it
    is, makes it raise. *)
Theorem clean_pdf_content_raises (content : CleanData.json) :
  match CleanData.clean_pdf_content str_of content with
  | CleanData.Returns _ =>
      exists d, content = CleanData.JDict d
        /\ cleanable (CleanData.get d "full_text" (CleanData.JStr []))
  | CleanData.Raises CleanData.AttributeError =>
      forall d, content <> CleanData.JDict d
  | CleanData.Raises CleanData.TypeError =>
      exists d, content = CleanData.JDict d
        /\ ~ cleanable (CleanData.get d "full_text" (CleanData.JStr []))
  end.
Proof.
  destruct content as [| | | | | |d]; try (intros d; discriminate).
  cbn [CleanData.clean_pdf_content].
  pose proof (clean_text_of_cleanable
                (CleanData.get d "full_text" (CleanData.JStr []))) as C.
  destruct (CleanData.clean_text_of _) as [t|e] eqn:T; cbn [CleanData.and_then].
  - exists d. split; [reflexivity |]. apply C. exists t. reflexivity.
  - assert (N : ~ cleanable (CleanData.get d "full_text" (CleanData.JStr []))).
    { intros X. apply C in X. destruct X as [t X]. discriminate X. }
    destruct e.
    + exists d. auto.
    + exfalso. revert T.
      destruct (CleanData.get d "full_text" (CleanData.JStr []));
        cbn [CleanData.clean_text_of];
        try (destruct (CleanData.json_truthy _)); discriminate.
Qed.

(** X26.  The paragraphs [clean_pdf_content] returns are the cleaned
    paragraphs of its argument that are longer than ten characters, in
    order: each is a cleaned text, their number is ['paragraph_count'] and
    is at most the number of paragraphs given.  The recommendations and
    the clinical values are those of the cleaned full text. *)
Theorem clean_pdf_content_shape (d : list (text * CleanData.json))
    (c : CleanData.pdf_content) :
  CleanData.clean_pdf_content str_of (CleanData.JDict d) = CleanData.Returns c ->
  tidy (CleanData.pdf_full_text c)
  /\ Forall kept_text (CleanData.paragraphs c)
  /\ CleanData.pdf_paragraph_count c = length (CleanData.paragraphs c)
  /\ length (CleanData.paragraphs c) <= length (CleanData.list_at d "paragraphs")
  /\ CleanData.pdf_recommendations c
     = CleanData.extract_recommendations (CleanData.pdf_full_text c)
  /\ CleanData.pdf_clinical_values c
     = CleanData.extract_clinical_values (CleanData.pdf_full_text c).
Proof.
  cbn [CleanData.clean_pdf_content].
  destruct (CleanData.clean_text_of _) as [t|e] eqn:T; [|discriminate].
  cbn [CleanData.and_then]. intros E. injection E as <-.
  cbn [CleanData.pdf_full_text CleanData.paragraphs
       CleanData.pdf_paragraph_count CleanData.pdf_recommendations
       CleanData.pdf_clinical_values].
  split; [exact (clean_text_of_tidy _ T) |].
  split; [apply kept_texts, clean_items_tidy |].
  split; [reflexivity |].
  split; [| split; reflexivity].
  etransitivity; [apply filter_length_le |]. rewrite length_map. reflexivity.
Qed.

End CleanedPdf.

Lemma clean_pdf_content_shape_witness :
  match
    CleanData.clean_pdf_content (fun _ => [])
      (CleanData.JDict
         [ (u "full_text", CleanData.JStr (u "Treat with 400 mg daily."));
           (u "paragraphs",
            CleanData.JList [CleanData.JStr (u "Treat with 400 mg daily.");
                             CleanData.JStr (u "See above.")]) ])
  with
  | CleanData.Returns c =>
      CleanData.pdf_paragraph_count c = 1
      /\ Forall kept_text (CleanData.paragraphs c)
  | CleanData.Raises _ => False
  end.
Proof.
  destruct (CleanData.clean_pdf_content _ _) as [c|e] eqn:E.
  - split.
    + vm_compute in E. injection E as <-. reflexivity.
    + apply (@clean_pdf_content_shape (fun _ => []) _ c E).
  - vm_compute in E. discriminate E.
Defined.

(** ** From the extractor to the cleaner *)

Section Pipeline.

Variable str_of : CleanData.json -> text.

Ltac lookups :=
  repeat first
    [ progress unfold CleanData.get
    | progress unfold CleanData.list_at
    | progress unfold CleanData.is_str
    | progress cbn [CleanData.lookup]
    | match goal with
      | |- context [Py.eqb (u ?a) (u ?b)] =>
          let r := eval vm_compute in (Py.eqb (u a) (u b)) in
          change (Py.eqb (u a) (u b)) with r
      end
    | progress cbv iota ].

Lemma clean_items_of_texts (l : list text) :
  map (CleanData.clean_item str_of) (map CleanData.JStr l)
  = map CleanData.clean_text l.
Proof. rewrite map_map. reflexivity. Qed.

Lemma clean_rows_of_texts (rows : list (list text)) :
  flat_map (CleanData.clean_row str_of) (map DataExtraction.json_of_texts rows)
  = map (map CleanData.clean_text) rows.
Proof.
  induction rows as [|r rows IH]; [reflexivity |].
  cbn [map flat_map]. rewrite IH. unfold DataExtraction.json_of_texts at 1.
  cbn [CleanData.clean_row app]. rewrite clean_items_of_texts. reflexivity.
Qed.

Lemma clean_table_of_table (t : DataExtraction.table) :
  CleanData.clean_table str_of (DataExtraction.json_of_table t)
  = CleanData.Returns (Some (cleaned_table t)).
Proof.
  unfold DataExtraction.json_of_table. cbn [CleanData.clean_table]. lookups.
  unfold DataExtraction.json_of_texts at 1.
  cbn [CleanData.clean_text_of CleanData.iterate CleanData.and_then].
  rewrite clean_items_of_texts, clean_rows_of_texts. reflexivity.
Qed.

Lemma collect_tables (l : list DataExtraction.table) :
  CleanData.collect (CleanData.clean_table str_of)
    (map DataExtraction.json_of_table l)
  = CleanData.Returns (map cleaned_table l).
Proof.
  induction l as [|t l IH]; [reflexivity |].
  cbn [map CleanData.collect]. rewrite clean_table_of_table, IH. reflexivity.
Qed.

Lemma clean_section_of_section (s : DataExtraction.section) :
  exists o,
    CleanData.clean_section str_of (DataExtraction.json_of_section s)
    = CleanData.Returns o.
Proof.
  unfold DataExtraction.json_of_section. cbn [CleanData.clean_section]. lookups.
  cbn [CleanData.clean_text_of CleanData.and_then].
  destruct (existsb _ CleanData.SKIPPED_HEADINGS); [eexists; reflexivity |].
  unfold DataExtraction.json_of_texts.
  match goal with |- context [if ?b then _ else _] => destruct b end;
    eexists; reflexivity.
Qed.

Lemma collect_sections (l : list DataExtraction.section) :
  exists r,
    CleanData.collect (CleanData.clean_section str_of)
      (map DataExtraction.json_of_section l)
    = CleanData.Returns r.
Proof.
  induction l as [|s l [r IH]]; [eexists; reflexivity |].
  cbn [map CleanData.collect].
  destruct (clean_section_of_section s) as [o ->]. rewrite IH.
  eexists. reflexivity.
Qed.

(** X27.  The cleaner takes every record the extractor writes for a
    page: [clean_file] returns a cleaned file, never [None].  Its title
    and full text are the cleaned title and full text, its tables are the
    extracted tables cleaned cell by cell (none is dropped), every
    section it keeps is clean, and it keeps no more sections than were
    extracted. *)
Theorem cleaner_accepts_html_records (soup : node) (url crawled_at : text)
    (title : option text) (links : CleanData.json) (stem now : text) :
  exists c h,
    CleanData.clean_file str_of stem
      (Some (DataExtraction.complete_record url crawled_at title links
               (DataExtraction.extract_all_text_with_structure soup))) now
    = Some c
    /\ CleanData.cleaned_content c = CleanData.Html h
    /\ CleanData.page_title c
       = match title with Some t => CleanData.clean_text t | None => [] end
    /\ CleanData.full_text h
       = CleanData.clean_text
           (DataExtraction.full_text
              (DataExtraction.extract_all_text_with_structure soup))
    /\ CleanData.tables h
       = map cleaned_table
           (DataExtraction.tables
              (DataExtraction.extract_all_text_with_structure soup))
    /\ CleanData.table_count h
       = DataExtraction.table_count
           (DataExtraction.extract_all_text_with_structure soup)
    /\ Forall kept_section (CleanData.sections h)
    /\ CleanData.section_count h
       <= DataExtraction.section_count
            (DataExtraction.extract_all_text_with_structure soup).
Proof.
  set (extracted := DataExtraction.extract_all_text_with_structure soup).
  assert (TC : DataExtraction.table_count extracted
               = length (DataExtraction.tables extracted)) by reflexivity.
  assert (SC : DataExtraction.section_count extracted
               = length (DataExtraction.sections extracted)) by reflexivity.
  clearbody extracted.
  unfold DataExtraction.complete_record. cbn [CleanData.clean_file]. lookups.
  assert (T : CleanData.clean_text_of
                match title with
                | Some t => CleanData.JStr t
                | None => CleanData.JNull
                end
              = CleanData.Returns
                  match title with
                  | Some t => CleanData.clean_text t
                  | None => []
                  end) by (destruct title; reflexivity).
  rewrite T. cbn [CleanData.and_then CleanData.clean_html_content]. lookups.
  cbn [CleanData.clean_text_of CleanData.and_then].
  destruct (collect_sections (DataExtraction.sections extracted)) as [ss S].
  rewrite S, collect_tables. cbn [CleanData.and_then].
  destruct (@collect_cases _ _ kept_section _ _
              (clean_section_kept str_of) S) as [K L].
  rewrite length_map in L.
  do 2 eexists. split; [reflexivity |].
  cbn [CleanData.cleaned_content CleanData.page_title CleanData.full_text
       CleanData.tables CleanData.table_count CleanData.sections
       CleanData.section_count].
  split; [reflexivity |]. split; [reflexivity |]. split; [reflexivity |].
  split; [reflexivity |].
  split; [rewrite length_map; symmetry; exact TC |].
  split; [exact K | rewrite SC; exact L].
Qed.

Lemma process_pdf_record (lib : DataExtraction.pdf_library)
    (download_pdf : text -> option text) (url : text)
    (data : DataExtraction.pydict) :
  DataExtraction.process_pdf lib download_pdf url
  = DataExtraction.Ok (Some data) ->
  exists title full chars words pages path,
    data
    = [ ("title", DataExtraction.VStr title);
        ("full_text", DataExtraction.VStr full);
        ("full_text_length", DataExtraction.VInt chars);
        ("word_count", DataExtraction.VInt words);
        ("page_count", DataExtraction.VInt pages);
        ("paragraphs",
         DataExtraction.VList (DataExtraction.parse_pdf_into_paragraphs full));
        ("paragraph_count",
         DataExtraction.VInt
           (length (DataExtraction.parse_pdf_into_paragraphs full)));
        ("pdf_path", DataExtraction.VStr path) ]%string.
Proof.
  unfold DataExtraction.process_pdf.
  destruct (download_pdf url) as [pdf_path|]; [|discriminate].
  unfold DataExtraction.extract_text_from_pdf.
  destruct (DataExtraction.PDF_SUPPORT lib); cbn [negb]; [|discriminate].
  destruct (DataExtraction.PdfReader lib pdf_path) as [pages|e];
    [|discriminate].
  cbn [DataExtraction.bind DataExtraction.try_except].
  set (full := sub CleanData.re_spaces _ _).
  cbn [DataExtraction.item DataExtraction.get DataExtraction.get_default
       String.eqb Ascii.eqb Bool.eqb DataExtraction.bind
       DataExtraction.val_truthy].
  destruct (truthy full); cbn [negb]; [|discriminate].
  intros E. injection E as <-. do 6 eexists. reflexivity.
Qed.

(** X28.  The cleaner takes every record written for a PDF: whenever
    [process_pdf] returns a record, [save_pdf_data] finds every key it
    reads in it, and [clean_file] returns a cleaned file, never [None],
    whose full text is the cleaned full text and whose paragraphs are the
    cleaned paragraphs longer than ten characters, in order. *)
Theorem cleaner_accepts_pdf_records (lib : DataExtraction.pdf_library)
    (download_pdf : text -> option text) (url crawled_at stem now : text)
    (data : DataExtraction.pydict) :
  DataExtraction.process_pdf lib download_pdf url
  = DataExtraction.Ok (Some data) ->
  exists record c p full paragraphs,
    DataExtraction.pdf_record url crawled_at data = DataExtraction.Ok record
    /\ CleanData.clean_file str_of stem (Some record) now = Some c
    /\ CleanData.cleaned_content c = CleanData.Pdf p
    /\ DataExtraction.get data "full_text" = Some (DataExtraction.VStr full)
    /\ DataExtraction.get data "paragraphs"
       = Some (DataExtraction.VList paragraphs)
    /\ CleanData.pdf_full_text p = CleanData.clean_text full
    /\ CleanData.paragraphs p
       = filter (fun t => 10 <? length t)
           (map CleanData.clean_text paragraphs)
    /\ CleanData.pdf_paragraph_count p <= length paragraphs.
Proof.
  intros H. apply process_pdf_record in H.
  destruct H as [title [full [chars [words [pages [path ->]]]]]].
  unfold DataExtraction.pdf_record.
  cbn [DataExtraction.item DataExtraction.get String.eqb Ascii.eqb Bool.eqb
       DataExtraction.bind DataExtraction.json_of_pyval].
  eexists. eexists. eexists. exists full.
  exists (DataExtraction.parse_pdf_into_paragraphs full).
  split; [reflexivity |].
  cbn [CleanData.clean_file]. lookups.
  cbn [CleanData.clean_text_of CleanData.and_then CleanData.clean_pdf_content].
  lookups. unfold DataExtraction.json_of_texts. lookups.
  cbn [CleanData.clean_text_of CleanData.and_then].
  rewrite clean_items_of_texts.
  split; [reflexivity |].
  cbn [CleanData.cleaned_content CleanData.pdf_full_text CleanData.paragraphs
       CleanData.pdf_paragraph_count].
  split; [reflexivity |]. split; [reflexivity |]. split; [reflexivity |].
  split; [reflexivity |]. split; [reflexivity |].
  etransitivity; [apply filter_length_le |]. rewrite length_map. reflexivity.
Qed.

End Pipeline.

Lemma cleaner_accepts_pdf_records_witness :
  match
    DataExtraction.process_pdf one_page_library (fun _ => Some (u "a.pdf"))
      (u "https://www.aasld.org/sites/default/files/hbv-guidance.pdf")
  with
  | DataExtraction.Ok (Some data) =>
      match
        DataExtraction.pdf_record
          (u "https://www.aasld.org/sites/default/files/hbv-guidance.pdf")
          (u "2025-01-01T00:00:00+00:00") data
      with
      | DataExtraction.Ok record =>
          CleanData.clean_file (fun _ => []) (u "a") (Some record)
            (u "2025-01-02T00:00:00") <> None
      | DataExtraction.Raise _ => False
      end
  | _ => False
  end.
Proof.
  destruct (DataExtraction.process_pdf _ _ _) as [[data|]|e] eqn:E;
    [| vm_compute in E; discriminate E ..].
  destruct (@cleaner_accepts_pdf_records (fun _ => []) _ _ _
              (u "2025-01-01T00:00:00+00:00") (u "a")
              (u "2025-01-02T00:00:00") data E)
    as [record [c [p [full [paragraphs [R [C _]]]]]]].
  rewrite R, C. discriminate.
Defined.

(** ** Target headings *)

Section TargetHeadings.

Lemma startswith_stop (pat a b : text) (c : char) :
  spaceless pat = true -> is_space c = true ->
  startswith pat (a ++ c :: b) = startswith pat a.
Proof.
  intros P C. revert a. induction pat as [|x pat IH]; intros a.
  - destruct a; reflexivity.
  - cbn [spaceless forallb] in P. apply andb_true_iff in P.
    destruct P as [X P]. destruct a as [|y a]; cbn [app startswith].
    + destruct (N.eqb_spec x c) as [->|]; [|reflexivity].
      rewrite C in X. discriminate X.
    + rewrite (IH P). reflexivity.
Qed.

Lemma contains_across (pat a b : text) (c : char) :
  pat <> [] -> spaceless pat = true -> is_space c = true ->
  contains pat (a ++ c :: b) = contains pat a || contains pat b.
Proof.
  intros N P C. induction a as [|y a IH].
  - pose proof (@startswith_stop pat [] b c P C) as H. cbn [app] in H.
    cbn [app contains]. rewrite H.
    destruct pat; [contradiction | reflexivity].
  - pose proof (@startswith_stop pat (y :: a) b c P C) as H. cbn [app] in H.
    cbn [app contains]. rewrite IH, H.
    rewrite orb_assoc. reflexivity.
Qed.

Lemma contains_by_words (pat : text) :
  pat <> [] -> spaceless pat = true ->
  forall s cur,
    existsb (contains pat) (split_ws_aux cur s) = contains pat (rev cur ++ s).
Proof.
  intros N P. induction s as [|c s IH]; intros cur.
  - cbn [split_ws_aux]. rewrite app_nil_r. destruct cur as [|x cur].
    + destruct pat; [contradiction | reflexivity].
    + cbn [existsb]. apply orb_false_r.
  - cbn [split_ws_aux]. destruct (is_space c) eqn:C.
    + rewrite (@contains_across pat (rev cur) s c N P C). destruct cur as [|x cur].
      * rewrite IH. destruct pat; [contradiction | reflexivity].
      * cbn [existsb]. rewrite IH. reflexivity.
    + rewrite IH. cbn [rev]. rewrite <- app_assoc. reflexivity.
Qed.

Lemma split_ws_collapse (s : text) :
  (forall cur,
     split_ws_aux cur (collapse is_space false s) = split_ws_aux cur s)
  /\ split_ws_aux [] (collapse is_space true s) = split_ws_aux [] s.
Proof.
  induction s as [|c s [A B]]; [split; reflexivity |].
  assert (K : is_space blank = true) by reflexivity.
  split; [intros cur |]; cbn [collapse split_ws_aux];
    destruct (is_space c) eqn:C; cbn [split_ws_aux];
    rewrite ?K, ?C, ?A, ?B; reflexivity.
Qed.

Lemma split_ws_lstrip (s : text) :
  split_ws_aux [] (drop_while is_space s) = split_ws_aux [] s.
Proof.
  induction s as [|c s IH]; [reflexivity |].
  cbn [drop_while split_ws_aux]. destruct (is_space c) eqn:C; [exact IH |].
  cbn [split_ws_aux]. rewrite C. reflexivity.
Qed.

Lemma split_ws_spaces (r : text) (cur : text) :
  forallb is_space r = true -> split_ws_aux cur r = split_ws_aux cur [].
Proof.
  revert cur. induction r as [|c r IH]; intros cur R; [reflexivity |].
  cbn [forallb] in R. apply andb_true_iff in R. destruct R as [C R].
  cbn [split_ws_aux]. rewrite C, (IH [] R). destruct cur; reflexivity.
Qed.

Lemma split_ws_tail (a r : text) (cur : text) :
  forallb is_space r = true -> split_ws_aux cur (a ++ r) = split_ws_aux cur a.
Proof.
  intros R. revert cur. induction a as [|c a IH]; intros cur.
  - apply split_ws_spaces. exact R.
  - cbn [app split_ws_aux]. rewrite !IH. reflexivity.
Qed.

Lemma drop_while_front (p : char -> bool) (s : text) :
  exists l, s = l ++ drop_while p s /\ forallb p l = true.
Proof.
  induction s as [|c s [l [E F]]]; [exists []; split; reflexivity |].
  cbn [drop_while]. destruct (p c) eqn:C.
  - exists (c :: l). cbn [app forallb]. rewrite C, <- E, F. split; reflexivity.
  - exists []. split; reflexivity.
Qed.

Lemma rstrip_by_tail (p : char -> bool) (s : text) :
  exists r, s = rstrip_by p s ++ r /\ forallb p r = true.
Proof.
  unfold rstrip_by. destruct (drop_while_front p (rev s)) as [l [E F]].
  exists (rev l). split.
  - rewrite <- rev_app_distr, <- E, rev_involutive. reflexivity.
  - apply forallb_forall. intros x X. apply in_rev in X.
    rewrite forallb_forall in F. auto.
Qed.

Lemma split_ws_strip (s : text) : split_ws (strip s) = split_ws s.
Proof.
  unfold split_ws, strip, lstrip_by.
  destruct (rstrip_by_tail is_space (drop_while is_space s)) as [r [E R]].
  rewrite <- (split_ws_lstrip s). rewrite E at 2.
  rewrite (@split_ws_tail _ r [] R). reflexivity.
Qed.

Lemma lower1_space (c : char) :
  (is_space c = true -> lower1 c = c /\ (c =? 304)%N = false)
  /\ (is_space c = false ->
      is_space (lower1 c) = false /\ is_space 105%N = false
      /\ is_space 775%N = false).
Proof.
  split.
  - intros S. unfold lower1, is_upper_AZ, between.
    unfold is_space, between in S.
    repeat rewrite ?orb_true_iff, ?andb_true_iff, ?N.leb_le, ?N.eqb_eq in S.
    repeat match goal with
           | |- context [(?a <=? ?b)%N] => destruct (N.leb_spec a b)
           | |- context [(?a =? ?b)%N] => destruct (N.eqb_spec a b)
           end; cbn [andb orb negb]; split; try reflexivity; lia.
  - intros S. split; [| split; reflexivity].
    unfold lower1, is_upper_AZ, between.
    repeat match goal with
           | |- context [if ?b then _ else _] => destruct b eqn:?
           end; try exact S; try reflexivity;
    repeat rewrite ?orb_true_iff, ?andb_true_iff, ?negb_true_iff,
      ?N.leb_le, ?N.eqb_eq, ?N.eqb_neq in *;
    unfold is_space, between;
    repeat rewrite ?orb_false_iff, ?andb_false_iff, ?N.leb_gt, ?N.eqb_neq;
    repeat split; lia.
Qed.

Lemma split_ws_prefix (b s cur : text) :
  spaceless b = true ->
  split_ws_aux cur (b ++ s) = split_ws_aux (rev b ++ cur) s.
Proof.
  revert cur. induction b as [|x b IH]; intros cur B; [reflexivity |].
  cbn [spaceless forallb] in B. apply andb_true_iff in B. destruct B as [X B].
  apply negb_true_iff in X. cbn [app split_ws_aux]. rewrite X.
  rewrite (IH _ B). cbn [rev]. rewrite <- app_assoc. reflexivity.
Qed.

Lemma lower_app (a b : text) : lower (a ++ b) = lower a ++ lower b.
Proof. unfold lower. apply flat_map_app. Qed.

Lemma lower_nil (s : text) : lower s = [] -> s = [].
Proof.
  destruct s as [|c s]; [reflexivity |]. unfold lower. cbn [flat_map].
  destruct (c =? 304)%N; discriminate.
Qed.

Lemma split_ws_lower (s : text) :
  forall cur cur',
    rev cur' = lower (rev cur) ->
    split_ws_aux cur' (lower s) = map lower (split_ws_aux cur s).
Proof.
  induction s as [|c s IH]; intros cur cur' E.
  - change (lower []) with (@nil char). cbn [split_ws_aux].
    destruct cur as [|x cur].
    + destruct cur' as [|y cur']; [reflexivity |].
      cbn [rev] in E. destruct (rev cur'); discriminate E.
    + destruct cur' as [|y cur'].
      * symmetry in E. apply lower_nil in E. cbn [rev] in E.
        destruct (rev cur); discriminate E.
      * cbn [map]. rewrite E. reflexivity.
  - change (lower (c :: s))
      with ((if (c =? 304)%N then [105%N; 775%N] else [lower1 c]) ++ lower s).
    destruct (lower1_space c) as [Sp Ns]. cbn [split_ws_aux].
    destruct (is_space c) eqn:C.
    + destruct (Sp eq_refl) as [L D]. rewrite D, L.
      cbn [app split_ws_aux]. rewrite C. destruct cur as [|x cur].
      * destruct cur' as [|y cur'];
          [| cbn [rev] in E; destruct (rev cur'); discriminate E].
        apply (IH [] []). reflexivity.
      * destruct cur' as [|y cur'].
        -- symmetry in E. apply lower_nil in E. cbn [rev] in E.
           destruct (rev cur); discriminate E.
        -- cbn [map]. rewrite E, (IH [] [] eq_refl). reflexivity.
    + destruct (Ns eq_refl) as [L [I D]].
      rewrite split_ws_prefix.
      * apply IH. rewrite rev_app_distr, rev_involutive, E. cbn [rev].
        rewrite lower_app. unfold lower at 3. cbn [flat_map].
        rewrite app_nil_r. reflexivity.
      * destruct (c =? 304)%N; cbn [spaceless forallb]; rewrite ?L, ?I, ?D;
          reflexivity.
Qed.

Lemma contains_words (pat s : text) :
  pat <> [] -> spaceless pat = true ->
  contains pat s = existsb (contains pat) (split_ws s).
Proof.
  intros N P. symmetry. exact (@contains_by_words pat N P s []).
Qed.

Lemma contains_normalized (pat s : text) :
  pat <> [] -> spaceless pat = true ->
  contains pat (DataExtraction.normalize_text s) = contains pat (lower s).
Proof.
  intros N P. unfold DataExtraction.normalize_text, CleanData.re_spaces.
  rewrite sub_plus_collapse.
  rewrite !(@contains_words pat _ N P). unfold split_ws.
  rewrite !(@split_ws_lower _ [] [] eq_refl).
  change (split_ws_aux [] (strip (collapse is_space false s)))
    with (split_ws (strip (collapse is_space false s))).
  rewrite split_ws_strip. unfold split_ws.
  rewrite (proj1 (split_ws_collapse s)). reflexivity.
Qed.

(** X29.  The white space of a heading plays no part in
    [match_target_heading]: the result is read off the lower-cased
    heading alone, which must contain 'practice' and 'guid', or
    'supplement' and 'material', each in one piece. *)
Theorem match_target_heading_by_words (txt : text) :
  DataExtraction.match_target_heading txt
  = (contains (u "practice") (lower txt) && contains (u "guid") (lower txt))
    || (contains (u "supplement") (lower txt)
        && contains (u "material") (lower txt)).
Proof.
  unfold DataExtraction.match_target_heading. cbv zeta.
  rewrite !contains_normalized by (reflexivity || discriminate).
  reflexivity.
Qed.

End TargetHeadings.
